(** * Jetpack: a shallow embedding of the game server and of the client decoder

  The development follows the C++ sources of the repository:
  - [Protocol.hpp]   : enumerations, [GameMap], [Player], [NetworkPacket];
  - [Physics.cpp]    : [applyPhysics], [checkBounds];
  - [Broadcaster.cpp]: the outbound packets;
  - [Server.cpp]     : map loading, connection handling, the tick;
  - [NetworkClient.cpp]: [getPacketSize], the receive loop and
    [handleGameStateUpdate].

  C++ [float] is IEEE-754 binary32; it is modelled with the executable
  specification of the standard library ([SpecFloat], precision 24,
  exponent bound 128), so every float operation below rounds exactly as
  the compiled code does.  C++ [int] is a 32-bit two's complement integer
  carried in [Z] with its wrap-around written out. *)

From Stdlib Require Import ZArith List Bool Lia String Ascii SpecFloat.
From Stdlib Require Import QArith Qabs Qpower Lqa.
From Stdlib.Strings Require Import Byte.
From stdpp Require Import base list option.

Local Open Scope Z_scope.

(** ** Machine integers *)

Module MachineInt.

Definition INT_MIN : Z := -2147483648.
Definition INT_MAX : Z := 2147483647.

(** Two's complement reduction to a signed [w]-bit integer. *)
Definition wrap_signed (w : Z) (z : Z) : Z :=
  (z + 2 ^ (w - 1)) mod 2 ^ w - 2 ^ (w - 1).

(** Reduction to an unsigned [w]-bit integer. *)
Definition wrap_unsigned (w : Z) (z : Z) : Z := z mod 2 ^ w.

Definition to_int (z : Z) : Z := wrap_signed 32 z.
Definition to_int16 (z : Z) : Z := wrap_signed 16 z.
Definition to_uint16 (z : Z) : Z := wrap_unsigned 16 z.
Definition to_uint8 (z : Z) : Z := wrap_unsigned 8 z.
(** [size_t] is 64 bits wide on the targets of the repository. *)
Definition to_size_t (z : Z) : Z := wrap_unsigned 64 z.

(** [static_cast<std::byte>(static_cast<uint8_t>(z))]. *)
Definition byte_of_Z (z : Z) : byte :=
  match Byte.of_N (Z.to_N (to_uint8 z)) with
  | Some b => b
  | None => x00
  end.

(** [static_cast<unsigned char>(b)]. *)
Definition Z_of_byte (b : byte) : Z := Z.of_N (Byte.to_N b).

End MachineInt.

(** ** binary32 floating point *)

Module F32.

Definition prec : Z := 24.
Definition emax : Z := 128.

Definition float : Type := spec_float.

Definition add : float -> float -> float := SFadd prec emax.
Definition sub : float -> float -> float := SFsub prec emax.
Definition mul : float -> float -> float := SFmul prec emax.
Definition div : float -> float -> float := SFdiv prec emax.
Definition opp : float -> float := SFopp.

(** [a < b] and [a >= b] of C++ (both false when an operand is NaN). *)
Definition lt (a b : float) : bool := SFltb a b.
Definition ge (a b : float) : bool := SFleb b a.
Definition le (a b : float) : bool := SFleb a b.

(** Conversion of an integer, round to nearest even. *)
Definition of_int (z : Z) : float := binary_normalize prec emax z 0 false.

Definition zero : float := S754_zero false.
Definition one : float := S754_finite false 8388608 (-23).
Definition two : float := S754_finite false 8388608 (-22).
Definition hundred : float := S754_finite false 13107200 (-17).

Definition is_nan (f : float) : bool :=
  match f with S754_nan => true | _ => false end.

(** Integer part of a finite float (truncation toward zero). *)
Definition truncate (f : float) : option Z :=
  match f with
  | S754_zero _ => Some 0
  | S754_finite s m e =>
      Some (cond_Zopp s
              (match e with
               | Z0 => Zpos m
               | Zpos _ => Zpos m * 2 ^ e
               | Zneg _ => Zpos m / 2 ^ (- e)
               end))
  | _ => None
  end.

(** [static_cast<int>(f)].  The conversion is undefined in C++ when the
    integer part does not fit (or [f] is NaN or infinite); the compiled
    conversion instruction then yields [INT_MIN], which is what is
    modelled. *)
Definition to_int (f : float) : Z :=
  match truncate f with
  | Some z =>
      if (MachineInt.INT_MIN <=? z) && (z <=? MachineInt.INT_MAX) then z
      else MachineInt.INT_MIN
  | None => MachineInt.INT_MIN
  end.

(** [static_cast<int16_t>(f)]: the 32-bit conversion narrowed to 16 bits
    (again undefined in C++ outside the 16-bit range). *)
Definition to_int16 (f : float) : Z := MachineInt.to_int16 (to_int f).

(** The exact rational value of a finite float (0 for the others):
    [m * 2^e] with the sign, a fraction over [2^-e] when [e] is negative. *)
Definition to_Q (f : float) : Q :=
  match f with
  | S754_finite s m e =>
      match e with
      | Zneg k => Qmake (cond_Zopp s (Zpos m)) (Pos.pow 2 k)
      | _ => inject_Z (cond_Zopp s (Zpos m * 2 ^ e))
      end
  | _ => 0%Q
  end.

(** The sign bit of a float as a rational factor. *)
Definition sign_Q (s : bool) : Q := if s then (- (1))%Q else 1%Q.

(** [+0], a positive finite float or [+infinity]. *)
Definition nonneg (f : float) : bool :=
  match f with
  | S754_zero false | S754_finite false _ _ | S754_infinity false => true
  | _ => false
  end.

(** Floats of the normalised shape with value at least 1 (mantissa of 24
    bits or more, exponent from -23 on), and [+infinity]. *)
Definition at_least_one (f : float) : Prop :=
  match f with
  | S754_finite false m e => 2 ^ 23 <= Zpos m /\ -23 <= e
  | S754_infinity false => True
  | _ => False
  end.

(** [|a - b| <= tol] on the exact values of two finite floats. *)
Definition within (tol : Q) (a b : float) : bool :=
  Qle_bool (Qabs (to_Q a - to_Q b)) tol.

End F32.

(** ** Protocol.hpp *)

Module Protocol.

Import MachineInt.

Inductive TileType := EMPTY | COIN | ELECTRICSQUARE.

Inductive CoinState := AVAILABLE | COLLECTED_P1 | COLLECTED_P2 | COLLECTED_BOTH.

(** [PlayerState] is an [enum class : uint8_t]; a byte cast to it that
    names no enumerator is kept as [UNNAMED_STATE]. *)
Inductive PlayerState :=
| CONNECTED | READY | PLAYING | DEAD | FINISHED | DISCONNECTED
| UNNAMED_STATE (raw : Z).

Inductive PacketType :=
| CONNECT_REQUEST | CONNECT_RESPONSE | MAP_DATA | GAME_START | PLAYER_INPUT
| GAME_STATE_UPDATE | PLAYER_POSITION | COIN_COLLECTED | PLAYER_DEATH
| GAME_OVER_PACKET | PLAYER_DISCONNECT.

Inductive GameState := WAITING_FOR_PLAYERS | IN_PROGRESS | GAME_OVER.

Definition TileType_value (t : TileType) : Z :=
  match t with EMPTY => 0 | COIN => 1 | ELECTRICSQUARE => 2 end.

Definition CoinState_value (c : CoinState) : Z :=
  match c with
  | AVAILABLE => 0 | COLLECTED_P1 => 1 | COLLECTED_P2 => 2 | COLLECTED_BOTH => 3
  end.

Definition PlayerState_value (s : PlayerState) : Z :=
  match s with
  | CONNECTED => 0 | READY => 1 | PLAYING => 2 | DEAD => 3 | FINISHED => 4
  | DISCONNECTED => 5 | UNNAMED_STATE raw => raw
  end.

Definition PlayerState_of_value (v : Z) : PlayerState :=
  match v with
  | 0 => CONNECTED | 1 => READY | 2 => PLAYING | 3 => DEAD | 4 => FINISHED
  | 5 => DISCONNECTED | _ => UNNAMED_STATE v
  end.

Definition PacketType_value (t : PacketType) : Z :=
  match t with
  | CONNECT_REQUEST => 1 | CONNECT_RESPONSE => 2 | MAP_DATA => 3
  | GAME_START => 4 | PLAYER_INPUT => 5 | GAME_STATE_UPDATE => 6
  | PLAYER_POSITION => 7 | COIN_COLLECTED => 8 | PLAYER_DEATH => 9
  | GAME_OVER_PACKET => 10 | PLAYER_DISCONNECT => 11
  end.

(** [static_cast<PacketType>(b)]: [None] when no enumerator has that value. *)
Definition PacketType_of_byte (b : byte) : option PacketType :=
  match Z_of_byte b with
  | 1 => Some CONNECT_REQUEST | 2 => Some CONNECT_RESPONSE | 3 => Some MAP_DATA
  | 4 => Some GAME_START | 5 => Some PLAYER_INPUT | 6 => Some GAME_STATE_UPDATE
  | 7 => Some PLAYER_POSITION | 8 => Some COIN_COLLECTED | 9 => Some PLAYER_DEATH
  | 10 => Some GAME_OVER_PACKET | 11 => Some PLAYER_DISCONNECT
  | _ => None
  end.

Definition TileType_eqb (a b : TileType) : bool :=
  TileType_value a =? TileType_value b.
Definition CoinState_eqb (a b : CoinState) : bool :=
  CoinState_value a =? CoinState_value b.
Definition PlayerState_eqb (a b : PlayerState) : bool :=
  PlayerState_value a =? PlayerState_value b.

Record GameMap := mkGameMap {
  width : Z;
  height : Z;
  tiles : list (list TileType);
  coinStates : list (list CoinState)
}.

(** The default-constructed map: no rows, zero size. *)
Definition empty_map : GameMap := mkGameMap 0 0 [] [].

Record Position := mkPosition { pos_x : F32.float; pos_y : F32.float }.

Record Player := mkPlayer {
  m_clientSocket : Z;
  m_id : Z;
  m_position : Position;
  m_velocityY : F32.float;
  m_isJetpacking : bool;
  m_score : Z;
  m_state : PlayerState
}.

(** [Player(clientSocket, playerId)] with the default member values. *)
Definition newPlayer (clientSocket playerId : Z) : Player :=
  mkPlayer clientSocket playerId (mkPosition F32.zero F32.zero) F32.zero
           false 0 CONNECTED.

Definition setPosition (x y : F32.float) (p : Player) : Player :=
  mkPlayer (m_clientSocket p) (m_id p) (mkPosition x y) (m_velocityY p)
           (m_isJetpacking p) (m_score p) (m_state p).
Definition setVelocityY (v : F32.float) (p : Player) : Player :=
  mkPlayer (m_clientSocket p) (m_id p) (m_position p) v
           (m_isJetpacking p) (m_score p) (m_state p).
Definition setJetpacking (j : bool) (p : Player) : Player :=
  mkPlayer (m_clientSocket p) (m_id p) (m_position p) (m_velocityY p)
           j (m_score p) (m_state p).
Definition setScore (s : Z) (p : Player) : Player :=
  mkPlayer (m_clientSocket p) (m_id p) (m_position p) (m_velocityY p)
           (m_isJetpacking p) s (m_state p).
Definition setState (s : PlayerState) (p : Player) : Player :=
  mkPlayer (m_clientSocket p) (m_id p) (m_position p) (m_velocityY p)
           (m_isJetpacking p) (m_score p) s.

(** [NetworkPacket]: a type tag and the payload built so far. *)
Record NetworkPacket := mkPacket { type : PacketType; data : list byte }.

Definition newPacket (t : PacketType) : NetworkPacket := mkPacket t [].

Definition addByte (value : Z) (pkt : NetworkPacket) : NetworkPacket :=
  mkPacket (type pkt) (data pkt ++ [byte_of_Z value]).

(** [addShort(uint16_t value)]: low byte first. *)
Definition addShort (value : Z) (pkt : NetworkPacket) : NetworkPacket :=
  let v := to_uint16 value in
  mkPacket (type pkt)
           (data pkt ++ [byte_of_Z (Z.land v 255);
                         byte_of_Z (Z.land (Z.shiftr v 8) 255)]).

Definition serialize (pkt : NetworkPacket) : list byte :=
  byte_of_Z (PacketType_value (type pkt)) :: data pkt.

End Protocol.

(** ** Physics.cpp *)

Module Physics.

Import Protocol.

Definition GRAVITY : F32.float := S754_finite false 8589935 (-30).
Definition JETPACK_FORCE : F32.float := S754_finite false 13958644 (-30).
Definition MAX_VELOCITY : F32.float := S754_finite false 13421773 (-28).
Definition HORIZONTAL_SPEED : F32.float := S754_finite false 13421773 (-28).

(** [std::clamp(v, lo, hi)]. *)
Definition clamp (v lo hi : F32.float) : F32.float :=
  if F32.lt v lo then lo else if F32.lt hi v then hi else v.

Definition applyPhysics (player : Player) : Player :=
  let velocityY := F32.add (m_velocityY player) GRAVITY in
  let velocityY :=
    if m_isJetpacking player then F32.sub velocityY JETPACK_FORCE
    else velocityY in
  let velocityY := clamp velocityY (F32.opp MAX_VELOCITY) MAX_VELOCITY in
  let player := setVelocityY velocityY player in
  let pos := m_position player in
  setPosition (F32.add (pos_x pos) HORIZONTAL_SPEED)
              (F32.add (pos_y pos) velocityY) player.

(** The upper bound [map.height - 1.0f]. *)
Definition floor_bound (map : GameMap) : F32.float :=
  F32.sub (F32.of_int (height map)) F32.one.

Definition checkBounds (player : Player) (map : GameMap) : Player :=
  let pos := m_position player in
  if F32.lt (pos_y pos) F32.zero then
    setVelocityY F32.zero (setPosition (pos_x pos) F32.zero player)
  else if F32.ge (pos_y pos) (floor_bound map) then
    setVelocityY F32.zero (setPosition (pos_x pos) (floor_bound map) player)
  else player.

End Physics.

(** ** Broadcaster.cpp

  The broadcaster holds a reference to the server's player table; every
  function below therefore takes the table as it is at the time of the
  call.  A broadcast is the list of [(socket, bytes)] sends it performs,
  in iteration order of the table. *)

Module Broadcaster.

Import MachineInt Protocol.

Definition Send : Type := (Z * list byte)%type.

Definition broadcastToAll (players : list (Z * Player)) (bytes : list byte)
  : list Send :=
  map (fun sp => (fst sp, bytes)) players.

Definition gameStartPacket (players : list (Z * Player)) : list byte :=
  serialize (addByte 0 (addByte (Z.of_nat (length players))
                                (newPacket GAME_START))).

Definition broadcastGameStart (players : list (Z * Player)) : list Send :=
  broadcastToAll players (gameStartPacket players).

(** The body of the loop of [broadcastGameState]: ten bytes per player. *)
Definition addPlayerRecord (pkt : NetworkPacket) (sp : Z * Player)
  : NetworkPacket :=
  let player := snd sp in
  let pkt := addByte (m_id player) pkt in
  let pkt := addByte (PlayerState_value (m_state player)) pkt in
  let xFixedPrecision :=
    F32.to_int16 (F32.mul (pos_x (m_position player)) (F32.of_int 100)) in
  let yFixedPrecision :=
    F32.to_int16 (F32.mul (pos_y (m_position player)) (F32.of_int 100)) in
  let pkt := addShort xFixedPrecision pkt in
  let pkt := addShort yFixedPrecision pkt in
  let pkt := addShort (m_score player) pkt in
  let pkt := addByte (if m_isJetpacking player then 1 else 0) pkt in
  addByte 0 pkt.

Definition gameStatePacket (players : list (Z * Player)) : list byte :=
  serialize (fold_left addPlayerRecord players
               (addByte (Z.of_nat (length players))
                        (newPacket GAME_STATE_UPDATE))).

Definition broadcastGameState (players : list (Z * Player)) : list Send :=
  broadcastToAll players (gameStatePacket players).

Definition coinCollectedPacket (players : list (Z * Player))
           (playerId x y coinState : Z) : list byte :=
  let score :=
    match find (fun sp => m_id (snd sp) =? playerId) players with
    | Some sp => m_score (snd sp)
    | None => 0
    end in
  serialize (addByte coinState (addByte score (addByte y (addByte x
              (addByte playerId (newPacket COIN_COLLECTED)))))).

Definition broadcastCoinCollected (players : list (Z * Player))
           (playerId x y coinState : Z) : list Send :=
  broadcastToAll players (coinCollectedPacket players playerId x y coinState).

Definition playerDeathPacket (playerId : Z) : list byte :=
  serialize (addByte playerId (newPacket PLAYER_DEATH)).

Definition broadcastPlayerDeath (players : list (Z * Player)) (playerId : Z)
  : list Send :=
  broadcastToAll players (playerDeathPacket playerId).

Definition gameOverPacket (winnerId : Z) : list byte :=
  let hasWinner := 0 <? winnerId in
  serialize (addByte (if hasWinner then winnerId else 0)
               (addByte (if hasWinner then 1 else 0)
                        (newPacket GAME_OVER_PACKET))).

Definition broadcastGameOver (players : list (Z * Player)) (winnerId : Z)
  : list Send :=
  broadcastToAll players (gameOverPacket winnerId).

End Broadcaster.

(** ** Server.cpp *)

Module Server.

Import MachineInt Protocol.

Definition MAX_CLIENTS : Z := 2.
Definition MIN_PLAYERS : Z := 2.

(** The map file as [std::getline] delivers it, line by line; [None] when
    the file cannot be opened. *)
Definition MapFile : Type := option (list string).

(** The server object.  [m_players] is a [std::unordered_map] keyed by
    socket; it is kept as the list of its entries in iteration order,
    the newest entry first (keys are distinct).  [closed] and [sent]
    record the calls to [close] and [send], oldest first. *)
Record State := mkState {
  m_map : GameMap;
  m_serverSocket : Z;
  m_pollfds : list Z;
  m_players : list (Z * Player);
  m_gameState : GameState;
  closed : list Z;
  sent : list Broadcaster.Send
}.

Definition with_players (ps : list (Z * Player)) (s : State) : State :=
  mkState (m_map s) (m_serverSocket s) (m_pollfds s) ps (m_gameState s)
          (closed s) (sent s).
Definition with_map (m : GameMap) (s : State) : State :=
  mkState m (m_serverSocket s) (m_pollfds s) (m_players s) (m_gameState s)
          (closed s) (sent s).
Definition with_gameState (g : GameState) (s : State) : State :=
  mkState (m_map s) (m_serverSocket s) (m_pollfds s) (m_players s) g
          (closed s) (sent s).
Definition with_pollfds (fds : list Z) (s : State) : State :=
  mkState (m_map s) (m_serverSocket s) fds (m_players s) (m_gameState s)
          (closed s) (sent s).
Definition do_close (fds : list Z) (s : State) : State :=
  mkState (m_map s) (m_serverSocket s) (m_pollfds s) (m_players s)
          (m_gameState s) (closed s ++ fds) (sent s).
Definition do_send (out : list Broadcaster.Send) (s : State) : State :=
  mkState (m_map s) (m_serverSocket s) (m_pollfds s) (m_players s)
          (m_gameState s) (closed s) (sent s ++ out).

(** *** loadMap *)

(** [std::vector::resize(n, v)]: the first [n] elements are kept as they
    are, missing ones are copies of [v]. *)
Definition resize {A : Type} (n : nat) (v : A) (l : list A) : list A :=
  take n l ++ replicate (n - length l) v.

Definition tile_of_char (c : ascii) : TileType :=
  if Ascii.eqb c "_" then EMPTY
  else if Ascii.eqb c "c" then COIN
  else if Ascii.eqb c "e" then ELECTRICSQUARE
  else EMPTY.

Definition char_at (lines : list string) (y x : nat) : ascii :=
  match lines !! y with
  | Some line => match String.get x line with Some c => c | None => zero end
  | None => zero
  end.

(** [grid[y][x] = v] (no effect outside the grid, where C++ leaves the
    behaviour undefined). *)
Definition grid_set {A : Type} (y x : nat) (v : A) (grid : list (list A))
  : list (list A) :=
  alter (fun row => <[x := v]> row) y grid.

Definition grid_get {A : Type} (y x : nat) (grid : list (list A)) : option A :=
  match grid !! y with Some row => row !! x | None => None end.

(** The two nested loops of [loadMap] that assign every tile. *)
Definition fill_tiles (lines : list string) (h w : nat)
           (grid : list (list TileType)) : list (list TileType) :=
  fold_left
    (fun g y =>
       fold_left (fun g x => grid_set y x (tile_of_char (char_at lines y x)) g)
                 (seq 0 w) g)
    (seq 0 h) grid.

Definition loadMap (file : MapFile) (map : GameMap) : bool * GameMap :=
  match file with
  | None => (false, map)
  | Some content =>
      let lines := filter (fun line => negb (String.length line =? 0)%nat) content in
      match lines with
      | [] => (false, map)
      | first :: _ =>
          let h := to_int (Z.of_nat (length lines)) in
          let w := to_int (Z.of_nat (String.length first)) in
          if existsb (fun line => negb (Z.of_nat (String.length line) =? to_size_t w))
                     lines
          then (false, mkGameMap w h (tiles map) (coinStates map))
          else
            let rows := Z.to_nat (to_size_t h) in
            let cols := Z.to_nat (to_size_t w) in
            let tiles1 := resize rows (replicate cols EMPTY) (tiles map) in
            let coins1 := resize rows (replicate cols AVAILABLE) (coinStates map) in
            (true, mkGameMap w h
                     (fill_tiles lines (Z.to_nat h) (Z.to_nat w) tiles1)
                     coins1)
      end
  end.

(** The state the constructor builds once the map is loaded and the
    listening socket [serverSocket] is registered; [None] when the map
    cannot be loaded (the constructor throws). *)
Definition init (file : MapFile) (serverSocket : Z) : option State :=
  match loadMap file empty_map with
  | (true, map) =>
      Some (mkState map serverSocket [serverSocket] [] WAITING_FOR_PLAYERS [] [])
  | (false, _) => None
  end.

(** *** Connections *)

Definition connectResponsePacket (s : State) (playerId : Z) : list byte :=
  serialize (addByte (Z.of_nat (length (m_players s)))
               (addByte playerId (newPacket CONNECT_RESPONSE))).

Definition sendConnectResponse (clientSocket playerId : Z) (s : State) : State :=
  do_send [(clientSocket, connectResponsePacket s playerId)] s.

Definition cells (h w : nat) : list (nat * nat) :=
  flat_map (fun y => map (fun x => (y, x)) (seq 0 w)) (seq 0 h).

Definition mapDataPacket (map : GameMap) : list byte :=
  let h := Z.to_nat (height map) in
  let w := Z.to_nat (width map) in
  let pkt := addShort (height map) (addShort (width map) (newPacket MAP_DATA)) in
  let pkt :=
    fold_left (fun pkt yx =>
                 addByte (TileType_value
                            (default EMPTY (grid_get yx.1 yx.2 (tiles map)))) pkt)
              (cells h w) pkt in
  let pkt :=
    fold_left (fun pkt yx =>
                 addByte (CoinState_value
                            (default AVAILABLE (grid_get yx.1 yx.2 (coinStates map)))) pkt)
              (cells h w) pkt in
  serialize pkt.

Definition sendMapData (clientSocket : Z) (s : State) : State :=
  do_send [(clientSocket, mapDataPacket (m_map s))] s.

Definition spawn (map : GameMap) (p : Player) : Player :=
  setPosition F32.one (F32.sub (F32.of_int (height map)) F32.two)
              (setState READY p).

Definition checkGameStart (s : State) : State :=
  match m_gameState s with
  | WAITING_FOR_PLAYERS =>
      let readyPlayersCount := Z.of_nat (length (m_players s)) in
      if MIN_PLAYERS <=? readyPlayersCount then
        let players := map (fun sp => (fst sp, spawn (m_map s) (snd sp)))
                           (m_players s) in
        let s := with_players players (with_gameState IN_PROGRESS s) in
        let s := do_send (Broadcaster.broadcastGameStart (m_players s)) s in
        do_send (Broadcaster.broadcastGameState (m_players s)) s
      else s
  | _ => s
  end.

(** [m_players.emplace(key, value)]: nothing is inserted when the key is
    already present.  The C++ standard leaves the place of a new entry
    in the iteration order of an [unordered_map] open; the library the
    repository is built with (libstdc++) links the node of a key whose
    bucket is empty in front of all the others, as happens with the few
    descriptors of a session, so that the table is iterated from the
    newest entry to the oldest.  A new entry is put first. *)
Definition emplace (key : Z) (p : Player) (players : list (Z * Player))
  : list (Z * Player) :=
  if existsb (fun sp => fst sp =? key) players then players
  else (key, p) :: players.

(** [acceptNewClient], for the descriptor [accept] returned (negative on
    failure). *)
Definition acceptNewClient (clientSocket : Z) (s : State) : State :=
  if clientSocket <? 0 then s
  else
    let s := with_pollfds (m_pollfds s ++ [clientSocket]) s in
    let newPlayerId := to_int (Z.of_nat (length (m_players s)) + 1) in
    let s := with_players
               (emplace clientSocket (newPlayer clientSocket newPlayerId)
                        (m_players s)) s in
    let s := sendConnectResponse clientSocket newPlayerId s in
    let s := sendMapData clientSocket s in
    checkGameStart s.

(** [m_players.erase(m_players.find(key))]. *)
Definition erase (key : Z) (players : list (Z * Player)) : list (Z * Player) :=
  filter (fun sp => negb (fst sp =? key)) players.

Fixpoint remove_first (fd : Z) (fds : list Z) : option (list Z) :=
  match fds with
  | [] => None
  | f :: rest =>
      if f =? fd then Some rest
      else match remove_first fd rest with
           | Some rest' => Some (f :: rest')
           | None => None
           end
  end.

Definition count_state (st : PlayerState) (players : list (Z * Player)) : Z :=
  Z.of_nat (length (filter (fun sp => PlayerState_eqb (m_state (snd sp)) st)
                           players)).

Definition handleClientDisconnect (clientSocket : Z) (s : State) : State :=
  let s := with_players (erase clientSocket (m_players s)) s in
  let s :=
    match remove_first clientSocket (m_pollfds s) with
    | Some fds => with_pollfds fds (do_close [clientSocket] s)
    | None => s
    end in
  match m_gameState s with
  | IN_PROGRESS =>
      let activePlayers := count_state PLAYING (m_players s) in
      if activePlayers <? MIN_PLAYERS then
        let s := with_gameState GAME_OVER s in
        do_send (Broadcaster.broadcastGameOver (m_players s) (-1)) s
      else s
  | _ => s
  end.

Definition handlePlayerInput (clientSocket : Z) (bytes : list byte)
           (s : State) : State :=
  if Z.of_nat (length bytes) <? 2 then s
  else
    let isJetpacking := negb (Z_of_byte (nth 1 bytes x00) =? 0) in
    with_players
      (map (fun sp =>
              if (fst sp =? clientSocket)
                 && PlayerState_eqb (m_state (snd sp)) PLAYING
              then (fst sp, setJetpacking isJetpacking (snd sp))
              else sp)
           (m_players s)) s.

Definition processPacket (clientSocket : Z) (bytes : list byte) (s : State)
  : State :=
  match bytes with
  | [] => s
  | tag :: _ =>
      match PacketType_of_byte tag with
      | Some PLAYER_INPUT => handlePlayerInput clientSocket bytes s
      | Some PLAYER_DISCONNECT => handleClientDisconnect clientSocket s
      | _ => s
      end
  end.

(** What [recv] handed back to [handleClientData]. *)
Inductive RecvResult :=
| Received (buffer : list byte)   (* that many bytes; none at end of stream *)
| WouldBlock                      (* -1 with EAGAIN or EWOULDBLOCK *)
| Failed.                         (* -1 with another error *)

Definition handleClientData (clientSocket : Z) (r : RecvResult) (s : State)
  : State :=
  match r with
  | Received [] => handleClientDisconnect clientSocket s
  | Failed => handleClientDisconnect clientSocket s
  | WouldBlock => s
  | Received buffer => processPacket clientSocket buffer s
  end.

(** *** The tick *)

Definition updatePlayer (map : GameMap) (player : Player) : Player :=
  if negb (PlayerState_eqb (m_state player) PLAYING) then player
  else
    let player := Physics.applyPhysics player in
    let player := Physics.checkBounds player map in
    if F32.ge (pos_x (m_position player)) (F32.of_int (width map))
    then setState FINISHED player
    else player.

Definition updatePlayers (s : State) : State :=
  with_players
    (map (fun sp => (fst sp, updatePlayer (m_map s) (snd sp))) (m_players s)) s.

Definition alreadyCollected (playerId : Z) (currentState : CoinState) : bool :=
  if (playerId =? 1)
     && (CoinState_eqb currentState COLLECTED_P1
         || CoinState_eqb currentState COLLECTED_BOTH)
  then true
  else if (playerId =? 2)
          && (CoinState_eqb currentState COLLECTED_P2
              || CoinState_eqb currentState COLLECTED_BOTH)
  then true
  else false.

Definition set_coinState (y x : nat) (c : CoinState) (map : GameMap) : GameMap :=
  mkGameMap (width map) (height map) (tiles map)
            (grid_set y x c (coinStates map)).

Definition set_tile (y x : nat) (t : TileType) (map : GameMap) : GameMap :=
  mkGameMap (width map) (height map) (grid_set y x t (tiles map))
            (coinStates map).

(** The coin branch of [checkCollisions] once the player is known not to
    have collected the coin: the new score and the new map. *)
Definition collectCoin (y x : nat) (currentState : CoinState)
           (player : Player) (map : GameMap) : Player * GameMap :=
  let playerId := m_id player in
  let player := setScore (to_int (m_score player + 1)) player in
  let map :=
    if CoinState_eqb currentState AVAILABLE then
      set_coinState y x (if playerId =? 1 then COLLECTED_P1 else COLLECTED_P2) map
    else if CoinState_eqb currentState COLLECTED_P1 && (playerId =? 2) then
      set_tile y x EMPTY (set_coinState y x COLLECTED_BOTH map)
    else if CoinState_eqb currentState COLLECTED_P2 && (playerId =? 1) then
      set_tile y x EMPTY (set_coinState y x COLLECTED_BOTH map)
    else map in
  (player, map).

Definition cell_of (player : Player) : Z * Z :=
  (F32.to_int (pos_x (m_position player)),
   F32.to_int (pos_y (m_position player))).

Definition in_map (map : GameMap) (cell_x cell_y : Z) : bool :=
  (0 <=? cell_x) && (cell_x <? width map)
  && (0 <=? cell_y) && (cell_y <? height map).

(** The body of the loop of [checkCollisions] for the entry
    [(sock, player)], the table being [before ++ (sock, player) :: after].
    It yields the player, the map and the packets sent.  A cell inside
    [width] x [height] for which the grid has no entry (an ill-formed
    map, undefined in C++) is left alone. *)
Definition collide (before after : list (Z * Player)) (sock : Z)
           (player : Player) (map : GameMap)
  : Player * GameMap * list Broadcaster.Send :=
  if negb (PlayerState_eqb (m_state player) PLAYING) then (player, map, [])
  else
    let '(cell_x, cell_y) := cell_of player in
    if in_map map cell_x cell_y then
      let y := Z.to_nat cell_y in
      let x := Z.to_nat cell_x in
      match grid_get y x (tiles map) with
      | Some COIN =>
          match grid_get y x (coinStates map) with
          | Some currentState =>
              if alreadyCollected (m_id player) currentState
              then (player, map, [])
              else
                let '(player, map) := collectCoin y x currentState player map in
                let table := before ++ (sock, player) :: after in
                (player, map,
                 Broadcaster.broadcastCoinCollected table (m_id player)
                   cell_x cell_y
                   (CoinState_value
                      (default AVAILABLE (grid_get y x (coinStates map)))))
          | None => (player, map, [])
          end
      | Some ELECTRICSQUARE =>
          let player := setState DEAD player in
          let table := before ++ (sock, player) :: after in
          (player, map, Broadcaster.broadcastPlayerDeath table (m_id player))
      | _ => (player, map, [])
      end
    else (player, map, []).

Fixpoint checkCollisions_loop (before todo : list (Z * Player))
         (map : GameMap) (out : list Broadcaster.Send)
  : list (Z * Player) * GameMap * list Broadcaster.Send :=
  match todo with
  | [] => (before, map, out)
  | (sock, player) :: after =>
      let '(player', map', sends) := collide before after sock player map in
      checkCollisions_loop (before ++ [(sock, player')]) after map'
                           (out ++ sends)
  end.

Definition checkCollisions (s : State) : State :=
  let '(players, map, out) :=
    checkCollisions_loop [] (m_players s) (m_map s) [] in
  do_send out (with_map map (with_players players s)).

(** The three locals of the first loop of [checkGameEnd]. *)
Record EndScan := mkEndScan {
  allFinished : bool;
  anyDead : bool;
  activePlayersCount : Z
}.

Definition scan_player (acc : EndScan) (sp : Z * Player) : EndScan :=
  let st := m_state (snd sp) in
  if PlayerState_eqb st PLAYING then
    mkEndScan false (anyDead acc) (activePlayersCount acc + 1)
  else if PlayerState_eqb st FINISHED then
    mkEndScan (allFinished acc) (anyDead acc) (activePlayersCount acc + 1)
  else if PlayerState_eqb st DEAD then
    mkEndScan (allFinished acc) true (activePlayersCount acc)
  else acc.

Definition scan_players (players : list (Z * Player)) : EndScan :=
  fold_left scan_player players (mkEndScan true false 0).

Definition end_condition (players : list (Z * Player)) : bool :=
  let sc := scan_players players in
  (allFinished sc && (0 <? activePlayersCount sc))
  || anyDead sc
  || ((activePlayersCount sc <? MIN_PLAYERS)
      && (MIN_PLAYERS <=? Z.of_nat (length players))).

(** The second loop of [checkGameEnd], from the current values of
    [winnerId] and [highestScore]. *)
Fixpoint selectWinner (anyDead : bool) (players : list (Z * Player))
         (winnerId highestScore : Z) : Z :=
  match players with
  | [] => winnerId
  | (_, player) :: rest =>
      if anyDead && negb (PlayerState_eqb (m_state player) DEAD)
      then m_id player
      else if highestScore <? m_score player
      then selectWinner anyDead rest (m_id player) (m_score player)
      else selectWinner anyDead rest winnerId highestScore
  end.

Definition winnerOf (players : list (Z * Player)) : Z :=
  selectWinner (anyDead (scan_players players)) players (-1) (-1).

(** [resetGame]; [None] when the map cannot be reloaded (the exception
    ends the process). *)
Definition resetGame (file : MapFile) (s : State) : option State :=
  let s := do_close (map fst (m_players s)) s in
  let s := with_players [] s in
  let s := with_pollfds [m_serverSocket s] s in
  match loadMap file (m_map s) with
  | (true, map) => Some (with_gameState WAITING_FOR_PLAYERS (with_map map s))
  | (false, _) => None
  end.

Definition checkGameEnd (file : MapFile) (s : State) : option State :=
  if end_condition (m_players s) then
    let s := with_gameState GAME_OVER s in
    let winnerId := winnerOf (m_players s) in
    let s := do_send (Broadcaster.broadcastGameOver (m_players s) winnerId) s in
    resetGame file s
  else Some s.

Definition promote (p : Player) : Player :=
  if PlayerState_eqb (m_state p) READY then setState PLAYING p else p.

Definition updateGameState (file : MapFile) (s : State) : option State :=
  match m_gameState s with
  | IN_PROGRESS =>
      let anyPlaying :=
        existsb (fun sp => PlayerState_eqb (m_state (snd sp)) PLAYING)
                (m_players s) in
      let allReady :=
        forallb (fun sp => PlayerState_eqb (m_state (snd sp)) PLAYING
                           || PlayerState_eqb (m_state (snd sp)) READY)
                (m_players s) in
      if allReady && negb anyPlaying then
        let s := with_players
                   (map (fun sp => (fst sp, promote (snd sp))) (m_players s)) s in
        Some (do_send (Broadcaster.broadcastGameState (m_players s)) s)
      else
        let s := updatePlayers s in
        let s := checkCollisions s in
        let s := do_send (Broadcaster.broadcastGameState (m_players s)) s in
        checkGameEnd file s
  | _ => Some s
  end.

(** *** The main loop

    One iteration of [start] polls, handles the socket events and then
    calls [updateGameState].  The readiness reports are the events; the
    map file is what the file system holds whenever it is read. *)
Inductive Event :=
| Accept (clientSocket : Z)               (* POLLIN on the listener *)
| Data (clientSocket : Z) (r : RecvResult) (* POLLIN on a client *)
| Hangup (fd : Z)                          (* POLLHUP or POLLERR *)
| Tick.                                    (* updateGameState *)

Definition step (file : MapFile) (s : State) (e : Event) : option State :=
  match e with
  | Accept clientSocket => Some (acceptNewClient clientSocket s)
  | Data clientSocket r => Some (handleClientData clientSocket r s)
  | Hangup fd =>
      if fd =? m_serverSocket s then Some s
      else Some (handleClientDisconnect fd s)
  | Tick => updateGameState file s
  end.

Fixpoint run (file : MapFile) (s : State) (events : list Event)
  : option State :=
  match events with
  | [] => Some s
  | e :: rest =>
      match step file s e with
      | Some s' => run file s' rest
      | None => None
      end
  end.

End Server.

(** ** NetworkClient.cpp *)

Module Client.

Import MachineInt Protocol.

(** [static_cast<unsigned char>(data[i])]. *)
Definition byte_at (data : list byte) (i : nat) : Z :=
  Z_of_byte (nth i data x00).

(** [b0 | (b1 << 8)] on two bytes promoted to [int]. *)
Definition le16 (data : list byte) (i : nat) : Z :=
  Z.lor (byte_at data i) (Z.shiftl (byte_at data (i + 1)) 8).

Definition sized (need maxSize : Z) : Z :=
  if need <=? maxSize then need else 0.

(** [getPacketSize(data, maxSize)]: [data] points to [maxSize] readable
    bytes.  The products of the MAP_DATA case are [int] arithmetic. *)
Definition getPacketSize (data : list byte) (maxSize : Z) : Z :=
  if maxSize <? 1 then 0
  else
    match PacketType_of_byte (nth 0 data x00) with
    | Some CONNECT_RESPONSE => sized 3 maxSize
    | Some MAP_DATA =>
        if maxSize <? 5 then 0
        else
          let width := le16 data 1 in
          let height := le16 data 3 in
          let expectedSize :=
            to_size_t (to_int (5 + to_int (to_int (width * height) * 2))) in
          sized expectedSize maxSize
    | Some GAME_START => sized 3 maxSize
    | Some GAME_STATE_UPDATE =>
        if maxSize <? 2 then 0
        else
          let playerCount := byte_at data 1 in
          let expectedSize := to_size_t (2 + playerCount * 10) in
          sized expectedSize maxSize
    | Some COIN_COLLECTED => sized 6 maxSize
    | Some PLAYER_DEATH => sized 2 maxSize
    | Some GAME_OVER_PACKET => sized 3 maxSize
    | Some PLAYER_INPUT => sized 2 maxSize
    | _ => 0
    end.

(** The inner loop of [networkLoop]: packets are cut off the front of
    the accumulated buffer while [getPacketSize] reports a size; the
    result is the number of bytes processed and the packets handed to
    [processPacket], in order.  Each round consumes at least one byte,
    so [length buffer] rounds of fuel are never exhausted. *)
Fixpoint extractPackets (fuel : nat) (buffer : list byte)
         (processedBytes : Z) (handled : list (list byte))
  : Z * list (list byte) :=
  match fuel with
  | O => (processedBytes, handled)
  | S fuel' =>
      if processedBytes <? Z.of_nat (length buffer) then
        let rest := drop (Z.to_nat processedBytes) buffer in
        let packetSize :=
          getPacketSize rest (Z.of_nat (length buffer) - processedBytes) in
        if packetSize =? 0 then (processedBytes, handled)
        else extractPackets fuel' buffer (processedBytes + packetSize)
                            (handled ++ [take (Z.to_nat packetSize) rest])
      else (processedBytes, handled)
  end.

(** One successful [recv] of [networkLoop]: the bytes are appended to the
    accumulated buffer, whole packets are processed and erased.  The
    result is the packets processed and the buffer retained. *)
Definition onReceive (accumulatedBuffer received : list byte)
  : list (list byte) * list byte :=
  let buffer := accumulatedBuffer ++ received in
  let '(processedBytes, handled) :=
    extractPackets (length buffer) buffer 0 [] in
  (handled,
   if 0 <? processedBytes then drop (Z.to_nat processedBytes) buffer
   else buffer).

(** The fields [handleGameStateUpdate] reads for one player. *)
Record PlayerUpdate := mkPlayerUpdate {
  u_id : Z;
  u_state : PlayerState;
  u_x : F32.float;
  u_y : F32.float;
  u_score : Z;
  u_jetpacking : bool
}.

Definition readPlayerUpdate (data : list byte) (offset : nat) : PlayerUpdate :=
  let playerId := byte_at data offset in
  let state := PlayerState_of_value (byte_at data (offset + 1)) in
  let xFixedPrecision := to_int16 (le16 data (offset + 2)) in
  let yFixedPrecision := to_int16 (le16 data (offset + 4)) in
  let x := F32.div (F32.of_int xFixedPrecision) F32.hundred in
  let y := F32.div (F32.of_int yFixedPrecision) F32.hundred in
  let score := le16 data (offset + 6) in
  let isJetpacking := negb (byte_at data (offset + 8) =? 0) in
  mkPlayerUpdate playerId state x y score isJetpacking.

Definition applyUpdate (u : PlayerUpdate) (p : Player) : Player :=
  setJetpacking (u_jetpacking u)
    (setScore (u_score u)
       (setPosition (u_x u) (u_y u) (setState (u_state u) p))).

(** [std::find_if] on the id, then the update in place. *)
Fixpoint updateFirst (u : PlayerUpdate) (players : list Player)
  : option (list Player) :=
  match players with
  | [] => None
  | p :: rest =>
      if m_id p =? u_id u then Some (applyUpdate u p :: rest)
      else match updateFirst u rest with
           | Some rest' => Some (p :: rest')
           | None => None
           end
  end.

(** A known player is updated, an unknown one is appended. *)
Definition storeUpdate (players : list Player) (u : PlayerUpdate)
  : list Player :=
  match updateFirst u players with
  | Some players' => players'
  | None => players ++ [applyUpdate u (newPlayer (-1) (u_id u))]
  end.

(** The loop over [i], from [i] for [n] more rounds. *)
Fixpoint stateUpdateLoop (data : list byte) (i n : nat)
         (players : list Player) : list Player :=
  match n with
  | O => players
  | S n' =>
      stateUpdateLoop data (S i) n'
        (storeUpdate players (readPlayerUpdate data (2 + i * 10)))
  end.

Definition handleGameStateUpdate (data : list byte) (length : Z)
           (m_players : list Player) : list Player :=
  if length <? 2 then m_players
  else
    let playerCount := byte_at data 1 in
    if length <? to_size_t (2 + playerCount * 10) then m_players
    else stateUpdateLoop data 0 (Z.to_nat playerCount) m_players.

End Client.

(** ** Grids filled cell by cell *)

Module Grid.

(** Two nested loops over [y < h] and [x < w] that assign [f y x] to the
    cell [(y, x)]. *)
Definition fill_grid {A : Type} (f : nat -> nat -> A) (h w : nat)
           (grid : list (list A)) : list (list A) :=
  fold_left
    (fun g y => fold_left (fun g x => Server.grid_set y x (f y x) g) (seq 0 w) g)
    (seq 0 h) grid.

End Grid.

(** ** GameData.hpp

  The client's store.  The mutex only serialises the calls; each member
  function is modelled as the state change it makes while it holds the
  lock. *)

Module GameData.

Import MachineInt Protocol.

(** [Shared::Protocol::GameMap] as the client holds it.  Its cells are
    filled by [static_cast] from received bytes, which accepts every
    byte, so the two enumerations are kept as their underlying
    [uint8_t] value. *)
Record ClientMap := mkClientMap {
  c_width : Z;
  c_height : Z;
  c_tiles : list (list Z);
  c_coinStates : list (list Z)
}.

Definition empty_map : ClientMap := mkClientMap 0 0 [] [].

Record t := mkGameData {
  m_map : ClientMap;
  m_coinStates : list (list Z);
  m_players : list Player;
  m_localPlayerId : Z;
  m_gameOver : bool;
  m_winnerId : Z
}.

(** [GameData()] with the default member values. *)
Definition initial : t := mkGameData empty_map [] [] 1 false (-1).

(** [updateMap] (a cell that [map.coinStates] does not have is read as
    0; the read is undefined in C++). *)
Definition updateMap (map : ClientMap) (d : t) : t :=
  let rows := Z.to_nat (to_size_t (c_height map)) in
  let cols := Z.to_nat (to_size_t (c_width map)) in
  let coins :=
    Server.resize rows (replicate cols (CoinState_value AVAILABLE))
                  (m_coinStates d) in
  let coins :=
    match c_coinStates map with
    | [] => coins
    | _ =>
        Grid.fill_grid
          (fun y x => default 0 (Server.grid_get y x (c_coinStates map)))
          (Z.to_nat (c_height map)) (Z.to_nat (c_width map)) coins
    end in
  mkGameData map coins (m_players d) (m_localPlayerId d) (m_gameOver d)
             (m_winnerId d).

Definition updateCoinStates (x y coinState : Z) (d : t) : t :=
  let map := m_map d in
  if (0 <=? x) && (x <? c_width map) && (0 <=? y) && (y <? c_height map) then
    let coins :=
      Server.grid_set (Z.to_nat y) (Z.to_nat x) coinState (m_coinStates d) in
    let map :=
      if coinState =? CoinState_value COLLECTED_BOTH then
        mkClientMap (c_width map) (c_height map)
                    (Server.grid_set (Z.to_nat y) (Z.to_nat x)
                                     (TileType_value EMPTY) (c_tiles map))
                    (c_coinStates map)
      else map in
    mkGameData map coins (m_players d) (m_localPlayerId d) (m_gameOver d)
               (m_winnerId d)
  else d.

Definition updatePlayers (players : list Player) (d : t) : t :=
  mkGameData (m_map d) (m_coinStates d) players (m_localPlayerId d)
             (m_gameOver d) (m_winnerId d).

(** The loop of [updatePlayerState]: the first player with the id gets
    the state. *)
Fixpoint setFirstState (playerId : Z) (state : PlayerState)
         (players : list Player) : list Player :=
  match players with
  | [] => []
  | p :: rest =>
      if m_id p =? playerId then setState state p :: rest
      else p :: setFirstState playerId state rest
  end.

Definition updatePlayerState (playerId : Z) (state : PlayerState) (d : t) : t :=
  mkGameData (m_map d) (m_coinStates d)
             (setFirstState playerId state (m_players d))
             (m_localPlayerId d) (m_gameOver d) (m_winnerId d).

Definition setLocalPlayerId (id : Z) (d : t) : t :=
  mkGameData (m_map d) (m_coinStates d) (m_players d) id (m_gameOver d)
             (m_winnerId d).

Definition updateGameOver (winnerId : Z) (d : t) : t :=
  mkGameData (m_map d) (m_coinStates d) (m_players d) (m_localPlayerId d)
             true winnerId.

End GameData.

(** ** GameDisplay.cpp: the functions the network thread calls

  Rendering is left out; a call to the sound manager is recorded in
  [played], oldest first. *)

Module GameDisplay.

Import MachineInt Protocol.

Inductive Sound := CoinPickup | Zapper | StopJetpackLoop.

Record State := mkDisplay {
  m_gameData : GameData.t;
  m_jetpackActive : bool;
  played : list Sound
}.

Definition initial : State := mkDisplay GameData.initial false [].

Definition with_gameData (d : GameData.t) (st : State) : State :=
  mkDisplay d (m_jetpackActive st) (played st).

Definition play (sound : Sound) (st : State) : State :=
  mkDisplay (m_gameData st) (m_jetpackActive st) (played st ++ [sound]).

Definition updateMap (map : GameData.ClientMap) (st : State) : State :=
  with_gameData (GameData.updateMap map (m_gameData st)) st.

Definition updateGameState (players : list Player) (st : State) : State :=
  with_gameData (GameData.updatePlayers players (m_gameData st)) st.

(** [handleCoinCollected]: the score is raised on [players], a copy that
    [getPlayers] returned and that is dropped at the end. *)
Definition handleCoinCollected (playerId x y coinState : Z) (st : State)
  : State :=
  let st :=
    with_gameData (GameData.updateCoinStates x y coinState (m_gameData st)) st in
  let players := GameData.m_players (m_gameData st) in
  let localPlayerId := GameData.m_localPlayerId (m_gameData st) in
  match find (fun p => m_id p =? playerId) players with
  | Some _ => if playerId =? localPlayerId then play CoinPickup st else st
  | None => st
  end.

Definition handlePlayerDeath (playerId : Z) (st : State) : State :=
  let st :=
    with_gameData (GameData.updatePlayerState playerId DEAD (m_gameData st)) st in
  let localPlayerId := GameData.m_localPlayerId (m_gameData st) in
  if playerId =? localPlayerId then play Zapper st else st.

Definition handleGameOver (winnerId : Z) (st : State) : State :=
  play StopJetpackLoop
       (with_gameData (GameData.updateGameOver winnerId (m_gameData st)) st).

Definition setLocalPlayerId (id : Z) (st : State) : State :=
  with_gameData (GameData.setLocalPlayerId id (m_gameData st)) st.

End GameDisplay.

(** ** NetworkClient.cpp: the packet handlers *)

Module NetworkClient.

Import MachineInt Protocol Client.

(** The members the handlers touch.  [m_display] is empty until [start]
    creates the display. *)
Record State := mkClient {
  m_localPlayerId : Z;
  m_map : GameData.ClientMap;
  m_players : list Player;
  m_running : bool;
  m_display : option GameDisplay.State
}.

Definition initial : State := mkClient (-1) GameData.empty_map [] true None.

Definition on_display (f : GameDisplay.State -> GameDisplay.State) (c : State)
  : State :=
  mkClient (m_localPlayerId c) (m_map c) (m_players c) (m_running c)
           (option_map f (m_display c)).

(** The packet [connectToServer] sends. *)
Definition connectRequestPacket : list byte :=
  serialize (addByte 0 (newPacket CONNECT_REQUEST)).

(** The packet [sendPlayerInput] sends. *)
Definition playerInputPacket (jetpackActive : bool) : list byte :=
  serialize (addByte (if jetpackActive then 1 else 0) (newPacket PLAYER_INPUT)).

Definition handleConnectResponse (data : list byte) (length : Z) (c : State)
  : State :=
  if length <? 3 then c
  else mkClient (byte_at data 1) (m_map c) (m_players c) true (m_display c).

(** [data[i]] for an [int] index (outside the buffer the read is
    undefined in C++; the model reads 0 there). *)
Definition byte_at_int (data : list byte) (i : Z) : Z :=
  if i <? 0 then 0 else byte_at data (Z.to_nat i).

Definition handleMapData (data : list byte) (length : Z) (c : State) : State :=
  if length <? 5 then c
  else
    let width := le16 data 1 in
    let height := le16 data 3 in
    let area := to_int (width * height) in
    let minRequiredSize := to_size_t (to_int (5 + to_int (area * 2))) in
    if length <? minRequiredSize then c
    else
      let rows := Z.to_nat (to_size_t height) in
      let cols := Z.to_nat (to_size_t width) in
      let cell (offset : Z) (y x : nat) : Z :=
        byte_at_int data
          (to_int (to_int (offset + to_int (Z.of_nat y * width)) + Z.of_nat x)) in
      let tiles :=
        Grid.fill_grid (cell 5) (Z.to_nat height) (Z.to_nat width)
          (Server.resize rows (replicate cols 0) (GameData.c_tiles (m_map c))) in
      let coinStates :=
        Server.resize rows (replicate cols 0) (GameData.c_coinStates (m_map c)) in
      let coinStatesOffset := to_int (5 + area) in
      let coinStates :=
        if to_size_t (to_int (coinStatesOffset + area)) <=? length then
          Grid.fill_grid (cell coinStatesOffset) (Z.to_nat height)
                         (Z.to_nat width) coinStates
        else coinStates in
      let map := GameData.mkClientMap width height tiles coinStates in
      on_display (GameDisplay.updateMap map)
                 (mkClient (m_localPlayerId c) map (m_players c) (m_running c)
                           (m_display c)).

(** The players [handleGameStart] creates: ids [1 .. playerCount], all
    playing. *)
Definition startingPlayers (playerCount : Z) : list Player :=
  map (fun i => setState PLAYING (newPlayer (-1) (Z.of_nat i)))
      (seq 1 (Z.to_nat playerCount)).

Definition handleGameStart (data : list byte) (length : Z) (c : State) : State :=
  if length <? 3 then c
  else
    let playerCount := byte_at data 1 in
    let players := startingPlayers playerCount in
    on_display (GameDisplay.updateGameState players)
               (mkClient (m_localPlayerId c) (m_map c) players (m_running c)
                         (m_display c)).

(** [handleGameStateUpdate] on the whole client: the player list is
    updated as [Client.handleGameStateUpdate] describes and, when a
    packet was long enough, handed to the display. *)
Definition handleGameStateUpdate (data : list byte) (length : Z) (c : State)
  : State :=
  if length <? 2 then c
  else if length <? to_size_t (2 + byte_at data 1 * 10) then c
  else
    let players := Client.handleGameStateUpdate data length (m_players c) in
    on_display (GameDisplay.updateGameState players)
               (mkClient (m_localPlayerId c) (m_map c) players (m_running c)
                         (m_display c)).

Definition handleCoinCollected (data : list byte) (length : Z) (c : State)
  : State :=
  if length <? 6 then c
  else
    let playerId := byte_at data 1 in
    let x := byte_at data 2 in
    let y := byte_at data 3 in
    let coinState := byte_at data 5 in
    on_display (GameDisplay.handleCoinCollected playerId x y coinState) c.

Definition handlePlayerDeath (data : list byte) (length : Z) (c : State)
  : State :=
  if length <? 2 then c
  else on_display (GameDisplay.handlePlayerDeath (byte_at data 1)) c.

Definition handleGameOver (data : list byte) (length : Z) (c : State) : State :=
  if length <? 3 then c
  else
    let hasWinner := negb (byte_at data 1 =? 0) in
    let winnerId := if hasWinner then byte_at data 2 else -1 in
    on_display (GameDisplay.handleGameOver winnerId) c.

Definition processPacket (data : list byte) (length : Z) (c : State) : State :=
  if length <? 1 then c
  else
    match PacketType_of_byte (nth 0 data x00) with
    | Some CONNECT_RESPONSE => handleConnectResponse data length c
    | Some MAP_DATA => handleMapData data length c
    | Some GAME_START => handleGameStart data length c
    | Some GAME_STATE_UPDATE => handleGameStateUpdate data length c
    | Some COIN_COLLECTED => handleCoinCollected data length c
    | Some PLAYER_DEATH => handlePlayerDeath data length c
    | Some GAME_OVER_PACKET => handleGameOver data length c
    | _ => c
    end.

(** One successful [recv] of [networkLoop] on the whole client: the
    packets cut off the buffer are processed in order; the result is
    the client and the bytes retained. *)
Definition receive (accumulatedBuffer received : list byte) (c : State)
  : State * list byte :=
  let '(packets, retained) := onReceive accumulatedBuffer received in
  (fold_left (fun c p => processPacket p (Z.of_nat (length p)) c) packets c,
   retained).

(** [networkLoop] over the results of successive [recv] calls that did
    not fail, each the bytes read ([nil] when the call read nothing).
    The loop runs while [m_running] holds; the result is the client and
    the bytes retained. *)
Fixpoint networkLoop (reads : list (list byte))
         (accumulatedBuffer : list byte) (c : State) : State * list byte :=
  match reads with
  | [] => (c, accumulatedBuffer)
  | received :: rest =>
      if m_running c then
        match received with
        | [] => networkLoop rest accumulatedBuffer c
        | _ =>
            let '(c', retained) := receive accumulatedBuffer received c in
            networkLoop rest retained c'
        end
      else (c, accumulatedBuffer)
  end.

End NetworkClient.


(** ** Proof steps used throughout *)

(** Case analysis on a float: both zeros, both infinities, NaN, and the
    finite numbers of either sign with mantissa [m] and exponent [e]. *)
Tactic Notation "float_cases" constr(x) "as" ident(m) ident(e) :=
  destruct x as [[]|[]| |[] m e].

(** Splits the condition of a boolean conjunction found in [H]. *)
Ltac split_andb H :=
  repeat match type of H with
         | _ && _ = true =>
             let H' := fresh H in apply andb_prop in H as [H H']
         end.

(** ** Reference notions and sample data used by the statements *)

Module Samples.

Import MachineInt Protocol.

(** A player standing at [(x, y)], newly constructed otherwise. *)
Definition playerAt (sock id : Z) (x y : F32.float) : Player :=
  setPosition x y (newPlayer sock id).

(** A map of one row and two columns, as loaded from the line "_c". *)
Definition one_row_map : GameMap :=
  mkGameMap 2 1 [[EMPTY; COIN]] [[AVAILABLE; AVAILABLE]].

(** A player one unit above the ceiling: y = -1. *)
Definition player_above : Player :=
  playerAt 4 1 F32.one (S754_finite true 8388608 (-23)).

(** Player 1, playing, at x = 1.05 on the top row: the cell (1, 0). *)
Definition player_on_coin : Player :=
  setState PLAYING
    (playerAt 4 1 (S754_finite false 8808038 (-23)) F32.zero).

(** The first five bytes of a MAP_DATA packet of width 5 and height 3. *)
Definition map_header_5x3 : list byte := [x03; x05; x00; x03; x00].

End Samples.

(** The coin rules in the words of the specification. *)

Module CoinSpec.

Import MachineInt Protocol.

(** Player 1 is blocked by CollectedByP1 and CollectedByBoth, player 2
    by CollectedByP2 and CollectedByBoth. *)
Definition blocked (playerId : Z) (c : CoinState) : bool :=
  match c with
  | AVAILABLE => false
  | COLLECTED_P1 => playerId =? 1
  | COLLECTED_P2 => playerId =? 2
  | COLLECTED_BOTH => (playerId =? 1) || (playerId =? 2)
  end.

(** Available moves to CollectedBy<player>; a coin the other player
    holds moves to CollectedByBoth. *)
Definition afterCollection (playerId : Z) (c : CoinState) : CoinState :=
  match c with
  | AVAILABLE => if playerId =? 1 then COLLECTED_P1 else COLLECTED_P2
  | _ => COLLECTED_BOTH
  end.

(** The coin state the code leaves on the cell at a collection. *)
Definition new_coin (playerId : Z) (c : CoinState) : CoinState :=
  if CoinState_eqb c AVAILABLE then
    (if playerId =? 1 then COLLECTED_P1 else COLLECTED_P2)
  else if CoinState_eqb c COLLECTED_P1 && (playerId =? 2) then COLLECTED_BOTH
  else if CoinState_eqb c COLLECTED_P2 && (playerId =? 1) then COLLECTED_BOTH
  else c.

(** One run of the body of [checkCollisions]: the table around the
    player and the player itself, in whatever state the tick left them. *)
Record Visit := mkVisit {
  v_before : list (Z * Player);
  v_after : list (Z * Player);
  v_sock : Z;
  v_player : Player
}.

Definition visit (v : Visit) (map : GameMap) : Player * GameMap :=
  fst (Server.collide (v_before v) (v_after v) (v_sock v) (v_player v) map).

(** How often, over the visits of a match, the score of player
    [playerId] changes on the cell [(x, y)]. *)
Fixpoint gains (playerId x y : Z) (map : GameMap) (visits : list Visit) : nat :=
  match visits with
  | [] => O
  | v :: rest =>
      let '(player', map') := visit v map in
      let gained : bool :=
        (m_id (v_player v) =? playerId)
        && (fst (Server.cell_of (v_player v)) =? x)
        && (snd (Server.cell_of (v_player v)) =? y)
        && negb (m_score player' =? m_score (v_player v)) in
      Nat.add (if gained then 1%nat else 0%nat) (gains playerId x y map' rest)
  end.

(** The coin of the cell is one the player is blocked on. *)
Definition spent (playerId x y : Z) (m : GameMap) : Prop :=
  exists c, Server.grid_get (Z.to_nat y) (Z.to_nat x) (coinStates m) = Some c
            /\ blocked playerId c = true.

End CoinSpec.

(** Winner selection in the words of the specification. *)

Module WinnerSpec.

Import Protocol.

(** "On equal scores the player encountered later wins": the scan keeps
    the later of two players with the same score. *)
Fixpoint last_max (best : Player) (rest : list Player) : Player :=
  match rest with
  | [] => best
  | p :: rest' =>
      if m_score best <=? m_score p then last_max p rest'
      else last_max best rest'
  end.

(** Two finished players with the same score, in the order the table
    is iterated: player 2, who connected second on socket 5, comes
    before player 1. *)
Definition tied_table : list (Z * Player) :=
  [(5, setScore 1 (setState FINISHED (newPlayer 5 2)));
   (4, setScore 1 (setState FINISHED (newPlayer 4 1)))].

(** A dead player followed by a playing one with a lower score. *)
Definition death_table : list (Z * Player) :=
  [(5, setScore 3 (setState DEAD (newPlayer 5 2)));
   (4, setScore 1 (setState PLAYING (newPlayer 4 1)))].

End WinnerSpec.

(** Sample sessions. *)

Module Sessions.

Import Protocol Server.

(** A map file of one line: an empty tile and a coin. *)
Definition coin_file : MapFile := Some ["_c"%string].

(** The server right after construction, listening on descriptor 3. *)
Definition fresh : State :=
  mkState (mkGameMap 2 1 [[EMPTY; COIN]] [[AVAILABLE; AVAILABLE]])
          3 [3] [] WAITING_FOR_PLAYERS [] [].

(** Two clients connect, the match runs for [n] ticks. *)
Definition match_of (n : nat) : list Event :=
  [Accept 4; Tick; Accept 5] ++ repeat Tick n.

(** Three clients connect in a row. *)
Definition three_clients : list Event :=
  [Accept 4; Tick; Accept 5; Tick; Accept 6; Tick].

(** Two clients connect, the match starts, the first client hangs up. *)
Definition early_leave : list Event :=
  [Accept 4; Tick; Accept 5; Tick; Hangup 4; Tick].

End Sessions.

(** What a GAME_STATE_UPDATE packet carries for a player. *)

Module WireSpec.

Import MachineInt Protocol.

(** The 16-bit fixed-point value of a coordinate: the coordinate times
    100, converted to [int16_t]. *)
Definition fixed (c : F32.float) : Z :=
  F32.to_int16 (F32.mul c (F32.of_int 100)).

(** The coordinate the client computes from a fixed-point value. *)
Definition unfixed (n : Z) : F32.float :=
  F32.div (F32.of_int n) F32.hundred.

(** The ten bytes [broadcastGameState] appends for one table entry. *)
Definition record_bytes (sp : Z * Player) : list byte :=
  data (Broadcaster.addPlayerRecord (newPacket GAME_STATE_UPDATE) sp).

(** The update the client is expected to read for a player. *)
Definition wire_view (p : Player) : Client.PlayerUpdate :=
  Client.mkPlayerUpdate
    (m_id p) (m_state p)
    (unfixed (fixed (pos_x (m_position p))))
    (unfixed (fixed (pos_y (m_position p))))
    (m_score p) (m_isJetpacking p).

(** The player a client that knew nobody holds after the update. *)
Definition received (p : Player) : Player :=
  mkPlayer (-1) (m_id p)
           (mkPosition (unfixed (fixed (pos_x (m_position p))))
                       (unfixed (fixed (pos_y (m_position p)))))
           F32.zero (m_isJetpacking p) (m_score p) (m_state p).

Definition named_state (st : PlayerState) : Prop :=
  match st with UNNAMED_STATE _ => False | _ => True end.

(** Id, state and score fit their wire fields. *)
Definition in_range (p : Player) : Prop :=
  0 <= m_id p <= 255 /\ named_state (m_state p) /\ 0 <= m_score p <= 65535.

(** 17.97 as a binary32 number, and a player standing there. *)
Definition x_17_97 : F32.float := S754_finite false 9421455 (-19).

Definition table_17_97 : list (Z * Player) :=
  [(4, setState PLAYING (Samples.playerAt 4 1 x_17_97 F32.zero))].

(** The claimed tolerance on a coordinate: one hundredth. *)
Definition tolerance : Q := 1 # 100.

(** [q] reproduces [p]: same id, state and jetpack flag, coordinates
    within the tolerance. *)
Definition reproduces (p q : Player) : Prop :=
  m_id q = m_id p
  /\ m_state q = m_state p
  /\ m_isJetpacking q = m_isJetpacking p
  /\ F32.within tolerance (pos_x (m_position q)) (pos_x (m_position p)) = true
  /\ F32.within tolerance (pos_y (m_position q)) (pos_y (m_position p)) = true.

(** The tolerance the fixed-point encoding does meet. *)
Definition carried_tolerance : Q := 101 # 10000.

(** The coordinate computed from [n] is within [tol] of [n / 100]. *)
Definition unfixed_close (tol : Q) (n : Z) : bool :=
  Qle_bool (Qabs (F32.to_Q (unfixed n) - (n # 100))) tol.

(** [test] holds on the [2 ^ depth] integers from [start] on. *)
Fixpoint all_range (test : Z -> bool) (depth : nat) (start : Z) : bool :=
  match depth with
  | O => test start
  | S d => all_range test d start && all_range test d (start + 2 ^ Z.of_nat d)
  end.

(** The round trip as the specification words it, for a client that
    knew no player before. *)
Definition round_trip_claim (players : list (Z * Player)) : Prop :=
  Forall (fun sp => in_range (snd sp)) players ->
  forall sp : Z * Player,
    In sp players ->
    exists q : Player,
      In q (Client.handleGameStateUpdate
              (Broadcaster.gameStatePacket players)
              (Z.of_nat (length (Broadcaster.gameStatePacket players))) [])
      /\ reproduces (snd sp) q.

End WireSpec.

(** ** Reference notions for the receive loop *)

Module Frames.

Import MachineInt Protocol Client.

(** The size [getPacketSize] reports for a buffer, all of it readable. *)
Definition size_of (buffer : list byte) : Z :=
  getPacketSize buffer (Z.of_nat (length buffer)).

(** The packets the inner loop of [networkLoop] cuts off the front of a
    buffer, and what it leaves. *)
Fixpoint cut (fuel : nat) (buffer : list byte) : list (list byte) * list byte :=
  match fuel with
  | O => ([], buffer)
  | S fuel' =>
      match buffer with
      | [] => ([], [])
      | _ =>
          let n := size_of buffer in
          if n =? 0 then ([], buffer)
          else
            let '(pkts, rest) := cut fuel' (drop (Z.to_nat n) buffer) in
            (take (Z.to_nat n) buffer :: pkts, rest)
      end
  end.

(** A packet the client frames whole, whatever follows it. *)
Definition framed (p : list byte) : Prop :=
  p <> [] /\ forall more, size_of (p ++ more) = Z.of_nat (length p).

End Frames.

(** ** Reference notions for grids, maps and packets *)

Module GridSpec.

(** The grid of [h] rows and [w] columns whose cell [(y, x)] is [f y x]. *)
Definition tabulate {A : Type} (f : nat -> nat -> A) (h w : nat)
  : list (list A) :=
  map (fun y => map (fun x => f y x) (seq 0 w)) (seq 0 h).

(** [h] rows of [w] cells each. *)
Definition rectangular {A : Type} (h w : nat) (grid : list (list A)) : Prop :=
  length grid = h /\ Forall (fun row => length row = w) grid.

End GridSpec.

Module Layout.

Import MachineInt Protocol.

(** The two bytes [addShort] writes. *)
Definition short_lo (v : Z) : byte := byte_of_Z (Z.land (to_uint16 v) 255).
Definition short_hi (v : Z) : byte :=
  byte_of_Z (Z.land (Z.shiftr (to_uint16 v) 8) 255).

(** A server map whose size fits the MAP_DATA header and the [int]
    arithmetic of the client, with both grids of that size. *)
Definition well_formed (m : GameMap) : Prop :=
  0 <= width m <= 65535 /\ 0 <= height m <= 65535
  /\ 5 + 2 * (width m * height m) <= INT_MAX
  /\ GridSpec.rectangular (Z.to_nat (height m)) (Z.to_nat (width m)) (tiles m)
  /\ GridSpec.rectangular (Z.to_nat (height m)) (Z.to_nat (width m))
                          (coinStates m).

(** A server map as the client is to hold it. *)
Definition raw_view (m : GameMap) : GameData.ClientMap :=
  GameData.mkClientMap (width m) (height m)
                       (map (map TileType_value) (tiles m))
                       (map (map CoinState_value) (coinStates m)).

End Layout.

Module MapFileSpec.

Import MachineInt Protocol.

(** The lines [loadMap] keeps: the non-empty ones. *)
Definition lines_of (content : list string) : list string :=
  filter (fun line => negb (String.length line =? 0)%nat) content.

(** All the lines have the length of the first, within [int]. *)
Definition uniform (lines : list string) : Prop :=
  match lines with
  | [] => False
  | first :: _ =>
      Z.of_nat (String.length first) <= INT_MAX
      /\ Z.of_nat (length lines) <= INT_MAX
      /\ Forall (fun line => String.length line = String.length first) lines
  end.

(** The tiles a file describes. *)
Definition tiles_of (lines : list string) : list (list TileType) :=
  GridSpec.tabulate
    (fun y x => Server.tile_of_char (Server.char_at lines y x))
    (length lines)
    (match lines with [] => O | first :: _ => String.length first end).

End MapFileSpec.

Module ServerStream.

Import MachineInt Protocol.

(** The packets the server builds, with the sizes its wire fields can
    carry. *)
Inductive server_packet : list byte -> Prop :=
| sp_connect (s : Server.State) (playerId : Z) :
    server_packet (Server.connectResponsePacket s playerId)
| sp_map (m : GameMap) :
    Layout.well_formed m -> server_packet (Server.mapDataPacket m)
| sp_start (players : list (Z * Player)) :
    server_packet (Broadcaster.gameStartPacket players)
| sp_state (players : list (Z * Player)) :
    Z.of_nat (length players) <= 255 ->
    server_packet (Broadcaster.gameStatePacket players)
| sp_coin (players : list (Z * Player)) (playerId x y coinState : Z) :
    server_packet (Broadcaster.coinCollectedPacket players playerId x y coinState)
| sp_death (playerId : Z) :
    server_packet (Broadcaster.playerDeathPacket playerId)
| sp_over (winnerId : Z) :
    server_packet (Broadcaster.gameOverPacket winnerId).

End ServerStream.

Module Wire.

Import MachineInt Protocol.

(** The bytes a list of sends puts on the connection of [sock], in
    order. *)
Definition bytes_to (sock : Z) (sends : list Broadcaster.Send) : list byte :=
  concat (map snd (filter (fun send => fst send =? sock) sends)).

(** What [acceptNewClient] sends, the log before the call left out. *)
Definition sent_by_accept (clientSocket : Z) (s : Server.State)
  : list Broadcaster.Send :=
  drop (length (Server.sent s))
       (Server.sent (Server.acceptNewClient clientSocket s)).

End Wire.

Module StoreSpec.

Import MachineInt Protocol.

(** The store of a display agrees with a server map: same size, same
    tiles, and [m_coinStates] holds the coin states. *)
Definition in_step (m : GameMap) (d : GameData.t) : Prop :=
  GameData.c_width (GameData.m_map d) = width m
  /\ GameData.c_height (GameData.m_map d) = height m
  /\ GameData.c_tiles (GameData.m_map d) = map (map TileType_value) (tiles m)
  /\ GameData.m_coinStates d = map (map CoinState_value) (coinStates m).

End StoreSpec.

Module TableSpec.

Import MachineInt Protocol.

(** The descriptors polled are the listener followed by the sockets of
    the table, each once, in some order. *)
Definition consistent (s : Server.State) : Prop :=
  exists clients : list Z,
    Server.m_pollfds s = Server.m_serverSocket s :: clients
    /\ Permutation clients (map fst (Server.m_players s))
    /\ NoDup (Server.m_pollfds s).

(** What the operating system guarantees of an event: [accept] returns
    a descriptor that is not open, and data arrives on a client
    descriptor, not on the listener. *)
Definition plausible (s : Server.State) (e : Server.Event) : Prop :=
  match e with
  | Server.Accept clientSocket =>
      clientSocket < 0 \/ clientSocket ∉ Server.m_pollfds s
  | Server.Data clientSocket _ => clientSocket <> Server.m_serverSocket s
  | _ => True
  end.

(** Every event of a session is plausible in the state it meets. *)
Fixpoint all_plausible (file : Server.MapFile) (s : Server.State)
         (events : list Server.Event) : Prop :=
  match events with
  | [] => True
  | e :: rest =>
      plausible s e
      /\ match Server.step file s e with
         | Some s' => all_plausible file s' rest
         | None => True
         end
  end.

(** Two players differ at most in the jetpack flag. *)
Definition same_but_jetpack (p q : Player) : Prop :=
  q = setJetpacking (m_isJetpacking q) p.

End TableSpec.

Module TickSpec.

Import MachineInt Protocol.

(** What [checkCollisions] may change of a player: the state, to DEAD,
    and the score, by one. *)
Definition collided (p p' : Player) : Prop :=
  m_clientSocket p' = m_clientSocket p
  /\ m_id p' = m_id p
  /\ m_position p' = m_position p
  /\ m_velocityY p' = m_velocityY p
  /\ m_isJetpacking p' = m_isJetpacking p
  /\ (m_state p' = m_state p \/ m_state p' = DEAD)
  /\ (m_score p' = m_score p \/ m_score p' = to_int (m_score p + 1))
  /\ (PlayerState_eqb (m_state p) PLAYING = false -> p' = p).

(** A coin state that holds at least the collectors of another. *)
Definition coin_le (c c' : CoinState) : Prop :=
  c' = c \/ c = AVAILABLE \/ c' = COLLECTED_BOTH.

(** A map that a match has taken from [m] to [m']: same size, coins
    only gain collectors, tiles only change from COIN to EMPTY. *)
Definition advances (m m' : GameMap) : Prop :=
  width m' = width m /\ height m' = height m
  /\ (forall y x c,
         Server.grid_get y x (coinStates m) = Some c ->
         exists c', Server.grid_get y x (coinStates m') = Some c'
                    /\ coin_le c c')
  /\ (forall y x t,
         Server.grid_get y x (tiles m) = Some t ->
         Server.grid_get y x (tiles m') = Some t
         \/ (t = COIN /\ Server.grid_get y x (tiles m') = Some EMPTY)).

End TickSpec.

(** ** Sample clients and maps *)

Module ClientSamples.

Import MachineInt Protocol.

(** A map of one row: an empty tile and an electric square. *)
Definition zap_map : GameMap :=
  mkGameMap 2 1 [[EMPTY; ELECTRICSQUARE]] [[AVAILABLE; AVAILABLE]].

(** The display of player 1 after the map [Samples.one_row_map] came in. *)
Definition watching : GameDisplay.State :=
  GameDisplay.mkDisplay
    (GameData.mkGameData (Layout.raw_view Samples.one_row_map)
                         [[0; 0]] [] 1 false (-1))
    false [].

(** The client of player 1 with that display attached. *)
Definition client_watching : NetworkClient.State :=
  NetworkClient.mkClient 1 (Layout.raw_view Samples.one_row_map) [] true
                         (Some watching).

(** A GAME_OVER packet followed by a PLAYER_DEATH packet. *)
Definition two_packets : list (list byte) :=
  [Broadcaster.gameOverPacket 1; Broadcaster.playerDeathPacket 2].

(** The twelve bytes a first client is sent on connecting to
    [Sessions.fresh], read in pieces that cut both packets, one read
    empty. *)
Definition handshake_reads : list (list byte) :=
  [[x02; x01]; [x01; x03; x02; x00; x01]; []; [x00; x00; x01; x00; x00]].

(** Two clients at the table, the match not yet started. *)
Definition two_waiting : Server.State :=
  Server.with_players [(5, newPlayer 5 2); (4, newPlayer 4 1)] Sessions.fresh.

(** A match in which the only player at the table has died. *)
Definition one_dead : Server.State :=
  Server.mkState Samples.one_row_map 3 [3; 4]
                 [(4, setState DEAD Samples.player_on_coin)]
                 IN_PROGRESS [] [].

End ClientSamples.


(** * Properties *)

(** ** binary32 arithmetic *)

Module F32Facts.

Lemma compare_antisym (x y : F32.float) :
  SFcompare y x = option_map CompOpp (SFcompare x y).
Proof.
  float_cases x as mx ex; float_cases y as my ey;
    try reflexivity; cbn [SFcompare option_map];
    rewrite (Z.compare_antisym ex ey);
    destruct (ex ?= ey); cbn [CompOpp]; try reflexivity;
    fold (Pos.compare my mx); fold (Pos.compare mx my);
    rewrite (Pos.compare_antisym mx my); reflexivity.
Qed.

Lemma not_lt_le (x y : F32.float) :
  F32.is_nan x = false -> F32.is_nan y = false ->
  F32.lt x y = false -> F32.le y x = true.
Proof.
  unfold F32.lt, F32.le, SFltb, SFleb. intros Hx Hy.
  rewrite (compare_antisym x y).
  float_cases x as mx ex; float_cases y as my ey;
    try discriminate; cbn [SFcompare option_map CompOpp]; try reflexivity;
    try discriminate;
    destruct (ex ?= ey); cbn [CompOpp]; try reflexivity; try discriminate;
    destruct (Pos.compare_cont Eq mx my); cbn [CompOpp];
    try reflexivity; discriminate.
Qed.

Lemma digits2_pos_bounds (p : positive) :
  2 ^ (Zpos (digits2_pos p) - 1) <= Zpos p < 2 ^ Zpos (digits2_pos p).
Proof.
  induction p as [p IH | p IH |]; simpl digits2_pos; [| |simpl; lia];
    rewrite Pos2Z.inj_succ;
    replace (Z.succ (Zpos (digits2_pos p)) - 1) with (Zpos (digits2_pos p)) by lia;
    rewrite Z.pow_succ_r by lia;
    assert (E : 2 ^ Zpos (digits2_pos p) = 2 * 2 ^ (Zpos (digits2_pos p) - 1))
      by (rewrite <- Z.pow_succ_r by lia; f_equal; lia);
    lia.
Qed.

(** One step of the right shift halves the mantissa. *)
Lemma shr_1_m (r : shr_record) :
  0 <= shr_m r -> shr_m (shr_1 r) = shr_m r / 2.
Proof.
  destruct r as [m b s]; cbn [shr_m]. intros Hm.
  destruct m as [|[p|p|]|p]; cbn [shr_1 shr_m];
    [reflexivity | | | reflexivity | lia].
  - apply Z.div_unique with 1; lia.
  - apply Z.div_unique with 0; lia.
Qed.

Lemma iter_pos_shr_m (k : positive) : forall r : shr_record,
  0 <= shr_m r -> shr_m (SpecFloat.iter_pos shr_1 k r) = shr_m r / 2 ^ Zpos k.
Proof.
  induction k as [k IH | k IH |]; intros r Hr.
  - change (SpecFloat.iter_pos shr_1 k~1 r)
      with (SpecFloat.iter_pos shr_1 k (SpecFloat.iter_pos shr_1 k (shr_1 r))).
    assert (H1 : 0 <= shr_m (shr_1 r))
      by (rewrite shr_1_m by assumption; apply Z.div_pos; lia).
    assert (H2 : 0 <= shr_m (SpecFloat.iter_pos shr_1 k (shr_1 r))).
    { rewrite IH by assumption.
      apply Z.div_pos; [assumption | apply Z.pow_pos_nonneg; lia]. }
    rewrite IH, IH, shr_1_m by assumption.
    rewrite !Z.div_div by (try apply Z.pow_pos_nonneg; lia).
    f_equal.
    assert (E : 2 ^ Zpos k~1 = 2 * (2 ^ Zpos k * 2 ^ Zpos k)).
    { rewrite <- Z.pow_add_r, <- Z.pow_succ_r by lia. f_equal. lia. }
    rewrite E. lia.
  - change (SpecFloat.iter_pos shr_1 k~0 r)
      with (SpecFloat.iter_pos shr_1 k (SpecFloat.iter_pos shr_1 k r)).
    assert (H2 : 0 <= shr_m (SpecFloat.iter_pos shr_1 k r)).
    { rewrite IH by assumption.
      apply Z.div_pos; [assumption | apply Z.pow_pos_nonneg; lia]. }
    rewrite IH, IH by assumption.
    rewrite !Z.div_div by (try apply Z.pow_pos_nonneg; lia).
    f_equal.
    assert (E : 2 ^ Zpos k~0 = 2 ^ Zpos k * 2 ^ Zpos k).
    { rewrite <- Z.pow_add_r by lia. f_equal. lia. }
    rewrite E. lia.
  - change (SpecFloat.iter_pos shr_1 1 r) with (shr_1 r).
    rewrite shr_1_m by assumption. reflexivity.
Qed.

Lemma shr_record_of_loc_m (m : Z) (l : location) :
  shr_m (shr_record_of_loc m l) = m.
Proof. destruct l as [|[]]; reflexivity. Qed.

(** The alignment step of rounding divides the mantissa by a power of
    two and raises the exponent by as much. *)
Lemma shr_fexp_spec (m e : Z) (l : location) (r : shr_record) (e' : Z) :
  0 <= m ->
  shr_fexp 24 128 m e l = (r, e') ->
  let n := Z.max 0 (fexp 24 128 (Zdigits2 m + e) - e) in
  shr_m r = m / 2 ^ n /\ e' = e + n.
Proof.
  intros Hm. unfold shr_fexp, shr.
  destruct (fexp 24 128 (Zdigits2 m + e) - e) as [|k|k] eqn:Hn;
    intros H; inversion H; subst; simpl.
  - rewrite shr_record_of_loc_m, Z.div_1_r. lia.
  - rewrite iter_pos_shr_m by (rewrite shr_record_of_loc_m; assumption).
    rewrite shr_record_of_loc_m. split; [reflexivity | lia].
  - rewrite shr_record_of_loc_m, Z.div_1_r. lia.
Qed.

Lemma round_nearest_even_bounds (m : Z) (l : location) :
  m <= round_nearest_even m l <= m + 1.
Proof. destruct l as [|[]]; simpl; try lia. destruct (Z.even m); lia. Qed.

(** Rounding a non-negative mantissa never yields a negative float. *)
Lemma binary_round_aux_nonneg (mx ex : Z) (lx : location) :
  0 <= mx -> F32.nonneg (binary_round_aux 24 128 false mx ex lx) = true.
Proof.
  intros Hm. unfold binary_round_aux.
  destruct (shr_fexp 24 128 mx ex lx) as [r1 e1] eqn:H1.
  apply shr_fexp_spec in H1; [|assumption]. destruct H1 as [H1 _].
  pose proof (round_nearest_even_bounds (shr_m r1) (loc_of_shr_record r1)) as Hr.
  assert (0 <= shr_m r1)
    by (rewrite H1; apply Z.div_pos; [assumption | apply Z.pow_pos_nonneg; lia]).
  destruct (shr_fexp 24 128 _ e1 loc_Exact) as [r2 e2] eqn:H2.
  apply shr_fexp_spec in H2; [|lia]. destruct H2 as [H2 _].
  assert (0 <= shr_m r2)
    by (rewrite H2; apply Z.div_pos; [lia | apply Z.pow_pos_nonneg; lia]).
  destruct (shr_m r2) as [|m|m]; [reflexivity | | lia].
  destruct (e2 <=? 128 - 24); reflexivity.
Qed.

Lemma pow2_lt_mono (a b : Z) : 0 <= a -> 2 ^ a < 2 ^ b -> a < b.
Proof.
  intros Ha H. destruct (Z_lt_le_dec a b) as [|Hle]; [assumption|].
  assert (0 <= b \/ b < 0) as [Hb|Hb] by lia.
  - pose proof (Z.pow_le_mono_r 2 b a ltac:(lia) Hle). lia.
  - rewrite (Z.pow_neg_r 2 b) in H by assumption.
    pose proof (Z.pow_pos_nonneg 2 a ltac:(lia) Ha). lia.
Qed.

Lemma fexp_large (x : Z) : -149 <= x - 24 -> fexp 24 128 x = x - 24.
Proof. intros H. unfold fexp, emin. lia. Qed.

(** Rounding a mantissa of at least 24 bits keeps 24 significant bits:
    the result has a mantissa of at least [2^23] and an exponent that is
    not below the one given. *)
Lemma binary_round_aux_large (mz : positive) (ez : Z) :
  24 <= Zpos (digits2_pos mz) ->
  -149 <= Zpos (digits2_pos mz) + ez - 24 ->
  match binary_round_aux 24 128 false (Zpos mz) ez loc_Exact with
  | S754_finite false m e => 2 ^ 23 <= Zpos m /\ ez <= e
  | S754_infinity false => True
  | _ => False
  end.
Proof.
  intros HD Hmin.
  pose proof (digits2_pos_bounds mz) as Hmz.
  set (D := Zpos (digits2_pos mz)) in *.
  unfold binary_round_aux.
  destruct (shr_fexp 24 128 (Zpos mz) ez loc_Exact) as [r1 e1] eqn:H1.
  apply shr_fexp_spec in H1; [|lia].
  change (Zdigits2 (Zpos mz)) with D in H1.
  rewrite fexp_large in H1 by lia.
  replace (Z.max 0 (D + ez - 24 - ez)) with (D - 24) in H1 by lia.
  destruct H1 as [Hq He1].
  assert (Hpow : 2 ^ (D - 24) * 2 ^ 23 = 2 ^ (D - 1))
    by (rewrite <- Z.pow_add_r by lia; f_equal; lia).
  assert (Hpow' : 2 ^ (D - 24) * 2 ^ 24 = 2 ^ D)
    by (rewrite <- Z.pow_add_r by lia; f_equal; lia).
  assert (Hpos : 0 < 2 ^ (D - 24)) by (apply Z.pow_pos_nonneg; lia).
  assert (Hq1 : 2 ^ 23 <= shr_m r1).
  { rewrite Hq. apply Z.div_le_lower_bound; lia. }
  assert (Hq2 : shr_m r1 < 2 ^ 24).
  { rewrite Hq. apply Z.div_lt_upper_bound; lia. }
  pose proof (round_nearest_even_bounds (shr_m r1) (loc_of_shr_record r1)) as Hr.
  set (m1 := round_nearest_even (shr_m r1) (loc_of_shr_record r1)) in *.
  destruct (shr_fexp 24 128 m1 e1 loc_Exact) as [r2 e2] eqn:H2.
  apply shr_fexp_spec in H2; [|lia].
  destruct m1 as [|m1p|m1p] eqn:Em1; [lia | | lia].
  change (Zdigits2 (Zpos m1p)) with (Zpos (digits2_pos m1p)) in H2.
  pose proof (digits2_pos_bounds m1p) as Hd1.
  set (d1 := Zpos (digits2_pos m1p)) in *.
  assert (Hd1lo : 23 < d1) by (apply pow2_lt_mono; lia).
  assert (Hd1hi : d1 - 1 < 25).
  { apply pow2_lt_mono; [lia|].
    change (2 ^ 25) with 33554432. change (2 ^ 24) with 16777216 in *. lia. }
  rewrite fexp_large in H2 by lia.
  replace (Z.max 0 (d1 + e1 - 24 - e1)) with (d1 - 24) in H2 by lia.
  destruct H2 as [Hm2 He2].
  assert (Hres : 2 ^ 23 <= shr_m r2 /\ ez <= e2).
  { split; [|lia]. rewrite Hm2.
    assert (d1 = 24 \/ d1 = 25) as [E|E] by lia; rewrite E in *.
    - change (2 ^ (24 - 24)) with 1. rewrite Z.div_1_r. lia.
    - change (2 ^ (25 - 24)) with 2.
      change (2 ^ (25 - 1)) with 16777216 in Hd1.
      change (2 ^ 24) with 16777216 in *. change (2 ^ 23) with 8388608.
      apply Z.div_le_lower_bound; lia. }
  destruct (shr_m r2) as [|m|m].
  - change (2 ^ 23) with 8388608 in Hres. lia.
  - destruct (e2 <=? 128 - 24); [exact Hres | exact I].
  - change (2 ^ 23) with 8388608 in Hres. lia.
Qed.

Lemma shift_pos_value (k p : positive) :
  Zpos (Pos.iter xO p k) = Zpos p * 2 ^ Zpos k.
Proof.
  change (Pos.iter xO p k) with (shift_pos k p).
  rewrite shift_pos_correct, Zpower_pos_nat, Zpower_nat_Z, positive_nat_Z. lia.
Qed.

(** A positive integer converts to a float that is at least 1. *)
Lemma of_int_at_least_one (p : positive) : F32.at_least_one (F32.of_int (Zpos p)).
Proof.
  unfold F32.of_int, binary_normalize, binary_round, F32.prec, F32.emax.
  pose proof (digits2_pos_bounds p) as Hp.
  set (d := Zpos (digits2_pos p)) in *.
  assert (Hd : 1 <= d) by (unfold d; lia).
  rewrite Z.add_0_r, fexp_large by lia.
  unfold shl_align.
  destruct (d - 24 - 0) as [|k|k] eqn:Hk.
  - pose proof (binary_round_aux_large p 0 ltac:(fold d; lia) ltac:(fold d; lia)) as H.
    unfold F32.at_least_one.
    destruct (binary_round_aux 24 128 false (Zpos p) 0 loc_Exact) as [s|s| |s m e];
      try destruct s; try contradiction; [exact I | lia].
  - pose proof (binary_round_aux_large p 0 ltac:(fold d; lia) ltac:(fold d; lia)) as H.
    unfold F32.at_least_one.
    destruct (binary_round_aux 24 128 false (Zpos p) 0 loc_Exact) as [s|s| |s m e];
      try destruct s; try contradiction; [exact I | lia].
  - pose proof (shift_pos_value k p) as Hv.
    pose proof (digits2_pos_bounds (Pos.iter xO p k)) as Hb.
    set (mz := Pos.iter xO p k) in *.
    assert (Hk' : Zpos k = 24 - d) by lia.
    assert (Hlow : 2 ^ 23 <= Zpos mz).
    { rewrite Hv, Hk'.
      replace 23 with ((d - 1) + (24 - d)) by lia.
      rewrite Z.pow_add_r by lia.
      apply Z.mul_le_mono_nonneg_r; [apply Z.pow_nonneg; lia | lia]. }
    assert (Hhigh : Zpos mz < 2 ^ 24).
    { rewrite Hv, Hk'.
      replace 24 with (d + (24 - d)) at 2 by lia.
      rewrite Z.pow_add_r by lia.
      apply Z.mul_lt_mono_pos_r; [apply Z.pow_pos_nonneg; lia | lia]. }
    assert (HD : Zpos (digits2_pos mz) = 24).
    { assert (23 < Zpos (digits2_pos mz)) by (apply pow2_lt_mono; lia).
      assert (Zpos (digits2_pos mz) - 1 < 24) by (apply pow2_lt_mono; lia).
      lia. }
    pose proof (binary_round_aux_large mz (d - 24) ltac:(lia) ltac:(lia)) as H.
    unfold F32.at_least_one.
    destruct (binary_round_aux 24 128 false (Zpos mz) (d - 24) loc_Exact)
      as [s|s| |s m e];
      try destruct s; try contradiction; [exact I | lia].
Qed.

(** [f - 1.0f] is not negative when [f] is at least 1. *)
Lemma sub_one_nonneg (f : F32.float) :
  F32.at_least_one f -> F32.nonneg (F32.sub f F32.one) = true.
Proof.
  destruct f as [s|s| |s m e]; simpl; try contradiction.
  - destruct s; [contradiction | reflexivity].
  - destruct s; [contradiction|]. intros [Hm He].
    unfold F32.sub, F32.one, SFsub, F32.prec, F32.emax.
    rewrite Z.min_r by lia.
    assert (Hfst : 2 ^ 23 <= Zpos (fst (shl_align m e (-23)))).
    { unfold shl_align. destruct (-23 - e) as [|k|k] eqn:Hk; cbn [fst]; try lia.
      rewrite shift_pos_value.
      assert (1 <= 2 ^ Zpos k) by (pose proof (Z.pow_pos_nonneg 2 (Zpos k)); lia).
      nia. }
    change (fst (shl_align 8388608 (-23) (-23))) with 8388608%positive.
    cbn [cond_Zopp].
    change (2 ^ 23) with 8388608 in Hfst.
    destruct (Zpos (fst (shl_align m e (-23))) - 8388608) as [|q|q] eqn:Hq;
      [reflexivity | | lia].
    unfold binary_normalize, binary_round.
    destruct (shl_align q (-23) _) as [mz ez].
    apply binary_round_aux_nonneg. lia.
Qed.

(** Order facts on non-negative floats. *)
Lemma nonneg_not_lt_zero (b : F32.float) :
  F32.nonneg b = true -> F32.lt b F32.zero = false.
Proof. float_cases b as m e; try discriminate; reflexivity. Qed.

Lemma nonneg_ge_refl (b : F32.float) :
  F32.nonneg b = true -> F32.ge b b = true.
Proof.
  float_cases b as m e; try discriminate; try reflexivity.
  intros _. unfold F32.ge, SFleb, SFcompare.
  rewrite Z.compare_refl, Pos.compare_cont_refl. reflexivity.
Qed.

Lemma nonneg_le_zero (b : F32.float) :
  F32.nonneg b = true -> F32.ge F32.zero b = true -> b = F32.zero.
Proof. float_cases b as m e; try discriminate; reflexivity. Qed.

Lemma ge_nonneg_not_lt_zero (b y : F32.float) :
  F32.nonneg b = true -> F32.ge y b = true -> F32.lt y F32.zero = false.
Proof.
  float_cases b as m e; try discriminate;
    float_cases y as my ey; try discriminate; reflexivity.
Qed.

(** ** The rounded product with 100 *)

Lemma shr_fexp_exact (m e : Z) :
  fexp 24 128 (Zdigits2 m + e) - e <= 0 ->
  shr_fexp 24 128 m e loc_Exact = (Build_shr_record m false false, e).
Proof.
  intros H. unfold shr_fexp, shr.
  destruct (fexp 24 128 (Zdigits2 m + e) - e) as [|k|k]; try reflexivity. lia.
Qed.

Lemma digits_le (p : positive) (n : Z) : Zpos p < 2 ^ n -> Zpos (digits2_pos p) <= n.
Proof.
  intros H. pose proof (digits2_pos_bounds p) as [Hlo _].
  assert (Zpos (digits2_pos p) - 1 < n); [|lia].
  apply pow2_lt_mono; lia.
Qed.

(** The shape of a rounded product. *)
Lemma binary_round_aux_shape (s : bool) (M : positive) (E : Z) :
  exists m1 e1 : Z,
    E <= e1
    /\ Zpos M / 2 ^ (e1 - E) <= m1 <= Zpos M / 2 ^ (e1 - E) + 1
    /\ (e1 = E -> m1 = Zpos M)
    /\ (E < e1 -> e1 = -149 \/ 2 ^ 23 <= m1)
    /\ match binary_round_aux 24 128 s (Zpos M) E loc_Exact with
       | S754_zero s' => s' = s /\ m1 = 0
       | S754_finite s' m e => s' = s /\ e1 <= e /\ Zpos m * 2 ^ (e - e1) = m1
       | S754_infinity s' => True
       | S754_nan => False
       end.
Proof.
  pose proof (digits2_pos_bounds M) as HM.
  set (D := Zpos (digits2_pos M)) in *.
  assert (HD : 1 <= D) by (unfold D; lia).
  unfold binary_round_aux.
  destruct (Z_le_gt_dec (fexp 24 128 (D + E) - E) 0) as [Hn|Hn].
  - (* no shift: the result is exact *)
    rewrite (shr_fexp_exact (Zpos M) E) by exact Hn.
    cbn [shr_m loc_of_shr_record round_nearest_even].
    rewrite (shr_fexp_exact (Zpos M) E) by exact Hn.
    cbn [shr_m].
    exists (Zpos M), E. rewrite Z.sub_diag. change (2 ^ 0) with 1. rewrite Z.div_1_r.
    repeat split; try lia.
    destruct (E <=? 128 - 24); [|exact I].
    repeat split; try lia. rewrite Z.sub_diag. change (2 ^ 0) with 1. lia.
  - destruct (shr_fexp 24 128 (Zpos M) E loc_Exact) as [r1 e1] eqn:H1.
    apply shr_fexp_spec in H1; [|lia].
    change (Zdigits2 (Zpos M)) with D in H1.
    replace (Z.max 0 (fexp 24 128 (D + E) - E)) with (fexp 24 128 (D + E) - E) in H1 by lia.
    destruct H1 as [Hq He1].
    set (n1 := fexp 24 128 (D + E) - E) in *.
    assert (Hn1 : D - 24 <= n1) by (unfold n1, fexp, emin; lia).
    assert (He1min : -149 <= e1) by (unfold n1, fexp, emin in *; lia).
    assert (Hp1 : 0 < 2 ^ n1) by (apply Z.pow_pos_nonneg; lia).
    assert (Hq0 : 0 <= shr_m r1) by (rewrite Hq; apply Z.div_pos; lia).
    assert (Hq24 : shr_m r1 < 2 ^ 24).
    { rewrite Hq. apply Z.div_lt_upper_bound; [lia|].
      assert (2 ^ D <= 2 ^ n1 * 2 ^ 24); [|lia].
      rewrite <- Z.pow_add_r by lia. apply Z.pow_le_mono_r; lia. }
    pose proof (round_nearest_even_bounds (shr_m r1) (loc_of_shr_record r1)) as Hr.
    set (m1 := round_nearest_even (shr_m r1) (loc_of_shr_record r1)) in *.
    exists m1, e1.
    replace (e1 - E) with n1 by lia. rewrite <- Hq.
    split; [lia|]. split; [lia|]. split; [lia|].
    split.
    { intros _. unfold n1, fexp, emin in *.
      destruct (Z_le_gt_dec (D + E - 24) (3 - 128 - 24)) as [Hs|Hs]; [left; lia|right].
      assert (En1 : fexp 24 128 (D + E) - E = D - 24) by (unfold fexp, emin; lia).
      fold (fexp 24 128 (D + E)) in Hq. unfold fexp, emin in En1, Hq.
      assert (2 ^ 23 <= shr_m r1); [|lia].
      rewrite Hq. rewrite En1. apply Z.div_le_lower_bound; [apply Z.pow_pos_nonneg; lia|].
      rewrite <- Z.pow_add_r by lia. replace (D - 24 + 23) with (D - 1) by lia. lia. }
    destruct (shr_fexp 24 128 m1 e1 loc_Exact) as [r2 e2] eqn:H2.
    destruct m1 as [|m1p|m1p] eqn:Em1; [| |lia].
    + (* rounds to zero *)
      rewrite shr_fexp_exact in H2 by (cbn [Zdigits2]; unfold fexp, emin; lia).
      inversion H2; subst. cbn [shr_m]. split; reflexivity.
    + assert (Hm1 : Zpos m1p < 2 ^ 24 \/ Zpos m1p = 2 ^ 24) by lia.
      destruct Hm1 as [Hlt|Heq].
      * pose proof (digits_le m1p 24 Hlt) as Hd.
        rewrite shr_fexp_exact in H2
          by (cbn [Zdigits2]; unfold fexp, emin; lia).
        inversion H2; subst r2 e2. cbn [shr_m].
        destruct (e1 <=? 128 - 24); [|exact I].
        repeat split; try lia. rewrite Z.sub_diag. change (2 ^ 0) with 1. lia.
      * change (2 ^ 24) with 16777216 in Heq. inversion Heq; subst m1p.
        apply shr_fexp_spec in H2; [|lia].
        change (Zdigits2 16777216) with 25 in H2.
        replace (Z.max 0 (fexp 24 128 (25 + e1) - e1)) with 1 in H2
          by (unfold fexp, emin; lia).
        destruct H2 as [Hm2 He2]. change (16777216 / 2 ^ 1) with 8388608 in Hm2.
        rewrite Hm2.
        destruct (e2 <=? 128 - 24); [|exact I].
        repeat split; try lia. replace (e2 - e1) with 1 by lia. reflexivity.
Qed.

Local Open Scope Q_scope.

Lemma two_pow_nonneg (k : Z) : (0 <= k)%Z -> (2 # 1) ^ k == inject_Z (2 ^ k).
Proof. intros Hk. rewrite Zpower_Qpower by assumption. reflexivity. Qed.

Lemma two_pow_split (E e1 : Z) :
  (E <= e1)%Z -> (2 # 1) ^ e1 == (2 # 1) ^ E * inject_Z (2 ^ (e1 - E)).
Proof.
  intros H. replace e1 with (E + (e1 - E))%Z at 1 by lia.
  rewrite Qpower_plus by discriminate.
  rewrite (two_pow_nonneg (e1 - E)) by lia. reflexivity.
Qed.

Lemma inject_cond_Zopp (s : bool) (z : Z) :
  inject_Z (cond_Zopp s z) == F32.sign_Q s * inject_Z z.
Proof. destruct s; cbn [cond_Zopp F32.sign_Q]; [rewrite inject_Z_opp|]; ring. Qed.

Lemma to_Q_finite (s : bool) (m : positive) (e : Z) :
  F32.to_Q (S754_finite s m e) == F32.sign_Q s * inject_Z (Zpos m) * (2 # 1) ^ e.
Proof.
  destruct e as [|k|k]; cbn [F32.to_Q].
  - rewrite Z.pow_0_r, Z.mul_1_r, inject_cond_Zopp. cbn [Qpower]. ring.
  - rewrite inject_cond_Zopp, inject_Z_mult, two_pow_nonneg by lia. ring.
  - rewrite Qmake_Qdiv, inject_cond_Zopp.
    change (Zneg k) with (- Zpos k)%Z. rewrite Qpower_opp, two_pow_nonneg by lia.
    rewrite Pos2Z.inj_pow. unfold Qdiv. ring.
Qed.

Lemma Qabs_sign (s : bool) (q : Q) : Qabs (F32.sign_Q s * q) == Qabs q.
Proof.
  rewrite Qabs_Qmult. destruct s; cbn [F32.sign_Q].
  - change (Qabs (- (1))) with 1. ring.
  - change (Qabs 1) with 1. ring.
Qed.

Lemma abs_inject_le (d b : Z) :
  (- b <= d <= b)%Z -> Qabs (inject_Z d) <= inject_Z b.
Proof.
  intros [H1 H2]. apply Qabs_Qle_condition. split.
  - rewrite <- inject_Z_opp. rewrite <- Zle_Qle. exact H1.
  - rewrite <- Zle_Qle. exact H2.
Qed.

(** The product with 100, rounded, is within one unit in the last place of
    the exact product. *)
Lemma mul_hundred_error (x : F32.float) (z : Z) :
  F32.truncate (F32.mul x (F32.of_int 100)) = Some z ->
  Qabs (F32.to_Q (F32.mul x (F32.of_int 100)) - 100 * F32.to_Q x)
  <= Qabs (F32.to_Q (F32.mul x (F32.of_int 100))) * (1 # 8388608) + (1 # 1000000).
Proof.
  change (F32.of_int 100) with (S754_finite false 13107200 (-17)).
  destruct x as [s|s| |s mx ex]; [|discriminate|discriminate|].
  - intros _. unfold F32.mul, SFmul. cbn [F32.to_Q].
    assert (E0 : 0 - 100 * 0 == 0) by ring. rewrite E0.
    change (Qabs 0) with 0. lra.
  - unfold F32.mul, SFmul, F32.prec, F32.emax. rewrite xorb_false_r.
    destruct (binary_round_aux_shape s (mx * 13107200) (ex + -17))
      as (m1 & e1 & HE & Hq & Hexact & Hbig & Hr).
    set (M := Zpos (mx * 13107200)) in *.
    set (E := (ex + -17)%Z) in *.
    set (k := (e1 - E)%Z) in *.
    assert (Hk : (0 <= k)%Z) by (unfold k; lia).
    assert (Hpk : (0 < 2 ^ k)%Z) by (apply Z.pow_pos_nonneg; lia).
    assert (Hd : (- 2 ^ k <= m1 * 2 ^ k - M <= 2 ^ k)%Z).
    { pose proof (Z.mul_div_le M (2 ^ k) Hpk).
      pose proof (Z.mul_succ_div_gt M (2 ^ k) Hpk). nia. }
    assert (Hm1 : (0 <= m1)%Z).
    { assert (0 <= M / 2 ^ k)%Z by (apply Z.div_pos; unfold M; lia). lia. }
    (* the exact product *)
    assert (HP : 100 * F32.to_Q (S754_finite s mx ex)
                 == F32.sign_Q s * inject_Z M * (2 # 1) ^ E).
    { rewrite to_Q_finite. unfold M, E.
      rewrite Pos2Z.inj_mul, inject_Z_mult, Qpower_plus by discriminate.
      change ((2 # 1) ^ (-17)) with (1 # 131072).
      change (inject_Z 13107200) with (13107200 # 1). ring. }
    (* the rounded product *)
    assert (HV : forall (m : positive) (e : Z),
               (e1 <= e)%Z -> (Zpos m * 2 ^ (e - e1))%Z = m1 ->
               F32.to_Q (S754_finite s m e)
               == F32.sign_Q s * inject_Z m1 * (2 # 1) ^ e1).
    { intros m e He Hm. rewrite to_Q_finite, (two_pow_split e1 e) by assumption.
      rewrite <- Hm, inject_Z_mult. ring. }
    assert (Herr : forall V : Q,
               V == F32.sign_Q s * inject_Z m1 * (2 # 1) ^ e1 ->
               Qabs (V - 100 * F32.to_Q (S754_finite s mx ex))
               <= Qabs V * (1 # 8388608) + (1 # 1000000)).
    { intros V HVeq.
      assert (Hpos : 0 < (2 # 1) ^ E) by (apply Qpower_0_lt; reflexivity).
      assert (Hpos1 : 0 < (2 # 1) ^ e1) by (apply Qpower_0_lt; reflexivity).
      assert (Hdiff : V - 100 * F32.to_Q (S754_finite s mx ex)
                      == F32.sign_Q s * ((2 # 1) ^ E * inject_Z (m1 * 2 ^ k - M))).
      { rewrite HVeq, HP, (two_pow_split E e1) by assumption. fold k.
        unfold Zminus. rewrite inject_Z_plus, inject_Z_mult, inject_Z_opp. ring. }
      assert (Habs : Qabs (V - 100 * F32.to_Q (S754_finite s mx ex))
                     <= (2 # 1) ^ E * Qabs (inject_Z (m1 * 2 ^ k - M))).
      { rewrite Hdiff, Qabs_sign, Qabs_Qmult.
        rewrite (Qabs_pos ((2 # 1) ^ E)) by (apply Qlt_le_weak; exact Hpos).
        apply Qle_refl. }
      assert (HabsV : Qabs V == inject_Z m1 * (2 # 1) ^ e1).
      { rewrite HVeq, <- Qmult_assoc, Qabs_sign, Qabs_Qmult.
        rewrite (Qabs_pos ((2 # 1) ^ e1)) by (apply Qlt_le_weak; exact Hpos1).
        rewrite Qabs_pos by (rewrite <- (Zle_Qle 0); exact Hm1). reflexivity. }
      destruct (Z.eq_dec e1 E) as [Heq|Hne].
      - (* exact *)
        specialize (Hexact Heq).
        assert (Hz : (m1 * 2 ^ k - M = 0)%Z).
        { unfold k. rewrite Heq, Z.sub_diag. change (2 ^ 0)%Z with 1%Z. lia. }
        rewrite Hz in Habs. change (Qabs (inject_Z 0)) with 0 in Habs.
        rewrite Qmult_0_r in Habs.
        pose proof (Qabs_nonneg V). lra.
      - assert (Hone : Qabs (V - 100 * F32.to_Q (S754_finite s mx ex))
                       <= (2 # 1) ^ e1).
        { eapply Qle_trans; [exact Habs|].
          rewrite (two_pow_split E e1) by assumption. fold k.
          apply Qmult_le_l; [exact Hpos|]. apply abs_inject_le. exact Hd. }
        destruct (Hbig ltac:(lia)) as [Hmin|H23].
        + rewrite Hmin in Hone.
          assert ((2 # 1) ^ (-149) <= 1 # 1000000) by (vm_compute; discriminate).
          pose proof (Qabs_nonneg V). lra.
        + assert (H8 : inject_Z (2 ^ 23) * (2 # 1) ^ e1 <= Qabs V).
          { rewrite HabsV. apply Qmult_le_compat_r; [|apply Qlt_le_weak; exact Hpos1].
            rewrite <- Zle_Qle. exact H23. }
          change (inject_Z (2 ^ 23)) with (8388608 # 1) in H8. lra. }
    destruct (binary_round_aux 24 128 s M E loc_Exact) as [s'|s'| |s' m e] eqn:Er;
      try discriminate; try contradiction; intros _.
    + destruct Hr as [-> Hz]. apply Herr. rewrite Hz. cbn [F32.to_Q].
      change (inject_Z 0) with 0. ring.
    + destruct Hr as [-> [He Hm]]. apply Herr. apply HV; assumption.
Qed.

End F32Facts.


(** ** Physics *)

Module PhysicsFacts.

Import Protocol Physics.

(** The constants are the binary32 numbers nearest to the decimal
    literals of [Physics.hpp]. *)
Lemma constants_are_nearest :
  GRAVITY = F32.div (F32.of_int 8) (F32.of_int 1000)
  /\ JETPACK_FORCE = F32.div (F32.of_int 13) (F32.of_int 1000)
  /\ MAX_VELOCITY = F32.div (F32.of_int 5) (F32.of_int 100)
  /\ HORIZONTAL_SPEED = F32.div (F32.of_int 5) (F32.of_int 100).
Proof. repeat split; vm_compute; reflexivity. Qed.

(** [std::clamp] keeps every number between the bounds. *)
Lemma clamp_in_range (v : F32.float) :
  F32.is_nan v = false ->
  F32.le (F32.opp MAX_VELOCITY) (clamp v (F32.opp MAX_VELOCITY) MAX_VELOCITY) = true
  /\ F32.le (clamp v (F32.opp MAX_VELOCITY) MAX_VELOCITY) MAX_VELOCITY = true.
Proof.
  intros Hv. unfold clamp.
  destruct (F32.lt v (F32.opp MAX_VELOCITY)) eqn:Hlo; [split; reflexivity|].
  destruct (F32.lt MAX_VELOCITY v) eqn:Hhi; [split; reflexivity|].
  split; apply F32Facts.not_lt_le; auto.
Qed.

(** C5.  [applyPhysics] adds gravity to the vertical velocity, subtracts
    the jetpack force when the jetpack flag is set, clamps the result to
    [-MAX_VELOCITY, MAX_VELOCITY], advances x by the horizontal speed
    whatever the input, advances y by the clamped velocity, and leaves
    every other field of the player as it was.  The constants are 0.008,
    0.013, 0.05 and 0.05 as binary32 numbers, and the clamped velocity lies
    between the bounds unless it is not a number. *)
Theorem applyPhysics_spec (player : Player) :
  let forces :=
    if m_isJetpacking player
    then F32.sub (F32.add (m_velocityY player) GRAVITY) JETPACK_FORCE
    else F32.add (m_velocityY player) GRAVITY in
  let clamped :=
    if F32.lt forces (F32.opp MAX_VELOCITY) then F32.opp MAX_VELOCITY
    else if F32.lt MAX_VELOCITY forces then MAX_VELOCITY
    else forces in
  let player' := applyPhysics player in
  m_velocityY player' = clamped
  /\ (F32.is_nan forces
      || (F32.le (F32.opp MAX_VELOCITY) clamped && F32.le clamped MAX_VELOCITY)
      = true)
  /\ pos_x (m_position player')
     = F32.add (pos_x (m_position player)) HORIZONTAL_SPEED
  /\ pos_y (m_position player')
     = F32.add (pos_y (m_position player)) clamped
  /\ m_clientSocket player' = m_clientSocket player
  /\ m_id player' = m_id player
  /\ m_isJetpacking player' = m_isJetpacking player
  /\ m_score player' = m_score player
  /\ m_state player' = m_state player
  /\ GRAVITY = F32.div (F32.of_int 8) (F32.of_int 1000)
  /\ JETPACK_FORCE = F32.div (F32.of_int 13) (F32.of_int 1000)
  /\ MAX_VELOCITY = F32.div (F32.of_int 5) (F32.of_int 100)
  /\ HORIZONTAL_SPEED = F32.div (F32.of_int 5) (F32.of_int 100).
Proof.
  intros forces clamped player'.
  assert (Hc : clamped = clamp forces (F32.opp MAX_VELOCITY) MAX_VELOCITY)
    by reflexivity.
  assert (Hv : m_velocityY player' = clamped).
  { unfold player', applyPhysics. cbn [setPosition setVelocityY m_velocityY].
    rewrite Hc. unfold forces. destruct (m_isJetpacking player); reflexivity. }
  split; [exact Hv|].
  split.
  { destruct (F32.is_nan forces) eqn:Hn; [reflexivity|].
    destruct (clamp_in_range forces Hn) as [H1 H2].
    rewrite Hc, H1, H2. reflexivity. }
  split.
  { unfold player', applyPhysics. reflexivity. }
  split.
  { rewrite Hc. unfold player', applyPhysics, forces.
    destruct (m_isJetpacking player); reflexivity. }
  repeat (split; [reflexivity|]).
  apply constants_are_nearest.
Qed.

Lemma floor_bound_nonneg (map : GameMap) :
  1 <= height map -> F32.nonneg (floor_bound map) = true.
Proof.
  intros H. unfold floor_bound.
  destruct (height map) as [|p|p]; try lia.
  apply F32Facts.sub_one_nonneg, F32Facts.of_int_at_least_one.
Qed.

(** C9, as the claim states it, fails on a map of height 0: the player
    one unit above the ceiling is put at y = 0 by the first call and at
    y = -1 by the second. *)
Lemma checkBounds_twice_differs_on_empty_map :
  pos_y (m_position (checkBounds Samples.player_above empty_map)) = F32.zero
  /\ pos_y (m_position
              (checkBounds (checkBounds Samples.player_above empty_map) empty_map))
     = S754_finite true 8388608 (-23)
  /\ checkBounds (checkBounds Samples.player_above empty_map) empty_map
     <> checkBounds Samples.player_above empty_map.
Proof.
  split; [vm_compute; reflexivity|].
  split; [vm_compute; reflexivity|].
  vm_compute. discriminate.
Qed.

(** C9, amended.  On every map of height at least 1, for every player:
    [checkBounds] applied twice gives the player that one application
    gives; a negative y becomes 0 and a y at or beyond [height - 1]
    becomes [height - 1], the vertical velocity becoming 0 in both cases;
    x is never changed. *)
Theorem checkBounds_idempotent (player : Player) (map : GameMap) :
  1 <= height map ->
  checkBounds (checkBounds player map) map = checkBounds player map
  /\ pos_x (m_position (checkBounds player map)) = pos_x (m_position player)
  /\ (if F32.lt (pos_y (m_position player)) F32.zero
      then pos_y (m_position (checkBounds player map)) = F32.zero
           /\ m_velocityY (checkBounds player map) = F32.zero
      else True)
  /\ (if F32.ge (pos_y (m_position player)) (floor_bound map)
      then pos_y (m_position (checkBounds player map)) = floor_bound map
           /\ m_velocityY (checkBounds player map) = F32.zero
      else True).
Proof.
  intros Hh. pose proof (floor_bound_nonneg map Hh) as Hb.
  unfold checkBounds.
  destruct (F32.lt (pos_y (m_position player)) F32.zero) eqn:Hlt.
  - cbn [setVelocityY setPosition m_position pos_x pos_y m_velocityY].
    change (F32.lt F32.zero F32.zero) with false. cbn iota.
    assert (Hge : F32.ge (pos_y (m_position player)) (floor_bound map) = false).
    { destruct (F32.ge (pos_y (m_position player)) (floor_bound map)) eqn:E;
        [|reflexivity].
      rewrite (F32Facts.ge_nonneg_not_lt_zero _ _ Hb E) in Hlt. discriminate. }
    rewrite Hge.
    repeat split.
    destruct (F32.ge F32.zero (floor_bound map)) eqn:E; [|reflexivity].
    rewrite (F32Facts.nonneg_le_zero _ Hb E). reflexivity.
  - destruct (F32.ge (pos_y (m_position player)) (floor_bound map)) eqn:Hge.
    + cbn [setVelocityY setPosition m_position pos_x pos_y m_velocityY].
      rewrite (F32Facts.nonneg_not_lt_zero _ Hb), (F32Facts.nonneg_ge_refl _ Hb).
      repeat split.
    + rewrite Hlt, Hge. repeat split.
Qed.

(** The amended C9 on the one-row map and the player above the ceiling. *)
Lemma checkBounds_idempotent_witness :
  1 <= height Samples.one_row_map
  /\ checkBounds (checkBounds Samples.player_above Samples.one_row_map)
                 Samples.one_row_map
     = checkBounds Samples.player_above Samples.one_row_map.
Proof.
  assert (H : 1 <= height Samples.one_row_map) by (simpl; lia).
  split; [exact H|].
  exact (proj1 (checkBounds_idempotent Samples.player_above
                  Samples.one_row_map H)).
Defined.

End PhysicsFacts.

(** ** The client's packet framing *)

Module FramingFacts.

Import MachineInt Protocol Client.

Lemma getPacketSize_take_5 (data : list byte) (maxSize : Z) :
  getPacketSize (take 5 data) maxSize = getPacketSize data maxSize.
Proof.
  destruct data as [|b0 [|b1 [|b2 [|b3 [|b4 rest]]]]]; reflexivity.
Qed.

(** The size depends on the first five bytes and on the number of bytes
    available, on nothing else. *)
Lemma getPacketSize_header_only (data data' : list byte) (maxSize : Z) :
  take 5 data' = take 5 data ->
  getPacketSize data' maxSize = getPacketSize data maxSize.
Proof.
  intros H.
  rewrite <- (getPacketSize_take_5 data'), <- (getPacketSize_take_5 data), H.
  reflexivity.
Qed.

(** C7.  For a buffer whose available header bytes are those of a
    MAP_DATA packet of width 5 and height 3, [getPacketSize] reports 35
    when at least 35 bytes are available and 0 otherwise; its result is a
    function of the first five bytes and of the byte count alone. *)
Theorem getPacketSize_map_5x3 (data : list byte) :
  take 5 data = take (length data) Samples.map_header_5x3 ->
  getPacketSize data (Z.of_nat (length data))
  = (if 35 <=? Z.of_nat (length data) then 35 else 0)
  /\ (forall (data' : list byte) (maxSize : Z),
         take 5 data' = take 5 data ->
         getPacketSize data' maxSize = getPacketSize data maxSize).
Proof.
  intros H. split; [|intros data' maxSize; apply getPacketSize_header_only].
  destruct data as [|b0 [|b1 [|b2 [|b3 [|b4 rest]]]]];
    cbn in H; inversion H; subst; try reflexivity.
  unfold getPacketSize.
  set (n := Z.of_nat (length (x03 :: x05 :: x00 :: x03 :: x00 :: rest))).
  assert (Hn : 5 <= n) by (unfold n; cbn [length]; lia).
  destruct (n <? 1) eqn:E1; [lia|].
  change (PacketType_of_byte (nth 0 (x03 :: x05 :: x00 :: x03 :: x00 :: rest) x00))
    with (Some MAP_DATA).
  cbn iota. destruct (n <? 5) eqn:E5; [lia|].
  change (le16 (x03 :: x05 :: x00 :: x03 :: x00 :: rest) 1) with 5.
  change (le16 (x03 :: x05 :: x00 :: x03 :: x00 :: rest) 3) with 3.
  change (to_size_t (to_int (5 + to_int (to_int (5 * 3) * 2)))) with 35.
  reflexivity.
Qed.

(** C7 on a complete packet (35 bytes) and on the same packet cut to 34. *)
Lemma getPacketSize_map_5x3_witness :
  getPacketSize (Samples.map_header_5x3 ++ replicate 30 x00) 35 = 35
  /\ getPacketSize (Samples.map_header_5x3 ++ replicate 29 x00) 34 = 0.
Proof.
  split.
  - exact (proj1 (getPacketSize_map_5x3
                    (Samples.map_header_5x3 ++ replicate 30 x00) eq_refl)).
  - exact (proj1 (getPacketSize_map_5x3
                    (Samples.map_header_5x3 ++ replicate 29 x00) eq_refl)).
Defined.

(** Bytes that name no packet type at all get no size. *)
Lemma unknown_tag_size (tag : byte) (rest : list byte) (maxSize : Z) :
  PacketType_of_byte tag = None ->
  getPacketSize (tag :: rest) maxSize = 0.
Proof.
  intros H. unfold getPacketSize. cbn [nth]. rewrite H.
  destruct (maxSize <? 1); reflexivity.
Qed.

(** The three enumerators the decoder has no case for (CONNECT_REQUEST,
    PLAYER_POSITION, PLAYER_DISCONNECT) are treated in the same way. *)
Lemma unsized_tag_size (tag : byte) (rest : list byte) (maxSize : Z) :
  In (PacketType_of_byte tag)
     [Some CONNECT_REQUEST; Some PLAYER_POSITION; Some PLAYER_DISCONNECT] ->
  getPacketSize (tag :: rest) maxSize = 0.
Proof.
  intros H. unfold getPacketSize. cbn [nth].
  destruct (maxSize <? 1); [reflexivity|].
  cbn in H. destruct H as [H|[H|[H|[]]]]; rewrite <- H; reflexivity.
Qed.

(** C8.  When the buffer of the receive loop starts with a byte that is
    no packet type tag, [getPacketSize] reports size 0, no packet is
    processed and no byte is consumed: the retained buffer is the
    accumulated bytes followed by the bytes just received. *)
Theorem unknown_tag_consumes_nothing
        (tag : byte) (rest accumulated received : list byte) :
  PacketType_of_byte tag = None ->
  accumulated ++ received = tag :: rest ->
  getPacketSize (tag :: rest) (Z.of_nat (length (tag :: rest))) = 0
  /\ onReceive accumulated received = ([], accumulated ++ received).
Proof.
  intros Htag Hbuf. split; [apply unknown_tag_size; assumption|].
  unfold onReceive. rewrite Hbuf.
  cbn [length extractPackets].
  change (0 <? Z.of_nat (S (length rest))) with true. cbn iota.
  change (drop (Z.to_nat 0) (tag :: rest)) with (tag :: rest).
  rewrite unknown_tag_size by assumption.
  reflexivity.
Qed.

Lemma unknown_tag_consumes_nothing_witness :
  PacketType_of_byte xff = None
  /\ onReceive [xff; x02] [x01; x01] = ([], [xff; x02; x01; x01]).
Proof.
  split.
  - reflexivity.
  - exact (proj2 (unknown_tag_consumes_nothing xff [x02; x01; x01]
                    [xff; x02] [x01; x01] eq_refl eq_refl)).
Defined.

End FramingFacts.

(** ** Coins *)

Module CoinFacts.

Import MachineInt Protocol Server CoinSpec.

(** *** Grids *)

Lemma grid_get_set_same {A : Type} (y x : nat) (v old : A) (g : list (list A)) :
  grid_get y x g = Some old -> grid_get y x (grid_set y x v g) = Some v.
Proof.
  unfold grid_get, grid_set. intros H.
  rewrite list_lookup_alter_eq.
  destruct (g !! y) as [row|] eqn:Hrow; [|discriminate]. cbn.
  apply list_lookup_insert_eq. apply lookup_lt_is_Some. eauto.
Qed.

Lemma grid_get_set_other {A : Type} (y x y' x' : nat) (v : A) (g : list (list A)) :
  (y', x') <> (y, x) -> grid_get y' x' (grid_set y x v g) = grid_get y' x' g.
Proof.
  unfold grid_get, grid_set. intros H.
  destruct (decide (y = y')) as [->|Hy].
  - rewrite list_lookup_alter_eq.
    destruct (g !! y') as [row|]; [|reflexivity]. cbn.
    apply list_lookup_insert_ne. congruence.
  - rewrite list_lookup_alter_ne by assumption. reflexivity.
Qed.

Lemma grid_set_same_value {A : Type} (y x : nat) (v : A) (g : list (list A)) :
  grid_get y x g = Some v -> grid_set y x v g = g.
Proof.
  unfold grid_get, grid_set. intros H.
  destruct (g !! y) as [row|] eqn:Hrow; [|discriminate].
  apply list_eq. intros i.
  destruct (decide (y = i)) as [->|Hi].
  - rewrite list_lookup_alter_eq, Hrow. cbn. f_equal. apply list_insert_id. exact H.
  - rewrite list_lookup_alter_ne by assumption. reflexivity.
Qed.

(** *** The code's test is the specification's *)

Lemma alreadyCollected_blocked (playerId : Z) (c : CoinState) :
  alreadyCollected playerId c = blocked playerId c.
Proof.
  unfold alreadyCollected, blocked.
  destruct c; cbn; destruct (playerId =? 1) eqn:E1;
    destruct (playerId =? 2) eqn:E2; try reflexivity; lia.
Qed.

Lemma collectCoin_coinStates (y x : nat) (c : CoinState) (p : Player) (m : GameMap) :
  grid_get y x (coinStates m) = Some c ->
  coinStates (snd (collectCoin y x c p m))
  = grid_set y x (new_coin (m_id p) c) (coinStates m).
Proof.
  intros H. unfold collectCoin, new_coin. cbn [snd].
  destruct (CoinState_eqb c AVAILABLE); [reflexivity|].
  destruct (CoinState_eqb c COLLECTED_P1 && (m_id p =? 2)); [reflexivity|].
  destruct (CoinState_eqb c COLLECTED_P2 && (m_id p =? 1)); [reflexivity|].
  symmetry. apply grid_set_same_value. exact H.
Qed.

Lemma collectCoin_tiles (y x : nat) (c : CoinState) (p : Player) (m : GameMap) :
  tiles (snd (collectCoin y x c p m))
  = if CoinState_eqb (new_coin (m_id p) c) COLLECTED_BOTH
       && negb (CoinState_eqb c COLLECTED_BOTH)
    then grid_set y x EMPTY (tiles m) else tiles m.
Proof.
  unfold collectCoin, new_coin. cbn [snd].
  destruct c; cbn; destruct (m_id p =? 1), (m_id p =? 2); reflexivity.
Qed.

Lemma new_coin_spec (playerId : Z) (c : CoinState) :
  playerId = 1 \/ playerId = 2 ->
  blocked playerId c = false ->
  new_coin playerId c = afterCollection playerId c.
Proof.
  intros [->| ->]; destruct c; cbn; intros H; try reflexivity; discriminate.
Qed.

Lemma new_coin_blocks (playerId : Z) (c : CoinState) :
  playerId = 1 \/ playerId = 2 ->
  blocked playerId c = false ->
  blocked playerId (new_coin playerId c) = true.
Proof.
  intros [->| ->]; destruct c; cbn; intros H; try reflexivity; discriminate.
Qed.

(** A coin a player is blocked on stays so whoever collects it next. *)
Lemma new_coin_keeps_blocked (playerId other : Z) (c : CoinState) :
  blocked playerId c = true -> blocked playerId (new_coin other c) = true.
Proof.
  unfold new_coin. destruct c; cbn; try discriminate;
    destruct (other =? 1), (other =? 2); cbn; intros H; rewrite ?H; try reflexivity;
    rewrite ?orb_true_r; reflexivity.
Qed.

(** *** One visit *)

Lemma PlayerState_eqb_PLAYING (st : PlayerState) :
  st = PLAYING -> PlayerState_eqb st PLAYING = true.
Proof. intros ->. reflexivity. Qed.

(** What a visit can do: nothing, kill the player, or collect the coin
    of the player's cell. *)
Lemma visit_cases (v : Visit) (m : GameMap) :
  visit v m = (v_player v, m)
  \/ visit v m = (setState DEAD (v_player v), m)
  \/ exists c,
      in_map m (fst (cell_of (v_player v))) (snd (cell_of (v_player v))) = true
      /\ grid_get (Z.to_nat (snd (cell_of (v_player v))))
                  (Z.to_nat (fst (cell_of (v_player v)))) (tiles m) = Some COIN
      /\ grid_get (Z.to_nat (snd (cell_of (v_player v))))
                  (Z.to_nat (fst (cell_of (v_player v)))) (coinStates m) = Some c
      /\ alreadyCollected (m_id (v_player v)) c = false
      /\ visit v m = collectCoin (Z.to_nat (snd (cell_of (v_player v))))
                                 (Z.to_nat (fst (cell_of (v_player v))))
                                 c (v_player v) m.
Proof.
  unfold visit, collide.
  destruct (negb (PlayerState_eqb (m_state (v_player v)) PLAYING)); [left; reflexivity|].
  destruct (cell_of (v_player v)) as [cx cy] eqn:Hcell. cbn [fst snd].
  destruct (in_map m cx cy) eqn:Hin; [|left; reflexivity].
  destruct (grid_get (Z.to_nat cy) (Z.to_nat cx) (tiles m)) as [[| |]|] eqn:Ht;
    try (left; reflexivity); [|right; left; reflexivity].
  destruct (grid_get (Z.to_nat cy) (Z.to_nat cx) (coinStates m)) as [c|] eqn:Hc;
    [|left; reflexivity].
  destruct (alreadyCollected (m_id (v_player v)) c) eqn:Ha; [left; reflexivity|].
  right; right. exists c. repeat split; try assumption; reflexivity.
Qed.

(** *** At most one gain per coin and player *)

Lemma in_map_nonneg (m : GameMap) (x y : Z) :
  in_map m x y = true -> 0 <= x /\ 0 <= y.
Proof. unfold in_map. lia. Qed.

Section AtMostOnce.

(** The player and the cell under consideration. *)
Variables (playerId x y : Z).
Hypothesis known_player : playerId = 1 \/ playerId = 2.

(** Once spent, a coin stays spent whoever visits the map. *)
Lemma visit_keeps_spent (v : Visit) (m : GameMap) :
  0 <= x -> 0 <= y ->
  spent playerId x y m -> spent playerId x y (snd (visit v m)).
Proof.
  intros Hx Hy [c [Hc Hb]].
  destruct (visit_cases v m) as [E|[E|[c' [Hin [_ [Hc' [_ E]]]]]]];
    rewrite E; cbn [snd]; try (exists c; split; assumption).
  unfold spent. rewrite collectCoin_coinStates by assumption.
  destruct (cell_of (v_player v)) as [cx cy]. cbn [fst snd] in *.
  destruct (decide ((Z.to_nat y, Z.to_nat x) = (Z.to_nat cy, Z.to_nat cx)))
    as [Heq|Hne].
  - injection Heq as H1 H2. rewrite H1, H2 in *.
    rewrite Hc in Hc'. inversion Hc'; subst c'.
    eexists. split; [eapply grid_get_set_same; eassumption|].
    apply new_coin_keeps_blocked. assumption.
  - exists c. split; [|assumption].
    rewrite grid_get_set_other by assumption. assumption.
Qed.

(** On a spent coin the player gains nothing. *)
Lemma visit_spent_no_gain (v : Visit) (m : GameMap) :
  spent playerId x y m ->
  m_id (v_player v) = playerId -> cell_of (v_player v) = (x, y) ->
  m_score (fst (visit v m)) = m_score (v_player v).
Proof.
  intros [c [Hc Hb]] Hid Hcell.
  destruct (visit_cases v m) as [E|[E|[c' [_ [_ [Hc' [Ha _]]]]]]];
    try (rewrite E; reflexivity).
  rewrite Hcell in Hc'. cbn [fst snd] in Hc'.
  rewrite Hc in Hc'. inversion Hc'; subst c'.
  rewrite alreadyCollected_blocked, Hid, Hb in Ha. discriminate.
Qed.

(** A gain spends the coin. *)
Lemma visit_gain_spends (v : Visit) (m : GameMap) :
  m_id (v_player v) = playerId -> cell_of (v_player v) = (x, y) ->
  m_score (fst (visit v m)) <> m_score (v_player v) ->
  0 <= x /\ 0 <= y /\ spent playerId x y (snd (visit v m)).
Proof.
  intros Hid Hcell Hgain.
  destruct (visit_cases v m) as [E|[E|[c [Hin [_ [Hc [Ha E]]]]]]];
    try (rewrite E in Hgain; cbn in Hgain; congruence).
  rewrite Hcell in Hin, Hc, E. cbn [fst snd] in Hin, Hc, E.
  destruct (in_map_nonneg _ _ _ Hin) as [Hx Hy].
  split; [assumption|]. split; [assumption|].
  rewrite E. unfold spent. rewrite collectCoin_coinStates by assumption.
  eexists. split; [eapply grid_get_set_same; eassumption|].
  rewrite Hid. apply new_coin_blocks; [assumption|].
  rewrite <- alreadyCollected_blocked, <- Hid. assumption.
Qed.

Lemma gains_spent (visits : list Visit) : forall m : GameMap,
  0 <= x -> 0 <= y -> spent playerId x y m ->
  gains playerId x y m visits = O.
Proof.
  induction visits as [|v rest IH]; intros m Hx Hy Hs; [reflexivity|].
  cbn [gains].
  pose proof (visit_keeps_spent v m Hx Hy Hs) as Hs'.
  destruct (visit v m) as [p' m'] eqn:Ev. cbn [snd] in Hs'.
  rewrite (IH m' Hx Hy Hs').
  destruct ((m_id (v_player v) =? playerId)
            && (fst (cell_of (v_player v)) =? x)
            && (snd (cell_of (v_player v)) =? y)) eqn:Hhit; [|reflexivity].
  split_andb Hhit.
  assert (Hcell : cell_of (v_player v) = (x, y)).
  { destruct (cell_of (v_player v)); cbn in *. f_equal; lia. }
  pose proof (visit_spent_no_gain v m Hs ltac:(lia) Hcell) as Hno.
  rewrite Ev in Hno. cbn [fst] in Hno. rewrite Hno, Z.eqb_refl. reflexivity.
Qed.

Lemma gains_at_most_once (visits : list Visit) :
  forall m : GameMap, (gains playerId x y m visits <= 1)%nat.
Proof.
  induction visits as [|v rest IH]; intros m; [cbn; lia|].
  cbn [gains].
  destruct (visit v m) as [p' m'] eqn:Ev.
  destruct ((m_id (v_player v) =? playerId)
            && (fst (cell_of (v_player v)) =? x)
            && (snd (cell_of (v_player v)) =? y)
            && negb (m_score p' =? m_score (v_player v))) eqn:Hhit.
  - split_andb Hhit.
    assert (Hcell : cell_of (v_player v) = (x, y)).
    { destruct (cell_of (v_player v)); cbn in *. f_equal; lia. }
    assert (Hne : m_score (fst (visit v m)) <> m_score (v_player v)).
    { rewrite Ev. cbn [fst].
      match goal with H : negb _ = true |- _ => apply negb_true_iff in H end.
      lia. }
    destruct (visit_gain_spends v m ltac:(lia) Hcell Hne) as [Hx [Hy Hs]].
    rewrite Ev in Hs. cbn [snd] in Hs.
    rewrite (gains_spent rest m' Hx Hy Hs). cbn. lia.
  - specialize (IH m'). cbn. lia.
Qed.

End AtMostOnce.

(** C1.  A Playing player with id 1 or 2 stands on a cell of the map
    that holds a Coin whose coin-state is [c].  The body of
    [checkCollisions] raises the score by exactly 1 when the player is
    not blocked on [c] (player 1 by CollectedByP1 and CollectedByBoth,
    player 2 by CollectedByP2 and CollectedByBoth) and leaves it alone
    otherwise; a collection moves Available to CollectedBy<player> and a
    coin of the other player to CollectedByBoth; the tile becomes Empty
    exactly at the move to CollectedByBoth and stays a Coin otherwise;
    after the visit the player is blocked on the coin, and over any
    sequence of visits of a match the score of that player changes at
    most once on that cell. *)
Theorem coin_collected_once
        (before after : list (Z * Player)) (sock : Z) (player : Player)
        (map : GameMap) (x y : Z) (c : CoinState) :
  m_state player = PLAYING ->
  m_id player = 1 \/ m_id player = 2 ->
  cell_of player = (x, y) ->
  in_map map x y = true ->
  grid_get (Z.to_nat y) (Z.to_nat x) (tiles map) = Some COIN ->
  grid_get (Z.to_nat y) (Z.to_nat x) (coinStates map) = Some c ->
  m_score player < INT_MAX ->
  INT_MIN <= m_score player ->
  let result := fst (collide before after sock player map) in
  let c' := if blocked (m_id player) c then c
            else afterCollection (m_id player) c in
  m_score (fst result)
  = (if blocked (m_id player) c then m_score player else m_score player + 1)
  /\ grid_get (Z.to_nat y) (Z.to_nat x) (coinStates (snd result)) = Some c'
  /\ grid_get (Z.to_nat y) (Z.to_nat x) (tiles (snd result))
     = Some (if negb (blocked (m_id player) c) && CoinState_eqb c' COLLECTED_BOTH
             then EMPTY else COIN)
  /\ blocked (m_id player) c' = true
  /\ (forall (m : GameMap) (visits : list Visit),
         (gains (m_id player) x y m visits <= 1)%nat).
Proof.
  intros Hst Hid Hcell Hin Ht Hc Hmax Hmin result c'.
  assert (Hres : result
                 = if blocked (m_id player) c then (player, map)
                   else collectCoin (Z.to_nat y) (Z.to_nat x) c player map).
  { unfold result, collide.
    rewrite (PlayerState_eqb_PLAYING _ Hst). cbn [negb].
    rewrite Hcell, Hin, Ht, Hc, alreadyCollected_blocked.
    destruct (blocked (m_id player) c); [reflexivity|].
    destruct (collectCoin (Z.to_nat y) (Z.to_nat x) c player map). reflexivity. }
  assert (Hblocked : blocked (m_id player) c' = true).
  { unfold c'. destruct (blocked (m_id player) c) eqn:Hb; [assumption|].
    rewrite <- new_coin_spec by assumption. apply new_coin_blocks; assumption. }
  split; [|split; [|split; [|split]]].
  - rewrite Hres. destruct (blocked (m_id player) c); [reflexivity|].
    unfold collectCoin. cbn [fst setScore m_score].
    unfold to_int, wrap_signed, INT_MAX, INT_MIN in *.
    change (2 ^ (32 - 1)) with 2147483648. change (2 ^ 32) with 4294967296.
    rewrite Z.mod_small by lia. lia.
  - rewrite Hres. unfold c'. destruct (blocked (m_id player) c) eqn:Hb; [assumption|].
    rewrite collectCoin_coinStates by assumption.
    rewrite <- new_coin_spec by assumption.
    eapply grid_get_set_same. eassumption.
  - rewrite Hres. unfold c'. destruct (blocked (m_id player) c) eqn:Hb; [assumption|].
    rewrite collectCoin_tiles. cbn [negb andb].
    rewrite <- new_coin_spec by assumption.
    assert (Hnb : CoinState_eqb c COLLECTED_BOTH = false).
    { destruct Hid as [Hid|Hid]; rewrite Hid in Hb; destruct c;
        try reflexivity; discriminate. }
    rewrite Hnb, andb_true_r.
    destruct (CoinState_eqb (new_coin (m_id player) c) COLLECTED_BOTH);
      [eapply grid_get_set_same; eassumption | assumption].
  - exact Hblocked.
  - intros m visits. apply gains_at_most_once. assumption.
Qed.

(** C1 on the one-row map: player 1 takes the coin of cell (1, 0). *)
Lemma coin_collected_once_witness :
  m_score (fst (fst (collide [] [] 4 Samples.player_on_coin Samples.one_row_map)))
  = 1
  /\ grid_get 0 1
       (coinStates (snd (fst (collide [] [] 4 Samples.player_on_coin
                                      Samples.one_row_map))))
     = Some COLLECTED_P1.
Proof.
  destruct (coin_collected_once [] [] 4 Samples.player_on_coin
              Samples.one_row_map 1 0 AVAILABLE) as [H1 [H2 _]].
  - reflexivity.
  - left. reflexivity.
  - reflexivity.
  - reflexivity.
  - reflexivity.
  - reflexivity.
  - unfold INT_MAX. simpl. lia.
  - unfold INT_MIN. simpl. lia.
  - split; [exact H1 | exact H2].
Defined.

End CoinFacts.

(** ** The session *)

Module SessionFacts.

Import MachineInt Protocol Server.

(** *** Winner selection *)

Lemma selectWinner_dead_prefix (pre post : list (Z * Player)) (sock : Z)
      (p : Player) : forall winnerId highestScore : Z,
  Forall (fun sq => PlayerState_eqb (m_state (snd sq)) DEAD = true) pre ->
  PlayerState_eqb (m_state p) DEAD = false ->
  selectWinner true (pre ++ (sock, p) :: post) winnerId highestScore = m_id p.
Proof.
  induction pre as [|[s q] pre IH]; intros w h Hpre Hp.
  - cbn. rewrite Hp. reflexivity.
  - inversion Hpre as [|? ? Hq Hrest]; subst. cbn in Hq.
    cbn [app selectWinner]. rewrite Hq. cbn [negb andb].
    destruct (h <? m_score q); apply IH; assumption.
Qed.

Lemma selectWinner_no_dead_rest (post : list (Z * Player)) :
  forall winnerId highestScore : Z,
  Forall (fun sq => m_score (snd sq) <= highestScore) post ->
  selectWinner false post winnerId highestScore = winnerId.
Proof.
  induction post as [|[s q] post IH]; intros w h Hpost; [reflexivity|].
  inversion Hpost as [|? ? Hq Hrest]; subst. cbn in Hq.
  cbn [selectWinner andb].
  destruct (h <? m_score q) eqn:E; [lia|]. apply IH. assumption.
Qed.

Lemma selectWinner_first_max (pre post : list (Z * Player)) (sock : Z)
      (p : Player) : forall winnerId highestScore : Z,
  Forall (fun sq => m_score (snd sq) < m_score p) pre ->
  Forall (fun sq => m_score (snd sq) <= m_score p) post ->
  highestScore < m_score p ->
  selectWinner false (pre ++ (sock, p) :: post) winnerId highestScore = m_id p.
Proof.
  induction pre as [|[s q] pre IH]; intros w h Hpre Hpost Hh.
  - cbn [app selectWinner andb].
    destruct (h <? m_score p) eqn:E; [|lia].
    apply selectWinner_no_dead_rest. assumption.
  - inversion Hpre as [|? ? Hq Hrest]; subst. cbn in Hq.
    cbn [app selectWinner andb].
    destruct (h <? m_score q) eqn:E; apply IH; try assumption; lia.
Qed.

Lemma checkGameEnd_broadcast (file : MapFile) (s s' : State) :
  end_condition (m_players s) = true ->
  checkGameEnd file s = Some s' ->
  sent s' = sent s ++ Broadcaster.broadcastGameOver
                        (m_players s) (winnerOf (m_players s)).
Proof.
  unfold checkGameEnd, resetGame. intros -> H.
  cbn [with_gameState do_send do_close with_players with_pollfds m_map
       m_players m_serverSocket sent] in H.
  destruct (loadMap file (m_map s)) as [[] m]; inversion H. reflexivity.
Qed.

(** C3, as the claim states it, fails on a tie.  After two clients have
    connected the table is iterated from player 2 (socket 5) to player 1
    (socket 4).  When both have finished with the same score the player
    met first, player 2, is reported, not the one met later: GAME_OVER
    carries the id 2, where "last max wins" gives player 1. *)
Lemma tie_goes_to_the_first_player :
  end_condition WinnerSpec.tied_table = true
  /\ anyDead (scan_players WinnerSpec.tied_table) = false
  /\ winnerOf WinnerSpec.tied_table = 2
  /\ m_id (WinnerSpec.last_max
             (setScore 1 (setState FINISHED (newPlayer 5 2)))
             [setScore 1 (setState FINISHED (newPlayer 4 1))]) = 1
  /\ Broadcaster.gameOverPacket (winnerOf WinnerSpec.tied_table)
     = [x0a; x01; x02]
  /\ winnerOf WinnerSpec.tied_table
     <> m_id (WinnerSpec.last_max
                (setScore 1 (setState FINISHED (newPlayer 5 2)))
                [setScore 1 (setState FINISHED (newPlayer 4 1))])
  /\ (exists s : State,
         run Sessions.coin_file Sessions.fresh [Accept 4; Tick; Accept 5]
         = Some s
         /\ map (fun sp => (fst sp, m_id (snd sp))) (m_players s)
            = map (fun sp => (fst sp, m_id (snd sp))) WinnerSpec.tied_table).
Proof.
  split; [reflexivity|]. split; [reflexivity|]. split; [reflexivity|].
  split; [reflexivity|]. split; [reflexivity|].
  split; [vm_compute; congruence|].
  eexists. split; [vm_compute; reflexivity | reflexivity].
Qed.

(** C3, amended.  The table is [pre], then the player [p], then [post],
    in iteration order.  If some player died, the players of [pre] are
    dead and [p] is not, the winner is [p]: the first non-dead player.
    If nobody died, the players of [pre] have a strictly lower score
    than [p] and those of [post] no higher score, the winner is [p]: the
    first player with the highest score, so that on equal scores the
    player met earlier wins.  The GAME_OVER packet [checkGameEnd]
    broadcasts carries that winner. *)
Theorem winner_selection (pre post : list (Z * Player)) (sock : Z) (p : Player) :
  let players := pre ++ (sock, p) :: post in
  (anyDead (scan_players players) = true ->
   Forall (fun sq => PlayerState_eqb (m_state (snd sq)) DEAD = true) pre ->
   PlayerState_eqb (m_state p) DEAD = false ->
   winnerOf players = m_id p)
  /\ (anyDead (scan_players players) = false ->
      Forall (fun sq => m_score (snd sq) < m_score p) pre ->
      Forall (fun sq => m_score (snd sq) <= m_score p) post ->
      0 <= m_score p ->
      winnerOf players = m_id p)
  /\ (forall (file : MapFile) (s s' : State),
         m_players s = players ->
         end_condition players = true ->
         checkGameEnd file s = Some s' ->
         sent s' = sent s ++ map (fun sq => (fst sq,
                                             Broadcaster.gameOverPacket
                                               (winnerOf players)))
                                 players).
Proof.
  intros players. split; [|split].
  - intros Hd Hpre Hp. unfold winnerOf. rewrite Hd.
    apply selectWinner_dead_prefix; assumption.
  - intros Hd Hpre Hpost Hs. unfold winnerOf. rewrite Hd.
    apply selectWinner_first_max; try assumption. lia.
  - intros file s s' Hps Hend H.
    rewrite <- Hps in Hend.
    rewrite (checkGameEnd_broadcast file s s' Hend H), Hps. reflexivity.
Qed.

(** The amended C3 on the tied table and on a table with a dead player. *)
Lemma winner_selection_witness :
  winnerOf WinnerSpec.tied_table = 2 /\ winnerOf WinnerSpec.death_table = 1.
Proof.
  split.
  - apply (proj1 (proj2 (winner_selection
                           [] [(4, setScore 1 (setState FINISHED (newPlayer 4 1)))]
                           5 (setScore 1 (setState FINISHED (newPlayer 5 2)))))).
    + reflexivity.
    + constructor.
    + constructor; [simpl; lia | constructor].
    + simpl. lia.
  - apply (proj1 (winner_selection
                    [(5, setScore 3 (setState DEAD (newPlayer 5 2)))] []
                    4 (setScore 1 (setState PLAYING (newPlayer 4 1))))).
    + reflexivity.
    + constructor; [reflexivity | constructor].
    + reflexivity.
Defined.

(** *** Capacity *)

(** Construction on the sample file gives the sample state. *)
Lemma init_coin_file : init Sessions.coin_file 3 = Some Sessions.fresh.
Proof. vm_compute. reflexivity. Qed.

Lemma checkGameStart_length (s : State) :
  length (m_players (checkGameStart s)) = length (m_players s).
Proof.
  unfold checkGameStart.
  destruct (m_gameState s); try reflexivity.
  destruct (MIN_PLAYERS <=? Z.of_nat (length (m_players s))); [|reflexivity].
  cbn [do_send with_players with_gameState m_players]. apply length_map.
Qed.

(** [acceptNewClient] never looks at the number of players: a new
    descriptor always adds one. *)
Lemma accept_always_adds (clientSocket : Z) (s : State) :
  0 <= clientSocket ->
  existsb (fun sp => fst sp =? clientSocket) (m_players s) = false ->
  length (m_players (acceptNewClient clientSocket s))
  = S (length (m_players s)).
Proof.
  intros Hc Hfresh. unfold acceptNewClient.
  destruct (clientSocket <? 0) eqn:E; [lia|].
  rewrite checkGameStart_length.
  cbn [sendMapData sendConnectResponse do_send with_players with_pollfds
       m_players].
  unfold emplace. rewrite Hfresh. reflexivity.
Qed.

(** C4 fails on the code.  With two players in the table and the match
    in progress, a third connection is accepted like the first two: the
    table then holds three players, with the ids 1, 2 and 3, one more
    than [MAX_CLIENTS]. *)
Theorem third_client_is_accepted :
  exists s : State,
    run Sessions.coin_file Sessions.fresh Sessions.three_clients = Some s
    /\ m_gameState s = IN_PROGRESS
    /\ Permutation (map (fun sp => m_id (snd sp)) (m_players s)) [1; 2; 3]
    /\ Z.of_nat (length (m_players s)) = 3
    /\ MAX_CLIENTS < Z.of_nat (length (m_players s)).
Proof.
  eexists. split; [vm_compute; reflexivity|].
  split; [reflexivity|]. split; [|split; reflexivity].
  cbn [m_players map snd m_id]. symmetry. apply (Permutation_rev [1; 2; 3]).
Qed.

(** *** The lifecycle *)

Lemma handleClientDisconnect_game_over (clientSocket : Z) (s : State) :
  m_gameState s = GAME_OVER ->
  m_gameState (handleClientDisconnect clientSocket s) = GAME_OVER.
Proof.
  intros H. unfold handleClientDisconnect.
  cbn [with_players m_pollfds m_gameState].
  destruct (remove_first clientSocket (m_pollfds s));
    cbn [with_pollfds do_close with_players m_gameState]; rewrite H; exact H.
Qed.

(** No event takes the session out of GAME_OVER. *)
Lemma game_over_is_absorbing (file : MapFile) (s : State) (e : Event) :
  m_gameState s = GAME_OVER ->
  exists s', step file s e = Some s' /\ m_gameState s' = GAME_OVER.
Proof.
  intros H. destruct e as [c|c r|fd|]; cbn [step].
  - eexists. split; [reflexivity|].
    unfold acceptNewClient. destruct (c <? 0); [exact H|].
    unfold checkGameStart.
    cbn [sendMapData sendConnectResponse do_send with_players with_pollfds
         m_gameState].
    rewrite H. cbn. exact H.
  - eexists. split; [reflexivity|].
    unfold handleClientData.
    destruct r as [[|b buffer]| |];
      try (apply handleClientDisconnect_game_over; exact H); try exact H.
    unfold processPacket.
    destruct (PacketType_of_byte b) as [[]|]; try exact H.
    + unfold handlePlayerInput.
      destruct (Z.of_nat (length (b :: buffer)) <? 2); exact H.
    + apply handleClientDisconnect_game_over. exact H.
  - destruct (fd =? m_serverSocket s); eexists; (split; [reflexivity|]);
      [exact H | apply handleClientDisconnect_game_over; exact H].
  - eexists. unfold updateGameState. rewrite H. split; [reflexivity | exact H].
Qed.

Lemma game_over_is_final (file : MapFile) (events : list Event) :
  forall s : State,
    m_gameState s = GAME_OVER ->
    exists s', run file s events = Some s' /\ m_gameState s' = GAME_OVER.
Proof.
  induction events as [|e rest IH]; intros s H.
  - exists s. split; [reflexivity | exact H].
  - destruct (game_over_is_absorbing file s e H) as [s1 [E1 H1]].
    cbn [run]. rewrite E1. apply IH. exact H1.
Qed.

(** The end-condition path does reset: when [checkGameEnd] fires and the
    map file loads, the session is back in WAITING_FOR_PLAYERS with an
    empty table, the sockets of the players closed. *)
Lemma checkGameEnd_resets (file : MapFile) (s s' : State) :
  end_condition (m_players s) = true ->
  checkGameEnd file s = Some s' ->
  m_gameState s' = WAITING_FOR_PLAYERS
  /\ m_players s' = []
  /\ m_pollfds s' = [m_serverSocket s]
  /\ closed s' = closed s ++ map fst (m_players s).
Proof.
  unfold checkGameEnd, resetGame. intros -> H.
  cbn [with_gameState do_send do_close with_players with_pollfds m_map
       m_players m_serverSocket sent] in H.
  destruct (loadMap file (m_map s)) as [[] m]; inversion H.
  repeat split.
Qed.

(** C10 fails on the code.  When a player leaves a match in progress,
    [handleClientDisconnect] sets GAME_OVER and broadcasts, but does not
    reset: the session is in GAME_OVER after the event and stays there
    whatever events follow. *)
Theorem disconnect_leaves_game_over :
  exists s : State,
    run Sessions.coin_file Sessions.fresh Sessions.early_leave = Some s
    /\ m_gameState s = GAME_OVER
    /\ map fst (m_players s) = [5]
    /\ closed s = [4]
    /\ (forall events : list Event,
           exists s', run Sessions.coin_file s events = Some s'
                      /\ m_gameState s' = GAME_OVER).
Proof.
  eexists. split; [vm_compute; reflexivity|].
  split; [reflexivity|]. split; [reflexivity|]. split; [reflexivity|].
  intros events. apply game_over_is_final. reflexivity.
Qed.

(** *** Reset *)

Lemma resize_same_length {A : Type} (n : nat) (v : A) (l : list A) :
  length l = n -> resize n v l = l.
Proof.
  intros <-. unfold resize.
  rewrite firstn_all, Nat.sub_diag. cbn. apply app_nil_r.
Qed.

Lemma length_resize {A : Type} (n : nat) (v : A) (l : list A) :
  length (resize n v l) = n.
Proof.
  unfold resize. rewrite length_app, length_take, length_replicate. lia.
Qed.

(** A successful load sizes the coin-state grid to the height of the map
    and keeps whatever rows were there. *)
Lemma loadMap_coinStates (file : MapFile) (m m' : GameMap) :
  loadMap file m = (true, m') ->
  coinStates m'
  = resize (Z.to_nat (to_size_t (height m')))
           (replicate (Z.to_nat (to_size_t (width m'))) AVAILABLE)
           (coinStates m).
Proof.
  unfold loadMap. destruct file as [content|]; [|discriminate].
  destruct (filter _ content) as [|first lines]; [discriminate|].
  destruct (existsb _ (first :: lines)); [discriminate|].
  intros H. inversion H. reflexivity.
Qed.

(** Reloading a file with as many rows as the grid has leaves every
    coin state as the last match left it. *)
Lemma resetGame_keeps_coinStates (file : MapFile) (s s' : State) :
  resetGame file s = Some s' ->
  length (coinStates (m_map s)) = Z.to_nat (to_size_t (height (m_map s'))) ->
  coinStates (m_map s') = coinStates (m_map s).
Proof.
  unfold resetGame.
  cbn [with_gameState do_send do_close with_players with_pollfds m_map].
  destruct (loadMap file (m_map s)) as [[] m] eqn:E; [|discriminate].
  intros H Hlen. inversion H; subst s'. cbn [with_gameState with_map m_map] in *.
  rewrite (loadMap_coinStates _ _ _ E).
  apply resize_same_length. exact Hlen.
Qed.

(** C2 fails on the code.  In a match on the one-line map both players
    collect the coin of cell (1, 0) and finish; the match ends and the
    server resets.  After the reset both sockets are closed, each once,
    the table is empty, the session waits for players and the tile is a
    Coin again, but its coin-state is still CollectedByBoth, not
    Available. *)
Theorem reset_leaves_collected_coins :
  exists s : State,
    run Sessions.coin_file Sessions.fresh (Sessions.match_of 22) = Some s
    /\ m_gameState s = WAITING_FOR_PLAYERS
    /\ m_players s = []
    /\ Permutation (closed s) [4; 5]
    /\ tiles (m_map s) = [[EMPTY; COIN]]
    /\ coinStates (m_map s) = [[AVAILABLE; COLLECTED_BOTH]]
    /\ coinStates (m_map s) <> [[AVAILABLE; AVAILABLE]].
Proof.
  eexists. split; [vm_compute; reflexivity|].
  split; [reflexivity|]. split; [reflexivity|].
  split; [cbn [closed]; apply perm_swap|].
  split; [reflexivity|]. split; [reflexivity | discriminate].
Qed.

End SessionFacts.

(** ** The GAME_STATE_UPDATE packet *)

Module WireFacts.

Import MachineInt Protocol WireSpec.

(** *** Bytes and shorts *)

Lemma Z_of_byte_of_Z (z : Z) : 0 <= z <= 255 -> Z_of_byte (byte_of_Z z) = z.
Proof.
  intros Hz. unfold Z_of_byte, byte_of_Z, to_uint8, wrap_unsigned.
  change (2 ^ 8) with 256. rewrite Z.mod_small by lia.
  destruct (Byte.of_N (Z.to_N z)) as [b|] eqn:E.
  - apply Byte.to_of_N in E. rewrite E. lia.
  - apply Byte.of_N_None_iff in E. lia.
Qed.

Lemma testbit_255 (n : Z) : 0 <= n -> Z.testbit 255 n = (n <? 8).
Proof.
  intros Hn. change 255 with (Z.ones 8).
  destruct (n <? 8) eqn:E.
  - apply Z.ones_spec_low. lia.
  - apply Z.ones_spec_high. lia.
Qed.

Lemma land_255_range (v : Z) : 0 <= Z.land v 255 <= 255.
Proof.
  change 255 with (Z.ones 8) at 1 2. rewrite Z.land_ones by lia.
  change (2 ^ 8) with 256. pose proof (Z.mod_pos_bound v 256). lia.
Qed.

(** The two bytes of [addShort] put together again. *)
Lemma short_bytes (v : Z) :
  0 <= v < 65536 ->
  Z.lor (Z.land v 255) (Z.shiftl (Z.land (Z.shiftr v 8) 255) 8) = v.
Proof.
  intros Hv. apply Z.bits_inj'. intros n Hn.
  rewrite Z.lor_spec, Z.land_spec, testbit_255 by assumption.
  destruct (n <? 8) eqn:E.
  - rewrite Z.shiftl_spec_low by lia. rewrite andb_true_r, orb_false_r. reflexivity.
  - rewrite Z.shiftl_spec by assumption.
    rewrite Z.land_spec, Z.shiftr_spec, testbit_255 by lia.
    replace (n - 8 + 8) with n by lia.
    rewrite andb_false_r. cbn [orb].
    destruct (n - 8 <? 8) eqn:E'; [apply andb_true_r|].
    rewrite andb_false_r. symmetry.
    destruct (Z.eq_dec v 0) as [->|Hv0]; [apply Z.testbit_0_l|].
    apply Z.bits_above_log2; [lia|].
    assert (Z.log2 v < 16) by (apply Z.log2_lt_pow2; lia). lia.
Qed.

Lemma to_int16_range (z : Z) : -32768 <= to_int16 z <= 32767.
Proof.
  unfold to_int16, wrap_signed.
  change (2 ^ (16 - 1)) with 32768. change (2 ^ 16) with 65536.
  pose proof (Z.mod_pos_bound (z + 32768) 65536). lia.
Qed.

Lemma to_int16_small (z : Z) : -32768 <= z <= 32767 -> to_int16 z = z.
Proof.
  intros Hz. unfold to_int16, wrap_signed.
  change (2 ^ (16 - 1)) with 32768. change (2 ^ 16) with 65536.
  rewrite Z.mod_small by lia. lia.
Qed.

Lemma to_int16_to_uint16 (z : Z) :
  -32768 <= z <= 32767 -> to_int16 (to_uint16 z) = z.
Proof.
  intros Hz. unfold to_int16, to_uint16, wrap_signed, wrap_unsigned.
  change (2 ^ (16 - 1)) with 32768. change (2 ^ 16) with 65536.
  destruct (Z_lt_le_dec z 0).
  - replace (z mod 65536) with (z + 65536)
      by (apply Z.mod_unique with (-1); lia).
    replace ((z + 65536 + 32768) mod 65536) with (z + 32768)
      by (apply Z.mod_unique with 1; lia).
    lia.
  - rewrite (Z.mod_small z) by lia. rewrite Z.mod_small by lia. lia.
Qed.

Lemma to_uint16_range (z : Z) : 0 <= to_uint16 z < 65536.
Proof. unfold to_uint16, wrap_unsigned. apply Z.mod_pos_bound. reflexivity. Qed.

Lemma fixed_range (c : F32.float) : -32768 <= fixed c <= 32767.
Proof. apply to_int16_range. Qed.

(** A coordinate whose hundredfold has an integer part of 16 bits is
    carried as that integer part. *)
Lemma fixed_truncates (c : F32.float) (z : Z) :
  F32.truncate (F32.mul c (F32.of_int 100)) = Some z ->
  -32768 <= z <= 32767 ->
  fixed c = z.
Proof.
  intros Ht Hz. unfold fixed, F32.to_int16, F32.to_int. rewrite Ht.
  unfold INT_MIN, INT_MAX.
  destruct ((-2147483648 <=? z) && (z <=? 2147483647)) eqn:E; [|lia].
  apply to_int16_small. assumption.
Qed.

(** The integer part of a finite float is less than 1 away from it. *)
Lemma truncate_close (f : F32.float) (z : Z) :
  F32.truncate f = Some z -> Qlt (Qabs (inject_Z z - F32.to_Q f)) 1.
Proof.
  destruct f as [s|s| |s m e]; cbn [F32.truncate F32.to_Q]; try discriminate.
  - intros H. inversion H. reflexivity.
  - intros H. inversion H as [Hz]. clear H.
    destruct e as [|k|k].
    + assert (E : (inject_Z (cond_Zopp s (Zpos m))
                   - inject_Z (cond_Zopp s (Zpos m * 2 ^ 0)) == 0)%Q).
      { rewrite Z.pow_0_r, Z.mul_1_r. ring. }
      rewrite E. reflexivity.
    + assert (E : (inject_Z (cond_Zopp s (Zpos m * 2 ^ Zpos k))
                   - inject_Z (cond_Zopp s (Zpos m * 2 ^ Zpos k)) == 0)%Q)
        by ring.
      rewrite E. reflexivity.
    + apply Qabs_Qlt_condition.
      change (- Zneg k) with (Zpos k).
      pose proof (Z.div_mod (Zpos m) (2 ^ Zpos k)) as Hdm.
      pose proof (Z.mod_pos_bound (Zpos m) (2 ^ Zpos k)) as Hmod.
      assert (Hp : 0 < 2 ^ Zpos k) by (apply Z.pow_pos_nonneg; lia).
      specialize (Hdm ltac:(lia)). specialize (Hmod Hp).
      unfold Qlt, Qminus, Qplus, Qopp, inject_Z. cbn [Qnum Qden].
      rewrite Pos2Z.inj_mul, Pos2Z.inj_pow.
      destruct s; cbn [cond_Zopp]; split; nia.
Qed.

(** *** The packet built by the server *)

Lemma record_bytes_eq (sp : Z * Player) :
  record_bytes sp
  = [byte_of_Z (m_id (snd sp));
     byte_of_Z (PlayerState_value (m_state (snd sp)));
     byte_of_Z (Z.land (to_uint16 (fixed (pos_x (m_position (snd sp))))) 255);
     byte_of_Z (Z.land (Z.shiftr (to_uint16 (fixed (pos_x (m_position (snd sp))))) 8) 255);
     byte_of_Z (Z.land (to_uint16 (fixed (pos_y (m_position (snd sp))))) 255);
     byte_of_Z (Z.land (Z.shiftr (to_uint16 (fixed (pos_y (m_position (snd sp))))) 8) 255);
     byte_of_Z (Z.land (to_uint16 (m_score (snd sp))) 255);
     byte_of_Z (Z.land (Z.shiftr (to_uint16 (m_score (snd sp))) 8) 255);
     byte_of_Z (if m_isJetpacking (snd sp) then 1 else 0);
     byte_of_Z 0].
Proof. reflexivity. Qed.

Lemma length_record_bytes (sp : Z * Player) : length (record_bytes sp) = 10%nat.
Proof. rewrite record_bytes_eq. reflexivity. Qed.

Lemma addPlayerRecord_data (pkt : NetworkPacket) (sp : Z * Player) :
  data (Broadcaster.addPlayerRecord pkt sp) = data pkt ++ record_bytes sp.
Proof.
  rewrite record_bytes_eq.
  unfold Broadcaster.addPlayerRecord, addByte, addShort. cbn [data type].
  rewrite <- !app_assoc. reflexivity.
Qed.

Lemma fold_addPlayerRecord_data (players : list (Z * Player)) :
  forall pkt : NetworkPacket,
    data (fold_left Broadcaster.addPlayerRecord players pkt)
    = data pkt ++ concat (map record_bytes players)
    /\ type (fold_left Broadcaster.addPlayerRecord players pkt) = type pkt.
Proof.
  induction players as [|sp rest IH]; intros pkt; cbn [fold_left map concat].
  - rewrite app_nil_r. split; reflexivity.
  - destruct (IH (Broadcaster.addPlayerRecord pkt sp)) as [Hd Ht].
    rewrite Hd, Ht, addPlayerRecord_data, <- app_assoc. split; reflexivity.
Qed.

(** The packet is the tag, the player count and ten bytes per player. *)
Lemma gameStatePacket_eq (players : list (Z * Player)) :
  Broadcaster.gameStatePacket players
  = x06 :: byte_of_Z (Z.of_nat (length players))
        :: concat (map record_bytes players).
Proof.
  unfold Broadcaster.gameStatePacket, serialize.
  destruct (fold_addPlayerRecord_data players
              (addByte (Z.of_nat (length players)) (newPacket GAME_STATE_UPDATE)))
    as [Hd Ht].
  rewrite Hd, Ht. reflexivity.
Qed.

Lemma length_records (players : list (Z * Player)) :
  length (concat (map record_bytes players)) = (10 * length players)%nat.
Proof.
  induction players as [|sp rest IH]; [reflexivity|].
  cbn [map concat length]. rewrite length_app, length_record_bytes, IH. lia.
Qed.

(** *** The record read by the client *)

Lemma nth_drop (n j : nat) (l : list byte) :
  nth j (drop n l) x00 = nth (n + j) l x00.
Proof.
  revert l. induction n as [|n IH]; intros l; [reflexivity|].
  destruct l as [|b l]; [destruct j; reflexivity|]. cbn. apply IH.
Qed.

Lemma readPlayerUpdate_drop (bytes : list byte) (offset : nat) :
  Client.readPlayerUpdate bytes offset
  = Client.readPlayerUpdate (drop offset bytes) 0.
Proof.
  unfold Client.readPlayerUpdate, Client.le16, Client.byte_at.
  rewrite !nth_drop. cbn [Nat.add].
  rewrite <- !Nat.add_assoc. cbn [Nat.add]. rewrite Nat.add_0_r.
  reflexivity.
Qed.

Lemma PlayerState_value_inv (st : PlayerState) :
  named_state st -> PlayerState_of_value (PlayerState_value st) = st.
Proof. destruct st; cbn; intros H; try reflexivity; contradiction. Qed.

Lemma PlayerState_value_range (st : PlayerState) :
  named_state st -> 0 <= PlayerState_value st <= 255.
Proof. destruct st; cbn; intros H; try lia; contradiction. Qed.

Lemma short_read (v : Z) :
  0 <= v < 65536 ->
  Z.lor (Z_of_byte (byte_of_Z (Z.land v 255)))
        (Z.shiftl (Z_of_byte (byte_of_Z (Z.land (Z.shiftr v 8) 255))) 8)
  = v.
Proof.
  intros Hv. rewrite !Z_of_byte_of_Z by apply land_255_range.
  apply short_bytes. assumption.
Qed.

Lemma read_record (sp : Z * Player) (tail : list byte) :
  in_range (snd sp) ->
  Client.readPlayerUpdate (record_bytes sp ++ tail) 0 = wire_view (snd sp).
Proof.
  intros [Hid [Hst Hsc]]. rewrite record_bytes_eq.
  unfold Client.readPlayerUpdate, Client.le16, Client.byte_at, wire_view, unfixed.
  cbn [nth app Nat.add].
  rewrite !short_read by (apply to_uint16_range).
  rewrite !Z_of_byte_of_Z
    by (try apply PlayerState_value_range; try assumption;
        destruct (m_isJetpacking (snd sp)); lia).
  rewrite PlayerState_value_inv by assumption.
  rewrite !to_int16_to_uint16 by apply fixed_range.
  assert (Hs : to_uint16 (m_score (snd sp)) = m_score (snd sp)).
  { unfold to_uint16, wrap_unsigned. change (2 ^ 16) with 65536.
    apply Z.mod_small. lia. }
  rewrite Hs.
  destruct (m_isJetpacking (snd sp)); reflexivity.
Qed.

Lemma stateUpdateLoop_records (players : list (Z * Player)) :
  forall (pre tail : list byte) (known : list Player) (i : nat),
    length pre = (2 + i * 10)%nat ->
    Forall (fun sp => in_range (snd sp)) players ->
    Client.stateUpdateLoop (pre ++ concat (map record_bytes players) ++ tail)
                           i (length players) known
    = fold_left Client.storeUpdate (map (fun sp => wire_view (snd sp)) players)
                known.
Proof.
  induction players as [|sp rest IH]; intros pre tail known i Hlen Hall;
    [reflexivity|].
  inversion Hall as [|? ? Hsp Hrest]; subst.
  cbn [length map concat fold_left Client.stateUpdateLoop].
  rewrite readPlayerUpdate_drop, <- Hlen, <- !app_assoc, drop_app_length.
  rewrite read_record by assumption.
  rewrite (app_assoc pre).
  apply IH; [|assumption].
  rewrite length_app, length_record_bytes, Hlen. lia.
Qed.

(** *** An empty client *)

Lemma updateFirst_unknown (u : Client.PlayerUpdate) (players : list Player) :
  Forall (fun q => m_id q <> Client.u_id u) players ->
  Client.updateFirst u players = None.
Proof.
  induction players as [|q rest IH]; intros H; [reflexivity|].
  inversion H as [|? ? Hq Hrest]; subst. cbn [Client.updateFirst].
  destruct (m_id q =? Client.u_id u) eqn:E; [lia|].
  rewrite IH by assumption. reflexivity.
Qed.

Lemma store_fresh_players (players : list Player) :
  forall known : list Player,
    NoDup (map m_id players) ->
    Forall (fun q => m_id q ∉ map m_id players) known ->
    fold_left Client.storeUpdate (map wire_view players) known
    = known ++ map received players.
Proof.
  induction players as [|p rest IH]; intros known Hnd Hknown.
  - cbn. rewrite app_nil_r. reflexivity.
  - cbn [map fold_left]. inversion Hnd as [|? ? Hp Hrest]; subst.
    unfold Client.storeUpdate at 2.
    rewrite updateFirst_unknown.
    + rewrite IH; [rewrite <- app_assoc; reflexivity | assumption |].
      apply Forall_app. split.
      * eapply List.Forall_impl; [|exact Hknown].
        cbn. intros q Hq Hin. apply Hq. apply elem_of_cons. right. exact Hin.
      * constructor; [exact Hp | constructor].
    + eapply List.Forall_impl; [|exact Hknown].
      cbn. intros q Hq Heq. apply Hq. apply elem_of_cons. left. exact Heq.
Qed.

(** *** Round trip *)

Lemma length_gameStatePacket (players : list (Z * Player)) :
  Z.of_nat (length (Broadcaster.gameStatePacket players))
  = 2 + Z.of_nat (length players) * 10.
Proof.
  rewrite gameStatePacket_eq. cbn [length]. rewrite length_records. lia.
Qed.

(** [all_range] checks every integer of its range. *)
Lemma all_range_spec (test : Z -> bool) (depth : nat) (start n : Z) :
  all_range test depth start = true ->
  start <= n < start + 2 ^ Z.of_nat depth -> test n = true.
Proof.
  revert start. induction depth as [|d IH]; intros start H Hn.
  - change (2 ^ Z.of_nat 0) with 1 in Hn. cbn [all_range] in H.
    replace n with start by lia. exact H.
  - cbn [all_range] in H. apply andb_prop in H. destruct H as [Hl Hr].
    rewrite Nat2Z.inj_succ, Z.pow_succ_r in Hn by lia.
    destruct (Z_lt_ge_dec n (start + 2 ^ Z.of_nat d)) as [Hlt|Hge].
    + apply (IH start); [exact Hl | lia].
    + apply (IH (start + 2 ^ Z.of_nat d)); [exact Hr | lia].
Qed.

(** Every 16-bit value [n] is decoded to within [2^-16] of [n / 100]
    (checked value by value). *)
Lemma unfixed_table : all_range (unfixed_close (1 # 65536)) 16 (-32768) = true.
Proof. vm_compute. reflexivity. Qed.

Lemma unfixed_near (n : Z) :
  -32768 <= n <= 32767 ->
  (Qabs (F32.to_Q (unfixed n) - (n # 100)) <= 1 # 65536)%Q.
Proof.
  intros Hn. apply Qle_bool_iff.
  apply (all_range_spec (unfixed_close (1 # 65536)) 16 (-32768) n unfixed_table).
  change (2 ^ Z.of_nat 16) with 65536. lia.
Qed.

Local Open Scope Q_scope.

(** A coordinate whose hundredfold has an integer part of 16 bits comes
    back within the carried tolerance: the product is rounded (one unit
    in the last place), truncated (less than 1) and the division by 100
    is rounded again. *)
Lemma coordinate_close (c : F32.float) (z : Z) :
  F32.truncate (F32.mul c (F32.of_int 100)) = Some z ->
  (-32768 <= z <= 32767)%Z ->
  Qabs (F32.to_Q (unfixed z) - F32.to_Q c) <= carried_tolerance.
Proof.
  intros Ht Hz. unfold carried_tolerance.
  pose proof (F32Facts.mul_hundred_error c z Ht) as H1.
  pose proof (truncate_close _ z Ht) as H2.
  pose proof (unfixed_near z Hz) as H3.
  set (fl := F32.to_Q (F32.mul c (F32.of_int 100))) in *.
  set (x := F32.to_Q c) in *.
  set (u := F32.to_Q (unfixed z)) in *.
  assert (Ez : z # 100 == inject_Z z * (1 # 100)).
  { rewrite Qmake_Qdiv. unfold Qdiv. change (/ inject_Z 100) with (1 # 100). reflexivity. }
  rewrite Ez in H3.
  assert (Hlo : inject_Z (-32768) <= inject_Z z) by (rewrite <- Zle_Qle; lia).
  assert (Hhi : inject_Z z <= inject_Z 32767) by (rewrite <- Zle_Qle; lia).
  change (inject_Z (-32768)) with (-32768 # 1) in Hlo.
  change (inject_Z 32767) with (32767 # 1) in Hhi.
  set (zq := inject_Z z) in *.
  apply Qabs_Qlt_condition in H2. destruct H2 as [H2a H2b].
  apply Qabs_Qle_condition in H3. destruct H3 as [H3a H3b].
  assert (Hfl : Qabs fl <= 32769 # 1).
  { apply Qabs_Qle_condition. split; lra. }
  set (a := Qabs fl) in *.
  apply Qabs_Qle_condition in H1. destruct H1 as [H1a H1b].
  apply Qabs_Qle_condition. split; lra.
Qed.

Local Close Scope Q_scope.

(** C6, as the claim states it, fails for a player at x = 17.97 (the
    binary32 number nearest to it): the hundredfold rounds below 1797,
    1796 is sent, and the client computes 17.96, which is more than a
    hundredth away. *)
Lemma hundredth_is_exceeded : ~ round_trip_claim table_17_97.
Proof.
  intros H.
  assert (Hr : Forall (fun sp => in_range (snd sp)) table_17_97).
  { repeat constructor; cbn; lia. }
  destruct (H Hr _ (or_introl eq_refl)) as [q [Hq [_ [_ [_ [Hx _]]]]]].
  vm_compute in Hq. destruct Hq as [<-|[]].
  vm_compute in Hx. discriminate.
Qed.

(** C6, amended.  For a table of at most 255 players whose ids, states
    and scores fit their wire fields, the GAME_STATE_UPDATE packet is
    framed whole and decoding it stores, player by player in packet
    order, the id, the state, the score and the jetpack flag that were
    encoded, and for each coordinate the number [n / 100] where [n] is
    the 16-bit fixed-point value sent; a client that knew no player and
    receives distinct ids ends with exactly those players.  The value
    [n] is the integer part of the coordinate times 100 whenever that
    fits 16 bits, less than 1 away from that product, and the decoded
    coordinate is then within 0.0101 of the original. *)
Theorem game_state_round_trip (players : list (Z * Player)) (known : list Player) :
  Z.of_nat (length players) <= 255 ->
  Forall (fun sp => in_range (snd sp)) players ->
  let packet := Broadcaster.gameStatePacket players in
  let size := Z.of_nat (length packet) in
  Client.getPacketSize packet size = size
  /\ Client.handleGameStateUpdate packet size known
     = fold_left Client.storeUpdate
                 (map (fun sp => wire_view (snd sp)) players) known
  /\ (NoDup (map (fun sp => m_id (snd sp)) players) ->
      Client.handleGameStateUpdate packet size []
      = map (fun sp => received (snd sp)) players)
  /\ (forall (c : F32.float) (z : Z),
         F32.truncate (F32.mul c (F32.of_int 100)) = Some z ->
         -32768 <= z <= 32767 ->
         fixed c = z
         /\ Qlt (Qabs (inject_Z z - F32.to_Q (F32.mul c (F32.of_int 100)))) 1
         /\ F32.within carried_tolerance (unfixed (fixed c)) c = true).
Proof.
  intros Hn Hall packet size.
  assert (Hsize : size = 2 + Z.of_nat (length players) * 10)
    by apply length_gameStatePacket.
  assert (Hcount : Client.byte_at packet 1 = Z.of_nat (length players)).
  { unfold packet. rewrite gameStatePacket_eq. unfold Client.byte_at. cbn [nth].
    apply Z_of_byte_of_Z. lia. }
  assert (Hexp : to_size_t (2 + Z.of_nat (length players) * 10) = size).
  { rewrite Hsize. unfold to_size_t, wrap_unsigned.
    apply Z.mod_small. change (2 ^ 64) with 18446744073709551616. lia. }
  assert (Hdecode : forall known' : list Player,
             Client.handleGameStateUpdate packet size known'
             = fold_left Client.storeUpdate
                         (map (fun sp => wire_view (snd sp)) players) known').
  { intros known'. unfold Client.handleGameStateUpdate.
    destruct (size <? 2) eqn:E2; [lia|].
    rewrite Hcount, Hexp, Z.ltb_irrefl, Nat2Z.id.
    unfold packet. rewrite gameStatePacket_eq.
    change (x06 :: byte_of_Z (Z.of_nat (length players))
                :: concat (map record_bytes players))
      with ([x06; byte_of_Z (Z.of_nat (length players))]
              ++ concat (map record_bytes players)).
    rewrite <- (app_nil_r (concat (map record_bytes players))).
    apply stateUpdateLoop_records; [reflexivity | assumption]. }
  split; [|split; [|split]].
  - unfold Client.getPacketSize.
    destruct (size <? 1) eqn:E1; [lia|].
    replace (PacketType_of_byte (nth 0 packet x00)) with (Some GAME_STATE_UPDATE)
      by (unfold packet; rewrite gameStatePacket_eq; reflexivity).
    destruct (size <? 2) eqn:E2; [lia|].
    rewrite Hcount, Hexp. unfold Client.sized. rewrite Z.leb_refl. reflexivity.
  - apply Hdecode.
  - intros Hnd. rewrite Hdecode.
    rewrite <- (map_map snd wire_view), <- (map_map snd received).
    apply (store_fresh_players (map snd players) []); [|constructor].
    rewrite map_map. exact Hnd.
  - intros c z Ht Hz. split; [apply fixed_truncates; assumption|].
    split; [apply truncate_close; assumption|].
    rewrite (fixed_truncates c z Ht Hz). apply Qle_bool_iff.
    apply coordinate_close; assumption.
Qed.

(** The amended C6 on the table with the player at 17.97: the client
    holds that player with x = 1796 / 100, within 0.0101 of 17.97. *)
Lemma game_state_round_trip_witness :
  Client.handleGameStateUpdate
    (Broadcaster.gameStatePacket table_17_97)
    (Z.of_nat (length (Broadcaster.gameStatePacket table_17_97))) []
  = [received (setState PLAYING (Samples.playerAt 4 1 x_17_97 F32.zero))]
  /\ fixed x_17_97 = 1796
  /\ F32.within carried_tolerance (unfixed (fixed x_17_97)) x_17_97 = true.
Proof.
  assert (Hn : Z.of_nat (length table_17_97) <= 255) by (simpl; lia).
  assert (Hr : Forall (fun sp => in_range (snd sp)) table_17_97).
  { constructor; [|constructor]. unfold in_range. simpl. lia. }
  destruct (game_state_round_trip table_17_97 [] Hn Hr) as [_ [_ [H3 H4]]].
  split; [|split].
  - apply H3. constructor; [|constructor]. intros Hin. inversion Hin.
  - apply (H4 x_17_97 1796); [reflexivity | lia].
  - apply (H4 x_17_97 1796); [reflexivity | lia].
Defined.

End WireFacts.
(** * The receive loop cuts the byte stream into packets *)

Module StreamFacts.

Import MachineInt Protocol Client.

Import Frames.

Lemma sized_cases (need maxSize : Z) :
  sized need maxSize = 0 \/ (sized need maxSize = need /\ need <= maxSize).
Proof. unfold sized. destruct (need <=? maxSize) eqn:E; [right; lia | left; reflexivity]. Qed.

Lemma sized_more (need maxSize maxSize' : Z) :
  sized need maxSize <> 0 -> maxSize <= maxSize' ->
  sized need maxSize' = sized need maxSize.
Proof.
  unfold sized. intros H Hle.
  destruct (need <=? maxSize) eqn:E; [|congruence].
  destruct (need <=? maxSize') eqn:E'; [reflexivity | lia].
Qed.

Lemma to_size_t_nonneg (z : Z) : 0 <= to_size_t z.
Proof. unfold to_size_t, wrap_unsigned. apply Z.mod_pos_bound. reflexivity. Qed.

(** [getPacketSize] never reports more than the bytes it was given. *)
Lemma getPacketSize_bounds (data : list byte) (maxSize : Z) :
  getPacketSize data maxSize = 0
  \/ 1 <= getPacketSize data maxSize <= maxSize.
Proof.
  unfold getPacketSize.
  destruct (maxSize <? 1) eqn:E1; [left; reflexivity|].
  destruct (PacketType_of_byte (nth 0 data x00)) as [[]|];
    try (left; reflexivity);
    try (match goal with
         | |- context [sized ?n maxSize] =>
             destruct (sized_cases n maxSize) as [H|[H Hle]]; rewrite H;
             [left; reflexivity | right; lia]
         end).
  - destruct (maxSize <? 5); [left; reflexivity|].
    match goal with
    | |- context [sized ?n maxSize] =>
        destruct (sized_cases n maxSize) as [H|[H Hle]]; rewrite H;
        [left; reflexivity|]
    end.
    match goal with
    | |- context [to_size_t ?z] =>
        pose proof (to_size_t_nonneg z);
        destruct (Z.eq_dec (to_size_t z) 0) as [->|]; [left; reflexivity | right; lia]
    end.
  - destruct (maxSize <? 2) eqn:E2; [left; reflexivity|].
    match goal with
    | |- context [sized ?n maxSize] =>
        destruct (sized_cases n maxSize) as [H|[H Hle]]; rewrite H;
        [left; reflexivity|]
    end.
    match goal with
    | |- context [to_size_t ?z] =>
        pose proof (to_size_t_nonneg z);
        destruct (Z.eq_dec (to_size_t z) 0) as [->|]; [left; reflexivity | right; lia]
    end.
Qed.

Lemma size_of_bounds (b : list byte) :
  size_of b = 0 \/ 1 <= size_of b <= Z.of_nat (length b).
Proof. apply getPacketSize_bounds. Qed.

Lemma byte_at_app (b more : list byte) (i : nat) :
  (i < length b)%nat -> byte_at (b ++ more) i = byte_at b i.
Proof. intros H. unfold byte_at. rewrite app_nth1 by exact H. reflexivity. Qed.

Lemma le16_app (b more : list byte) (i : nat) :
  (i + 1 < length b)%nat -> le16 (b ++ more) i = le16 b i.
Proof. intros H. unfold le16. rewrite !byte_at_app by lia. reflexivity. Qed.

(** A size reported for a buffer stays the same when more bytes follow. *)
Lemma size_of_app (b more : list byte) :
  size_of b <> 0 -> size_of (b ++ more) = size_of b.
Proof.
  unfold size_of, getPacketSize. rewrite length_app, Nat2Z.inj_add.
  set (L := Z.of_nat (length b)). set (M := Z.of_nat (length more)).
  assert (HM : 0 <= M) by (unfold M; lia).
  destruct (L <? 1) eqn:E1; [congruence|].
  assert (HL : (1 <= length b)%nat) by (unfold L in E1; lia).
  destruct (L + M <? 1) eqn:E1'; [lia|].
  rewrite app_nth1 by lia.
  destruct (PacketType_of_byte (nth 0 b x00)) as [[]|]; try congruence;
    try (intros H; apply sized_more; [exact H | lia]).
  - destruct (L <? 5) eqn:E5; [congruence|].
    destruct (L + M <? 5) eqn:E5'; [lia|].
    assert (H5 : (5 <= length b)%nat) by (unfold L in E5; lia).
    rewrite !le16_app by lia.
    intros H; apply sized_more; [exact H | lia].
  - destruct (L <? 2) eqn:E2; [congruence|].
    destruct (L + M <? 2) eqn:E2'; [lia|].
    assert (H2 : (2 <= length b)%nat) by (unfold L in E2; lia).
    rewrite byte_at_app by lia.
    intros H; apply sized_more; [exact H | lia].
Qed.

Lemma cut_nil (fuel : nat) : cut fuel [] = ([], []).
Proof. destruct fuel; reflexivity. Qed.

Lemma cut_step (fuel : nat) (b : list byte) :
  b <> [] -> size_of b <> 0 ->
  cut (S fuel) b
  = (take (Z.to_nat (size_of b)) b :: fst (cut fuel (drop (Z.to_nat (size_of b)) b)),
     snd (cut fuel (drop (Z.to_nat (size_of b)) b))).
Proof.
  intros Hb Hn. cbn [cut]. destruct b as [|x b']; [congruence|].
  destruct (size_of (x :: b') =? 0) eqn:E; [lia|].
  destruct (cut fuel _); reflexivity.
Qed.

Lemma cut_stop (fuel : nat) (b : list byte) :
  size_of b = 0 -> cut fuel b = ([], b).
Proof.
  intros H. destruct fuel; [reflexivity|]. cbn [cut].
  destruct b; [reflexivity|]. rewrite H. reflexivity.
Qed.

Lemma length_drop_size (b : list byte) :
  size_of b <> 0 -> (length (drop (Z.to_nat (size_of b)) b) < length b)%nat.
Proof.
  intros H. destruct (size_of_bounds b) as [|Hb]; [congruence|].
  rewrite length_drop. lia.
Qed.

(** One round more than the bytes at hand changes nothing. *)
Lemma cut_more (fuel : nat) : forall b : list byte,
  (length b <= fuel)%nat -> cut (S fuel) b = cut fuel b.
Proof.
  induction fuel as [|f IH]; intros b Hb.
  - destruct b; [reflexivity | simpl in Hb; lia].
  - destruct b as [|x b']; [reflexivity|].
    destruct (Z.eq_dec (size_of (x :: b')) 0) as [E|E].
    + rewrite !cut_stop by exact E. reflexivity.
    + rewrite (cut_step (S f) (x :: b')), (cut_step f (x :: b'))
        by (congruence || exact E).
      pose proof (length_drop_size _ E).
      rewrite IH by lia. reflexivity.
Qed.

Lemma cut_fuel (fuel : nat) (b : list byte) :
  (length b <= fuel)%nat -> cut fuel b = cut (length b) b.
Proof.
  intros H. replace fuel with ((fuel - length b) + length b)%nat by lia.
  induction (fuel - length b)%nat as [|d IH]; [reflexivity|].
  cbn [Nat.add]. rewrite cut_more by lia. exact IH.
Qed.

(** The loop neither loses nor invents a byte. *)
Lemma cut_conserves (fuel : nat) : forall (b : list byte),
  concat (fst (cut fuel b)) ++ snd (cut fuel b) = b.
Proof.
  induction fuel as [|f IH]; intros b; [reflexivity|].
  destruct b as [|x b']; [reflexivity|].
  destruct (Z.eq_dec (size_of (x :: b')) 0) as [E|E].
  - rewrite cut_stop by exact E. reflexivity.
  - rewrite (cut_step f (x :: b')) by (congruence || exact E). cbn [fst snd concat].
    rewrite <- app_assoc, IH. apply take_drop.
Qed.

(** With a round per byte the loop stops only at the end of the buffer
    or in front of bytes that are no whole packet. *)
Lemma cut_complete (fuel : nat) : forall b : list byte,
  (length b <= fuel)%nat ->
  snd (cut fuel b) = [] \/ size_of (snd (cut fuel b)) = 0.
Proof.
  induction fuel as [|f IH]; intros b Hb.
  - left. destruct b; [reflexivity | simpl in Hb; lia].
  - destruct b as [|x b']; [left; reflexivity|].
    destruct (Z.eq_dec (size_of (x :: b')) 0) as [E|E].
    + rewrite cut_stop by exact E. right. exact E.
    + rewrite (cut_step f (x :: b')) by (congruence || exact E). cbn [snd].
      pose proof (length_drop_size _ E). apply IH. lia.
Qed.

(** The loop of [networkLoop] is [cut] on the bytes not yet processed. *)
Lemma extractPackets_cut (fuel : nat) (buffer : list byte) :
  forall (processedBytes : Z) (handled : list (list byte)),
    0 <= processedBytes <= Z.of_nat (length buffer) ->
    extractPackets fuel buffer processedBytes handled
    = (Z.of_nat (length buffer)
       - Z.of_nat (length (snd (cut fuel (drop (Z.to_nat processedBytes) buffer)))),
       handled ++ fst (cut fuel (drop (Z.to_nat processedBytes) buffer))).
Proof.
  induction fuel as [|f IH]; intros p handled Hp.
  - cbn [extractPackets cut fst snd]. rewrite length_drop, app_nil_r. f_equal. lia.
  - cbn [extractPackets].
    set (rest := drop (Z.to_nat p) buffer).
    assert (Hrest : Z.of_nat (length rest) = Z.of_nat (length buffer) - p)
      by (unfold rest; rewrite length_drop; lia).
    destruct (p <? Z.of_nat (length buffer)) eqn:Elt.
    + rewrite <- Hrest. fold (size_of rest).
      destruct (Z.eq_dec (size_of rest) 0) as [E|E].
      * rewrite E. cbn [Z.eqb]. rewrite cut_stop by exact E. cbn [fst snd].
        rewrite app_nil_r. f_equal. lia.
      * destruct (size_of rest =? 0) eqn:E0; [lia|].
        destruct (size_of_bounds rest) as [|Hb]; [congruence|].
        assert (Hne : rest <> []).
        { intros Hnil. rewrite Hnil in Hrest. simpl in Hrest. lia. }
        rewrite IH by lia.
        rewrite (cut_step f rest Hne E). cbn [fst snd].
        replace (drop (Z.to_nat (p + size_of rest)) buffer)
          with (drop (Z.to_nat (size_of rest)) rest).
        { rewrite <- app_assoc. reflexivity. }
        subst rest. rewrite drop_drop. f_equal. lia.
    + assert (Hnil : rest = []).
      { apply length_zero_iff_nil. lia. }
      rewrite Hnil, cut_nil. cbn [fst snd length]. rewrite app_nil_r. f_equal. lia.
Qed.

Lemma drop_suffix (pre rest : list byte) :
  drop (length (pre ++ rest) - length rest) (pre ++ rest) = rest.
Proof.
  rewrite length_app. replace (length pre + length rest - length rest)%nat
    with (length pre) by lia.
  apply drop_app_length.
Qed.

(** One [recv]: the packets and the retained bytes are those [cut] yields. *)
Lemma onReceive_cut (accumulated received : list byte) :
  onReceive accumulated received
  = cut (length (accumulated ++ received)) (accumulated ++ received).
Proof.
  unfold onReceive. set (buffer := accumulated ++ received).
  rewrite extractPackets_cut by lia. change (Z.to_nat 0) with 0%nat.
  rewrite drop_0. cbn [app].
  pose proof (cut_conserves (length buffer) buffer) as Hc.
  destruct (cut (length buffer) buffer) as [pkts rest] eqn:Ecut. cbn [fst snd] in *.
  f_equal.
  assert (Hd : drop (Z.to_nat (Z.of_nat (length buffer) - Z.of_nat (length rest))) buffer
               = rest).
  { rewrite <- Hc at 2. rewrite <- Hc at 1.
    replace (Z.to_nat (Z.of_nat (length (concat pkts ++ rest)) - Z.of_nat (length rest)))
      with (length (concat pkts ++ rest) - length rest)%nat by lia.
    apply drop_suffix. }
  destruct (0 <? Z.of_nat (length buffer) - Z.of_nat (length rest)) eqn:E.
  - exact Hd.
  - assert (Hz : Z.to_nat (Z.of_nat (length buffer) - Z.of_nat (length rest)) = 0%nat)
      by lia.
    rewrite Hz in Hd. exact Hd.
Qed.

(** Bytes that arrive after a cut continue it. *)
Lemma cut_app (fuel : nat) : forall (b more : list byte) (fuel' : nat),
  (length b <= fuel)%nat -> (length (b ++ more) <= fuel')%nat ->
  cut fuel' (b ++ more)
  = (fst (cut fuel b) ++ fst (cut fuel' (snd (cut fuel b) ++ more)),
     snd (cut fuel' (snd (cut fuel b) ++ more))).
Proof.
  induction fuel as [|f IH]; intros b more fuel' Hb Hb'.
  - destruct b; [|simpl in Hb; lia]. cbn [cut fst snd app].
    destruct (cut fuel' more); reflexivity.
  - destruct b as [|x b']; [cbn [cut fst snd app]; destruct (cut fuel' more); reflexivity|].
    destruct (Z.eq_dec (size_of (x :: b')) 0) as [E|E].
    + rewrite (cut_stop (S f)) by exact E. cbn [fst snd app].
      destruct (cut fuel' _); reflexivity.
    + rewrite (cut_step f (x :: b')) by (congruence || exact E). cbn [fst snd].
      destruct fuel' as [|f']; [simpl in Hb'; lia|].
      pose proof (size_of_app (x :: b') more E) as Happ.
      destruct (size_of_bounds (x :: b')) as [|Hn]; [congruence|].
      set (n := size_of (x :: b')) in *.
      rewrite (cut_step f' ((x :: b') ++ more)) by (rewrite ?Happ; (discriminate || exact E)).
      rewrite Happ.
      rewrite take_app_le, drop_app_le by lia.
      pose proof (length_drop_size _ E) as Hd. fold n in Hd.
      rewrite length_app in Hb'.
      rewrite (IH (drop (Z.to_nat n) (x :: b')) more f')
        by (rewrite ?length_app; lia).
      set (rest := snd (cut f (drop (Z.to_nat n) (x :: b')))).
      assert (Hrest : (length rest <= length (drop (Z.to_nat n) (x :: b')))%nat).
      { pose proof (f_equal length (cut_conserves f (drop (Z.to_nat n) (x :: b')))) as Hc.
        fold rest in Hc. rewrite length_app in Hc. lia. }
      rewrite (cut_more f') by (rewrite length_app; lia).
      reflexivity.
Qed.

(** Two [recv] calls in a row against one call with all the bytes. *)
Lemma onReceive_app (accumulated first second : list byte) :
  onReceive accumulated (first ++ second)
  = (fst (onReceive accumulated first)
       ++ fst (onReceive (snd (onReceive accumulated first)) second),
     snd (onReceive (snd (onReceive accumulated first)) second)).
Proof.
  rewrite !onReceive_cut. rewrite app_assoc.
  set (b := accumulated ++ first).
  rewrite (cut_app (length b) b second (length (b ++ second))) by lia.
  set (rest := snd (cut (length b) b)).
  assert (Hrest : (length rest <= length b)%nat).
  { pose proof (f_equal length (cut_conserves (length b) b)) as Hc.
    fold rest in Hc. rewrite length_app in Hc. lia. }
  rewrite (cut_fuel (length (b ++ second)) (rest ++ second))
    by (rewrite !length_app; lia).
  reflexivity.
Qed.

(** The packets cut from a stream do not depend on how the stream was
    split over two [recv] calls: receiving [first] and then [second]
    processes, in the same order, the packets that receiving both at
    once processes, and retains the same bytes. *)
Theorem receive_in_two_parts (accumulated first second : list byte) :
  let one := onReceive accumulated first in
  let two := onReceive (snd one) second in
  onReceive accumulated (first ++ second) = (fst one ++ fst two, snd two).
Proof. cbv zeta. apply onReceive_app. Qed.

(** One [recv] neither loses nor invents a byte, and what it retains is
    empty or not yet a whole packet. *)
Theorem receive_conserves_bytes (accumulated received : list byte) :
  concat (fst (onReceive accumulated received))
    ++ snd (onReceive accumulated received)
  = accumulated ++ received
  /\ (snd (onReceive accumulated received) = []
      \/ size_of (snd (onReceive accumulated received)) = 0).
Proof.
  rewrite onReceive_cut. split; [apply cut_conserves | apply cut_complete; lia].
Qed.

Lemma cut_framed (pkts : list (list byte)) (tail : list byte) :
  forall fuel : nat,
    Forall framed pkts ->
    (length (concat pkts ++ tail) <= fuel)%nat ->
    tail = [] \/ size_of tail = 0 ->
    cut fuel (concat pkts ++ tail) = (pkts, tail).
Proof.
  induction pkts as [|p pkts IH]; intros fuel Hall Hfuel Htail.
  - cbn [concat app]. destruct Htail as [->|E]; [apply cut_nil | apply cut_stop; exact E].
  - inversion Hall as [|? ? [Hne Hsize] Hrest]; subst.
    cbn [concat]. rewrite <- app_assoc.
    destruct fuel as [|f].
    { cbn [concat] in Hfuel. rewrite !length_app in Hfuel.
      destruct p; [congruence | simpl in Hfuel; lia]. }
    assert (Hp : (1 <= length p)%nat) by (destruct p; [congruence | simpl; lia]).
    rewrite cut_step.
    + rewrite (Hsize (concat pkts ++ tail)). rewrite Nat2Z.id.
      rewrite take_app_length, drop_app_length.
      rewrite IH; [reflexivity | exact Hrest | | exact Htail].
      cbn [concat] in Hfuel. rewrite !length_app in Hfuel. rewrite length_app. lia.
    + destruct p; [congruence | discriminate].
    + rewrite (Hsize (concat pkts ++ tail)). lia.
Qed.

(** [getPacketSize] never overruns the buffer: the size it reports is
    0 or between 1 and the number of readable bytes, it is 0 for an
    empty buffer, and a size it has reported does not change when more
    bytes arrive behind the same ones. *)
Theorem getPacketSize_never_overruns (data more : list byte) (maxSize : Z) :
  (getPacketSize data maxSize = 0 \/ 1 <= getPacketSize data maxSize <= maxSize)
  /\ (maxSize <= 0 -> getPacketSize data maxSize = 0)
  /\ (size_of data <> 0 -> size_of (data ++ more) = size_of data).
Proof.
  split; [apply getPacketSize_bounds|]. split; [|apply size_of_app].
  intros H. unfold getPacketSize. destruct (maxSize <? 1) eqn:E; [reflexivity | lia].
Qed.

End StreamFacts.

(** * Packet layouts *)

Module PacketFacts.

Import MachineInt Protocol Client.

Import Frames Layout.

Lemma to_int_small (z : Z) : INT_MIN <= z <= INT_MAX -> to_int z = z.
Proof.
  unfold INT_MIN, INT_MAX, to_int, wrap_signed. intros H.
  change (2 ^ (32 - 1)) with 2147483648. change (2 ^ 32) with 4294967296.
  rewrite Z.mod_small by lia. lia.
Qed.

Lemma to_size_t_small (z : Z) : 0 <= z < 2 ^ 64 -> to_size_t z = z.
Proof. intros H. unfold to_size_t, wrap_unsigned. apply Z.mod_small. exact H. Qed.

Lemma to_uint16_small (z : Z) : 0 <= z <= 65535 -> to_uint16 z = z.
Proof.
  intros H. unfold to_uint16, wrap_unsigned. change (2 ^ 16) with 65536.
  apply Z.mod_small. lia.
Qed.

Lemma to_uint8_range (z : Z) : 0 <= to_uint8 z <= 255.
Proof.
  unfold to_uint8, wrap_unsigned. change (2 ^ 8) with 256.
  pose proof (Z.mod_pos_bound z 256). lia.
Qed.

(** A byte written with [addByte] is read back reduced modulo 256. *)
Lemma Z_of_byte_of_Z_mod (z : Z) : Z_of_byte (byte_of_Z z) = z mod 256.
Proof.
  pose proof (to_uint8_range z) as Hr.
  assert (E : byte_of_Z z = byte_of_Z (to_uint8 z)).
  { unfold byte_of_Z. f_equal. f_equal. f_equal. unfold to_uint8, wrap_unsigned.
    change (2 ^ 8) with 256. rewrite Z.mod_mod by lia. reflexivity. }
  rewrite E. rewrite WireFacts.Z_of_byte_of_Z by exact Hr. reflexivity.
Qed.

(** [addByte] in a loop appends one byte per element. *)
Lemma fold_addByte {A : Type} (g : A -> Z) (l : list A) :
  forall pkt : NetworkPacket,
    fold_left (fun pkt a => addByte (g a) pkt) l pkt
    = mkPacket (type pkt) (data pkt ++ map (fun a => byte_of_Z (g a)) l).
Proof.
  induction l as [|a l IH]; intros pkt.
  - cbn [fold_left map]. rewrite app_nil_r. destruct pkt; reflexivity.
  - cbn [fold_left map]. rewrite IH. unfold addByte. cbn [type data].
    rewrite <- app_assoc. reflexivity.
Qed.

Lemma length_cells (h w : nat) : length (Server.cells h w) = (h * w)%nat.
Proof.
  unfold Server.cells. generalize 0%nat at 2.
  induction h as [|h IH]; intros start; [reflexivity|].
  cbn [seq flat_map]. rewrite length_app, length_map, length_seq, IH. lia.
Qed.

Lemma le16_short (v : Z) (pre post : list byte) :
  le16 (pre ++ short_lo v :: short_hi v :: post) (length pre) = to_uint16 v.
Proof.
  unfold le16, byte_at.
  rewrite app_nth2 by lia. rewrite Nat.sub_diag.
  rewrite app_nth2 by lia. replace (length pre + 1 - length pre)%nat with 1%nat by lia.
  cbn [nth]. apply WireFacts.short_read. apply WireFacts.to_uint16_range.
Qed.

Lemma mapDataPacket_eq (m : GameMap) :
  Server.mapDataPacket m
  = [x03; short_lo (width m); short_hi (width m);
     short_lo (height m); short_hi (height m)]
      ++ map (fun yx => byte_of_Z (TileType_value
                 (default EMPTY (Server.grid_get yx.1 yx.2 (tiles m)))))
             (Server.cells (Z.to_nat (height m)) (Z.to_nat (width m)))
      ++ map (fun yx => byte_of_Z (CoinState_value
                 (default AVAILABLE (Server.grid_get yx.1 yx.2 (coinStates m)))))
             (Server.cells (Z.to_nat (height m)) (Z.to_nat (width m))).
Proof.
  unfold Server.mapDataPacket.
  rewrite (fold_addByte (fun yx => TileType_value
             (default EMPTY (Server.grid_get yx.1 yx.2 (tiles m))))).
  rewrite (fold_addByte (fun yx => CoinState_value
             (default AVAILABLE (Server.grid_get yx.1 yx.2 (coinStates m))))).
  unfold serialize, addShort, newPacket. cbn [type data app].
  reflexivity.
Qed.

Lemma length_mapDataPacket (m : GameMap) :
  0 <= width m -> 0 <= height m ->
  Z.of_nat (length (Server.mapDataPacket m)) = 5 + 2 * (width m * height m).
Proof.
  intros Hw Hh. rewrite mapDataPacket_eq.
  rewrite length_app. cbn [length]. rewrite length_app, !length_map, length_cells.
  lia.
Qed.

End PacketFacts.

(** * Grids filled cell by cell *)

Module GridFacts.

Import MachineInt Protocol.

Import Grid GridSpec.

Lemma fold_left_pointwise {S B : Type} (f g : S -> B -> S) (l : list B) :
  (forall s b, f s b = g s b) ->
  forall s : S, fold_left f l s = fold_left g l s.
Proof.
  intros H. induction l as [|b l IH]; intros s; [reflexivity|].
  cbn [fold_left]. rewrite H. apply IH.
Qed.

Lemma existsb_pointwise {B : Type} (f g : B -> bool) (l : list B) :
  (forall b, f b = g b) -> existsb f l = existsb g l.
Proof.
  intros H. induction l as [|b l IH]; [reflexivity|].
  cbn [existsb]. rewrite H, IH. reflexivity.
Qed.

Section Rows.

Context {A : Type}.

(** Assigning the cells [0 .. n-1] of a row. *)
Lemma fill_row_prefix (f : nat -> A) (n : nat) : forall row : list A,
  (n <= length row)%nat ->
  fold_left (fun r x => <[x := f x]> r) (seq 0 n) row
  = map f (seq 0 n) ++ drop n row.
Proof.
  induction n as [|n IH]; intros row Hn; [reflexivity|].
  rewrite seq_S, fold_left_app, map_app. cbn [fold_left map Nat.add].
  rewrite IH by lia.
  destruct (drop n row) as [|a rest] eqn:Ed.
  { apply (f_equal length) in Ed. rewrite length_drop in Ed. simpl in Ed. lia. }
  assert (Erest : drop (S n) row = rest).
  { replace (S n) with (n + 1)%nat by lia. rewrite <- drop_drop, Ed. reflexivity. }
  rewrite Erest.
  rewrite insert_app_r_alt by (rewrite length_map, length_seq; lia).
  rewrite length_map, length_seq, Nat.sub_diag. cbn.
  rewrite <- app_assoc. reflexivity.
Qed.

Lemma fill_row (f : nat -> A) (row : list A) :
  fold_left (fun r x => <[x := f x]> r) (seq 0 (length row)) row
  = map f (seq 0 (length row)).
Proof. rewrite fill_row_prefix by lia. rewrite drop_all. apply app_nil_r. Qed.

(** The inner loop touches the row [y] only. *)
Lemma fill_row_of_grid (f : nat -> A) (y : nat) (xs : list nat) :
  forall g : list (list A),
    fold_left (fun g x => Server.grid_set y x (f x) g) xs g
    = alter (fun row => fold_left (fun r x => <[x := f x]> r) xs row) y g.
Proof.
  induction xs as [|x xs IH]; intros g.
  - cbn [fold_left]. symmetry. apply list_alter_id. reflexivity.
  - cbn [fold_left]. rewrite IH. unfold Server.grid_set.
    rewrite list_alter_alter_eq. reflexivity.
Qed.

(** Altering the rows [0 .. n-1], each to a value that does not depend
    on what the row held. *)
Lemma alter_rows_prefix (F : nat -> list A -> list A) (R : nat -> list A)
      (n : nat) : forall g : list (list A),
  (n <= length g)%nat ->
  (forall y row, (y < n)%nat -> g !! y = Some row -> F y row = R y) ->
  fold_left (fun g y => alter (F y) y g) (seq 0 n) g
  = map R (seq 0 n) ++ drop n g.
Proof.
  induction n as [|n IH]; intros g Hn HF; [reflexivity|].
  rewrite seq_S, fold_left_app, map_app. cbn [fold_left map Nat.add].
  rewrite IH by (try lia; intros y row Hy; apply HF; lia).
  destruct (drop n g) as [|a rest] eqn:Ed.
  { apply (f_equal length) in Ed. rewrite length_drop in Ed. simpl in Ed. lia. }
  assert (Erest : drop (S n) g = rest).
  { replace (S n) with (n + 1)%nat by lia. rewrite <- drop_drop, Ed. reflexivity. }
  assert (Ea : g !! n = Some a).
  { rewrite <- (Nat.add_0_r n), <- lookup_drop, Ed. reflexivity. }
  rewrite Erest.
  rewrite alter_app_r_alt by (rewrite length_map, length_seq; lia).
  rewrite length_map, length_seq, Nat.sub_diag. cbn.
  rewrite (HF n a) by (lia || exact Ea).
  rewrite <- app_assoc. reflexivity.
Qed.

(** On a grid of the right size the two loops build the table of [f]. *)
Lemma fill_grid_rectangular (f : nat -> nat -> A) (h w : nat)
      (g : list (list A)) :
  rectangular h w g -> fill_grid f h w g = tabulate f h w.
Proof.
  intros [Hh Hw]. unfold fill_grid, tabulate.
  rewrite (fold_left_pointwise _
             (fun g y => alter (fun row => fold_left (fun r x => <[x := f y x]> r)
                                                     (seq 0 w) row) y g))
    by (intros g' y; apply fill_row_of_grid).
  rewrite (alter_rows_prefix _ (fun y => map (fun x => f y x) (seq 0 w)) h g).
  - rewrite <- Hh, drop_all. apply app_nil_r.
  - lia.
  - intros y row _ Hrow.
    assert (Hlen : length row = w).
    { exact (Forall_lookup_1 _ _ _ _ Hw Hrow). }
    rewrite <- Hlen. apply fill_row.
Qed.

Lemma tabulate_ext (f f' : nat -> nat -> A) (h w : nat) :
  (forall y x, (y < h)%nat -> (x < w)%nat -> f y x = f' y x) ->
  tabulate f h w = tabulate f' h w.
Proof.
  intros H. unfold tabulate. apply map_ext_in. intros y Hy.
  apply map_ext_in. intros x Hx. apply in_seq in Hy, Hx. apply H; lia.
Qed.

Lemma rectangular_tabulate (f : nat -> nat -> A) (h w : nat) :
  rectangular h w (tabulate f h w).
Proof.
  unfold rectangular, tabulate. split; [rewrite length_map, length_seq; reflexivity|].
  apply Forall_lookup_2. intros y row Hrow.
  rewrite list_lookup_fmap in Hrow.
  destruct (seq 0 h !! y); [|discriminate]. cbn in Hrow. inversion Hrow.
  rewrite length_map, length_seq. reflexivity.
Qed.

Lemma rectangular_replicate (h w : nat) (v : A) :
  rectangular h w (replicate h (replicate w v)).
Proof.
  split; [apply length_replicate|].
  apply Forall_lookup_2. intros y row Hrow.
  apply lookup_replicate in Hrow. destruct Hrow as [-> _]. apply length_replicate.
Qed.

Lemma grid_get_rectangular (h w y x : nat) (g : list (list A)) :
  rectangular h w g -> (y < h)%nat -> (x < w)%nat ->
  exists v, Server.grid_get y x g = Some v.
Proof.
  intros [Hh Hw] Hy Hx. unfold Server.grid_get.
  destruct (lookup_lt_is_Some_2 g y) as [row Hrow]; [lia|]. rewrite Hrow.
  assert (Hlen : length row = w).
  { exact (Forall_lookup_1 _ _ _ _ Hw Hrow). }
  destruct (lookup_lt_is_Some_2 row x) as [v Hv]; [lia|]. exists v. exact Hv.
Qed.

Lemma grid_get_tabulate (f : nat -> nat -> A) (h w y x : nat) :
  (y < h)%nat -> (x < w)%nat ->
  Server.grid_get y x (tabulate f h w) = Some (f y x).
Proof.
  intros Hy Hx. unfold Server.grid_get, tabulate.
  rewrite list_lookup_fmap, lookup_seq_lt by lia. cbn.
  rewrite list_lookup_fmap, lookup_seq_lt by lia. reflexivity.
Qed.

End Rows.

(** A rectangular grid is the table of its cells. *)
Lemma tabulate_cells {A B : Type} (v : A -> B) (d : A) (h w : nat)
      (g : list (list A)) :
  rectangular h w g ->
  tabulate (fun y x => v (default d (Server.grid_get y x g))) h w
  = map (map v) g.
Proof.
  intros [Hh Hw]. unfold tabulate. apply list_eq. intros y.
  rewrite !list_lookup_fmap.
  destruct (decide (y < h)%nat) as [Hy|Hy].
  - rewrite lookup_seq_lt by lia.
    destruct (lookup_lt_is_Some_2 g y) as [row Hrow]; [lia|]. rewrite Hrow. cbn.
    f_equal.
    assert (Hlen : length row = w).
    { exact (Forall_lookup_1 _ _ _ _ Hw Hrow). }
    apply list_eq. intros x. rewrite !list_lookup_fmap.
    destruct (decide (x < w)%nat) as [Hx|Hx].
    + rewrite lookup_seq_lt by lia.
      destruct (lookup_lt_is_Some_2 row x) as [a Ha]; [lia|]. rewrite Ha. cbn.
      unfold Server.grid_get. rewrite Hrow, Ha. reflexivity.
    + rewrite lookup_seq_ge by lia. rewrite lookup_ge_None_2 by lia. reflexivity.
  - rewrite lookup_seq_ge by lia. rewrite lookup_ge_None_2 by lia. reflexivity.
Qed.

Lemma resize_nil {A : Type} (n : nat) (v : A) :
  Server.resize n v [] = replicate n v.
Proof. unfold Server.resize. rewrite take_nil. cbn. f_equal. lia. Qed.

(** The cell [(y, x)] is the element [y * w + x] of the row-major list. *)
Lemma cells_lookup (w : nat) (h : nat) : forall (start y x : nat),
  (y < h)%nat -> (x < w)%nat ->
  flat_map (fun y => map (fun x => (y, x)) (seq 0 w)) (seq start h)
    !! (y * w + x)%nat
  = Some ((start + y)%nat, x).
Proof.
  induction h as [|h IH]; intros start y x Hy Hx; [lia|].
  cbn [seq flat_map].
  destruct y as [|y].
  - rewrite lookup_app_l by (rewrite length_map, length_seq; lia).
    cbn [Nat.mul Nat.add]. rewrite list_lookup_fmap, lookup_seq_lt by lia.
    cbn. f_equal. f_equal. lia.
  - rewrite lookup_app_r by (rewrite length_map, length_seq; lia).
    rewrite length_map, length_seq.
    replace (S y * w + x - w)%nat with (y * w + x)%nat by lia.
    rewrite IH by lia. f_equal. f_equal. lia.
Qed.

End GridFacts.

(** * Loading the map file *)

Module MapFacts.

Import MachineInt Protocol.

Import Server GridSpec MapFileSpec.

Lemma rectangular_resize {A : Type} (h w : nat) (v : A) (g : list (list A)) :
  Forall (fun row => length row = w) g ->
  rectangular h w (resize h (replicate w v) g).
Proof.
  intros Hg. split; [apply SessionFacts.length_resize|].
  unfold resize. apply Forall_app. split.
  - apply Forall_take. exact Hg.
  - apply Forall_replicate. apply length_replicate.
Qed.

(** What [loadMap] returns for a file whose kept lines are uniform, on
    a map whose rows, if any, have the width of the file. *)
Lemma loadMap_uniform (content : list string) (m : GameMap) :
  uniform (lines_of content) ->
  Forall (fun row => Z.of_nat (length row)
                     = Z.of_nat (String.length (default EmptyString
                                                        (head (lines_of content)))))
         (tiles m) ->
  loadMap (Some content) m
  = (true,
     mkGameMap (Z.of_nat (String.length (default EmptyString
                                                 (head (lines_of content)))))
               (Z.of_nat (length (lines_of content)))
               (tiles_of (lines_of content))
               (resize (length (lines_of content))
                       (replicate (String.length (default EmptyString
                                                          (head (lines_of content))))
                                  AVAILABLE)
                       (coinStates m))).
Proof.
  unfold loadMap. fold (lines_of content).
  destruct (lines_of content) as [|first rest] eqn:El; [intros []|].
  intros (Hw & Hh & Hall) Hrows. cbn [head default] in *.
  set (lines := first :: rest) in *.
  assert (Ew : to_int (Z.of_nat (String.length first)) = Z.of_nat (String.length first)).
  { apply PacketFacts.to_int_small. unfold INT_MIN, INT_MAX in *. lia. }
  assert (Eh : to_int (Z.of_nat (length lines)) = Z.of_nat (length lines)).
  { apply PacketFacts.to_int_small. unfold INT_MIN, INT_MAX in *. lia. }
  rewrite Ew, Eh.
  assert (Esw : to_size_t (Z.of_nat (String.length first))
                = Z.of_nat (String.length first)).
  { apply PacketFacts.to_size_t_small. unfold INT_MAX in *.
    change (2 ^ 64) with 18446744073709551616. lia. }
  assert (Esh : to_size_t (Z.of_nat (length lines)) = Z.of_nat (length lines)).
  { apply PacketFacts.to_size_t_small. unfold INT_MAX in *.
    change (2 ^ 64) with 18446744073709551616. lia. }
  rewrite Esw, Esh, !Nat2Z.id.
  assert (Eex : existsb (fun line => negb (Z.of_nat (String.length line)
                                            =? Z.of_nat (String.length first)))
                        lines = false).
  { apply not_true_is_false. intros Hex. apply existsb_exists in Hex.
    destruct Hex as [line [Hin Hneq]].
    rewrite List.Forall_forall in Hall. specialize (Hall line Hin).
    rewrite Hall, Z.eqb_refl in Hneq. discriminate. }
  rewrite Eex. f_equal. f_equal.
  unfold fill_tiles. fold (Grid.fill_grid
    (fun y x => tile_of_char (char_at lines y x)) (length lines)
    (String.length first) (resize (length lines)
                                  (replicate (String.length first) EMPTY) (tiles m))).
  apply GridFacts.fill_grid_rectangular. apply rectangular_resize.
  eapply List.Forall_impl; [|exact Hrows]. cbn. intros row Hrow. lia.
Qed.

Lemma lines_of_nonempty (content : list string) (line : string) :
  In line (lines_of content) -> (1 <= String.length line)%nat.
Proof.
  unfold lines_of. rewrite <- list_elem_of_In, list_elem_of_filter.
  intros [H _]. destruct (String.length line =? 0)%nat eqn:E; [destruct H|].
  apply Nat.eqb_neq in E. lia.
Qed.

Lemma tiles_of_rectangular (lines : list string) :
  rectangular (length lines)
              (match lines with [] => O | first :: _ => String.length first end)
              (tiles_of lines).
Proof. apply GridFacts.rectangular_tabulate. Qed.

(** Loading a map.  From a file whose non-empty lines all have the
    length of the first, [loadMap] succeeds on the empty map of a new
    server (and the constructor builds the waiting server with it): the
    height is the number of those lines, the width their length, both
    at least 1; the grids have exactly that size; the tile of every
    cell is the one its character denotes and every coin is available.
    Within the sizes the wire can carry the result is a well-formed
    map. *)
Theorem loadMap_builds_the_file (content : list string) (serverSocket : Z) :
  uniform (lines_of content) ->
  let lines := lines_of content in
  let h := length lines in
  let w := String.length (default EmptyString (head lines)) in
  exists m : GameMap,
    loadMap (Some content) empty_map = (true, m)
    /\ init (Some content) serverSocket
       = Some (mkState m serverSocket [serverSocket] [] WAITING_FOR_PLAYERS [] [])
    /\ width m = Z.of_nat w /\ height m = Z.of_nat h
    /\ (1 <= w)%nat /\ (1 <= h)%nat
    /\ rectangular h w (tiles m) /\ rectangular h w (coinStates m)
    /\ (forall y x : nat,
           (y < h)%nat -> (x < w)%nat ->
           grid_get y x (tiles m)
           = Some (tile_of_char (char_at lines y x))
           /\ grid_get y x (coinStates m) = Some AVAILABLE)
    /\ (Z.of_nat w <= 65535 -> Z.of_nat h <= 65535 ->
        5 + 2 * (Z.of_nat w * Z.of_nat h) <= INT_MAX ->
        Layout.well_formed m).
Proof.
  intros Hu. cbv zeta.
  pose proof (loadMap_uniform content empty_map Hu (Forall_nil _)) as Hload.
  cbn [coinStates empty_map] in Hload. rewrite GridFacts.resize_nil in Hload.
  eexists. split; [exact Hload|].
  split; [unfold init; rewrite Hload; reflexivity|].
  cbn [width height tiles coinStates].
  destruct (lines_of content) as [|first rest] eqn:El; [destruct Hu|].
  cbn [head default length].
  assert (Hw1 : (1 <= String.length first)%nat).
  { apply (lines_of_nonempty content). rewrite El. left. reflexivity. }
  pose proof (tiles_of_rectangular (first :: rest)) as Hrt.
  cbn [length] in Hrt.
  pose proof (GridFacts.rectangular_replicate (S (length rest))
                (String.length first) AVAILABLE) as Hrc.
  split; [reflexivity|]. split; [reflexivity|].
  split; [exact Hw1|]. split; [lia|].
  split; [exact Hrt|]. split; [exact Hrc|]. split.
  - intros y x Hy Hx. split.
    + unfold tiles_of. cbn [length]. apply GridFacts.grid_get_tabulate; assumption.
    + unfold grid_get. rewrite lookup_replicate_2 by lia.
      apply lookup_replicate_2. lia.
  - intros Hw Hh Hsize. unfold Layout.well_formed. cbn [width height tiles coinStates].
    rewrite !Nat2Z.id.
    split; [lia|]. split; [lia|]. split; [exact Hsize|]. split; assumption.
Qed.

(** A file [loadMap] refuses.  A load that fails never touches the two
    grids.  Among files whose lines fit an [int], the load succeeds
    exactly on those with a non-empty line whose length all non-empty
    lines share; a file that cannot be opened, or without a non-empty
    line, leaves the whole map as it was, while ragged lines leave the
    new width and height written over the old grids. *)
Theorem loadMap_refuses (content : list string) (m : GameMap) :
  Z.of_nat (length (lines_of content)) <= INT_MAX ->
  Forall (fun line => Z.of_nat (String.length line) <= INT_MAX) (lines_of content) ->
  (forall file : MapFile,
      fst (loadMap file m) = false ->
      tiles (snd (loadMap file m)) = tiles m
      /\ coinStates (snd (loadMap file m)) = coinStates m)
  /\ loadMap None m = (false, m)
  /\ (lines_of content = [] -> loadMap (Some content) m = (false, m))
  /\ (fst (loadMap (Some content) m) = true <-> uniform (lines_of content))
  /\ (forall first rest,
         lines_of content = first :: rest ->
         fst (loadMap (Some content) m) = false ->
         loadMap (Some content) m
         = (false, mkGameMap (Z.of_nat (String.length first))
                             (Z.of_nat (length (first :: rest)))
                             (tiles m) (coinStates m))).
Proof.
  intros Hh Hlines.
  split.
  { intros file Hf. unfold loadMap in *. destruct file as [c|]; [|split; reflexivity].
    destruct (filter _ c) as [|first rest]; [split; reflexivity|].
    destruct (existsb _ _); [split; reflexivity | discriminate]. }
  split; [reflexivity|].
  split.
  { intros El. unfold loadMap. fold (lines_of content). rewrite El. reflexivity. }
  assert (Hshape : forall first rest,
             lines_of content = first :: rest ->
             loadMap (Some content) m
             = if existsb (fun line => negb (String.length line
                                             =? String.length first)%nat)
                          (first :: rest)
               then (false, mkGameMap (Z.of_nat (String.length first))
                                      (Z.of_nat (length (first :: rest)))
                                      (tiles m) (coinStates m))
               else (true, snd (loadMap (Some content) m))).
  { intros first rest El. unfold loadMap. fold (lines_of content). rewrite El.
    rewrite El in Hh, Hlines.
    assert (Hf : Z.of_nat (String.length first) <= INT_MAX).
    { inversion Hlines; assumption. }
    rewrite (PacketFacts.to_int_small (Z.of_nat (String.length first)))
      by (unfold INT_MIN, INT_MAX in *; lia).
    rewrite (PacketFacts.to_int_small (Z.of_nat (length (first :: rest))))
      by (unfold INT_MIN, INT_MAX in *; lia).
    rewrite (PacketFacts.to_size_t_small (Z.of_nat (String.length first)))
      by (unfold INT_MAX in *; change (2 ^ 64) with 18446744073709551616; lia).
    rewrite (GridFacts.existsb_pointwise
               (fun line => negb (Z.of_nat (String.length line)
                                  =? Z.of_nat (String.length first)))
               (fun line => negb (String.length line =? String.length first)%nat)).
    - destruct (existsb _ (first :: rest)); reflexivity.
    - intros line.
      destruct (String.length line =? String.length first)%nat eqn:E.
      + apply Nat.eqb_eq in E. rewrite E, Z.eqb_refl. reflexivity.
      + apply Nat.eqb_neq in E.
        destruct (Z.of_nat (String.length line) =? Z.of_nat (String.length first))
          eqn:E'; [lia | reflexivity]. }
  split.
  - destruct (lines_of content) as [|first rest] eqn:El.
    + split; [|intros []]. unfold loadMap. fold (lines_of content). rewrite El.
      discriminate.
    + rewrite (Hshape first rest eq_refl).
      destruct (existsb _ (first :: rest)) eqn:Ex; cbn [fst].
      * split; [discriminate|]. intros (_ & _ & Hall). exfalso.
        apply existsb_exists in Ex. destruct Ex as [line [Hin Hne]].
        rewrite List.Forall_forall in Hall. rewrite (Hall line Hin) in Hne.
        rewrite Nat.eqb_refl in Hne. discriminate.
      * split; [|reflexivity]. intros _. cbn [uniform].
        split; [inversion Hlines; assumption|]. split; [exact Hh|].
        apply List.Forall_forall. intros line Hin.
        destruct (String.length line =? String.length first)%nat eqn:E;
          [apply Nat.eqb_eq; exact E|].
        assert (Hex : existsb (fun line => negb (String.length line
                                                 =? String.length first)%nat)
                              (first :: rest) = true).
        { apply existsb_exists. exists line. split; [exact Hin|]. rewrite E. reflexivity. }
        congruence.
  - intros first rest El Hf. rewrite (Hshape first rest El) in *.
    destruct (existsb _ (first :: rest)); [reflexivity | discriminate].
Qed.

(** The file of the single line "_c" is uniform. *)
Lemma uniform_one_line : uniform (lines_of ["_c"%string]).
Proof.
  change (lines_of ["_c"%string]) with ["_c"%string].
  split; [unfold INT_MAX; cbn; lia|]. split; [unfold INT_MAX; cbn; lia|].
  repeat constructor.
Qed.

Lemma loadMap_builds_the_file_witness :
  exists m : GameMap,
    loadMap (Some ["_c"%string]) empty_map = (true, m) /\ width m = 2.
Proof.
  destruct (loadMap_builds_the_file ["_c"%string] 3 uniform_one_line)
    as (m & Hm & _ & Hw & _).
  exists m. split; [exact Hm | exact Hw].
Defined.

Lemma loadMap_refuses_witness :
  loadMap (Some ["_c"%string; "e"%string]) empty_map
  = (false, mkGameMap 2 2 [] []).
Proof.
  assert (H1 : Z.of_nat (length (lines_of ["_c"%string; "e"%string]))
               <= INT_MAX).
  { change (lines_of ["_c"%string; "e"%string])
      with ["_c"%string; "e"%string].
    cbn. unfold INT_MAX. lia. }
  assert (H2 : Forall (fun line => Z.of_nat (String.length line) <= INT_MAX)
                      (lines_of ["_c"%string; "e"%string])).
  { change (lines_of ["_c"%string; "e"%string])
      with ["_c"%string; "e"%string].
    repeat constructor; cbn; unfold INT_MAX; lia. }
  exact (proj2 (proj2 (proj2 (proj2
           (loadMap_refuses ["_c"%string; "e"%string] empty_map H1 H2))))
           "_c"%string ["e"%string] eq_refl eq_refl).
Defined.

End MapFacts.

(** * MAP_DATA from the server to the client *)

Module MapDataFacts.

Import MachineInt Protocol.

Import Client GridSpec Layout.

Lemma TileType_value_range (t : TileType) : 0 <= TileType_value t <= 255.
Proof. destruct t; cbn; lia. Qed.

Lemma CoinState_value_range (c : CoinState) : 0 <= CoinState_value c <= 255.
Proof. destruct c; cbn; lia. Qed.

Lemma cells_lookup_0 (h w y x : nat) :
  (y < h)%nat -> (x < w)%nat ->
  Server.cells h w !! (y * w + x)%nat = Some (y, x).
Proof.
  intros Hy Hx. unfold Server.cells.
  rewrite (GridFacts.cells_lookup w h 0 y x Hy Hx). reflexivity.
Qed.

Lemma cell_index_bound (h w y x : nat) :
  (y < h)%nat -> (x < w)%nat -> (y * w + x < h * w)%nat.
Proof. intros Hy Hx. nia. Qed.

(** The byte of the tile [(y, x)] in a MAP_DATA packet. *)
Lemma mapData_tile_byte (m : GameMap) (y x : nat) (t : TileType) :
  (y < Z.to_nat (height m))%nat -> (x < Z.to_nat (width m))%nat ->
  Server.grid_get y x (tiles m) = Some t ->
  byte_at (Server.mapDataPacket m) (5 + (y * Z.to_nat (width m) + x))
  = TileType_value t.
Proof.
  intros Hy Hx Ht. rewrite PacketFacts.mapDataPacket_eq.
  unfold byte_at. rewrite nth_lookup.
  rewrite lookup_app_r by (cbn; lia). cbn [length].
  replace (5 + (y * Z.to_nat (width m) + x) - 5)%nat
    with (y * Z.to_nat (width m) + x)%nat by lia.
  rewrite lookup_app_l
    by (rewrite length_map, PacketFacts.length_cells; apply cell_index_bound; assumption).
  rewrite list_lookup_fmap, cells_lookup_0 by assumption. cbn.
  rewrite Ht. cbn. apply WireFacts.Z_of_byte_of_Z. apply TileType_value_range.
Qed.

(** The byte of the coin state [(y, x)] in a MAP_DATA packet. *)
Lemma mapData_coin_byte (m : GameMap) (y x : nat) (c : CoinState) :
  (y < Z.to_nat (height m))%nat -> (x < Z.to_nat (width m))%nat ->
  Server.grid_get y x (coinStates m) = Some c ->
  byte_at (Server.mapDataPacket m)
          (5 + Z.to_nat (height m) * Z.to_nat (width m)
           + (y * Z.to_nat (width m) + x))
  = CoinState_value c.
Proof.
  intros Hy Hx Hc. rewrite PacketFacts.mapDataPacket_eq.
  unfold byte_at. rewrite nth_lookup.
  rewrite lookup_app_r by (cbn; lia). cbn [length].
  rewrite lookup_app_r by (rewrite length_map, PacketFacts.length_cells; lia).
  rewrite length_map, PacketFacts.length_cells.
  replace (5 + Z.to_nat (height m) * Z.to_nat (width m)
           + (y * Z.to_nat (width m) + x) - 5
           - Z.to_nat (height m) * Z.to_nat (width m))%nat
    with (y * Z.to_nat (width m) + x)%nat by lia.
  rewrite list_lookup_fmap, cells_lookup_0 by assumption. cbn.
  rewrite Hc. cbn. apply WireFacts.Z_of_byte_of_Z. apply CoinState_value_range.
Qed.

Lemma mapData_width (m : GameMap) :
  0 <= width m <= 65535 -> le16 (Server.mapDataPacket m) 1 = width m.
Proof.
  intros Hw. rewrite PacketFacts.mapDataPacket_eq.
  change ([x03; short_lo (width m); short_hi (width m); short_lo (height m);
           short_hi (height m)] ++ ?t)
    with ([x03] ++ short_lo (width m) :: short_hi (width m)
                :: (short_lo (height m) :: short_hi (height m) :: t)).
  rewrite (PacketFacts.le16_short (width m) [x03]).
  apply PacketFacts.to_uint16_small. exact Hw.
Qed.

Lemma mapData_height (m : GameMap) :
  0 <= height m <= 65535 -> le16 (Server.mapDataPacket m) 3 = height m.
Proof.
  intros Hh. rewrite PacketFacts.mapDataPacket_eq.
  change ([x03; short_lo (width m); short_hi (width m); short_lo (height m);
           short_hi (height m)] ++ ?t)
    with ([x03; short_lo (width m); short_hi (width m)]
            ++ short_lo (height m) :: short_hi (height m) :: t).
  rewrite (PacketFacts.le16_short (height m) [x03; short_lo (width m); short_hi (width m)]).
  apply PacketFacts.to_uint16_small. exact Hh.
Qed.

(** What the client computes from a MAP_DATA packet of a well-formed
    server map, starting without rows of its own. *)
Lemma handleMapData_mapDataPacket (m : GameMap) (c : NetworkClient.State) :
  well_formed m ->
  GameData.c_tiles (NetworkClient.m_map c) = [] ->
  GameData.c_coinStates (NetworkClient.m_map c) = [] ->
  NetworkClient.handleMapData
    (Server.mapDataPacket m) (Z.of_nat (length (Server.mapDataPacket m))) c
  = NetworkClient.on_display
      (GameDisplay.updateMap (raw_view m))
      (NetworkClient.mkClient
         (NetworkClient.m_localPlayerId c) (raw_view m)
         (NetworkClient.m_players c) (NetworkClient.m_running c)
         (NetworkClient.m_display c)).
Proof.
  intros (Hw & Hh & Hsize & Htiles & Hcoins) Et Ec.
  unfold NetworkClient.handleMapData.
  rewrite PacketFacts.length_mapDataPacket by lia.
  rewrite mapData_width, mapData_height by assumption.
  set (w := width m) in *. set (h := height m) in *.
  assert (Harea : 0 <= w * h) by nia.
  unfold INT_MAX in Hsize.
  assert (Ea : to_int (w * h) = w * h)
    by (apply PacketFacts.to_int_small; unfold INT_MIN, INT_MAX; lia).
  rewrite Ea.
  assert (E2 : to_int (w * h * 2) = w * h * 2)
    by (apply PacketFacts.to_int_small; unfold INT_MIN, INT_MAX; lia).
  rewrite E2.
  assert (E5 : to_int (5 + w * h * 2) = 5 + w * h * 2)
    by (apply PacketFacts.to_int_small; unfold INT_MIN, INT_MAX; lia).
  rewrite E5.
  assert (Es : to_size_t (5 + w * h * 2) = 5 + w * h * 2).
  { apply PacketFacts.to_size_t_small.
    change (2 ^ 64) with 18446744073709551616. lia. }
  rewrite Es.
  destruct (5 + 2 * (w * h) <? 5) eqn:L5; [lia|].
  destruct (5 + 2 * (w * h) <? 5 + w * h * 2) eqn:Lmin; [lia|].
  assert (Eo : to_int (5 + w * h) = 5 + w * h)
    by (apply PacketFacts.to_int_small; unfold INT_MIN, INT_MAX; lia).
  rewrite Eo.
  assert (Eoa : to_int (5 + w * h + w * h) = 5 + w * h + w * h)
    by (apply PacketFacts.to_int_small; unfold INT_MIN, INT_MAX; lia).
  rewrite Eoa.
  assert (Eos : to_size_t (5 + w * h + w * h) = 5 + w * h + w * h).
  { apply PacketFacts.to_size_t_small.
    change (2 ^ 64) with 18446744073709551616. lia. }
  rewrite Eos.
  destruct (5 + w * h + w * h <=? 5 + 2 * (w * h)) eqn:Lc; [|lia].
  assert (Esw : to_size_t w = w).
  { apply PacketFacts.to_size_t_small.
    change (2 ^ 64) with 18446744073709551616. lia. }
  assert (Esh : to_size_t h = h).
  { apply PacketFacts.to_size_t_small.
    change (2 ^ 64) with 18446744073709551616. lia. }
  rewrite Esw, Esh, Et, Ec, !GridFacts.resize_nil.
  rewrite !GridFacts.fill_grid_rectangular by apply GridFacts.rectangular_replicate.
  (* the bytes read are the cells of the server map *)
  assert (Hidx : forall (offset : Z) (y x : nat),
             (y < Z.to_nat h)%nat -> (x < Z.to_nat w)%nat ->
             0 <= offset <= 5 + w * h ->
             NetworkClient.byte_at_int (Server.mapDataPacket m)
               (to_int (to_int (offset + to_int (Z.of_nat y * w)) + Z.of_nat x))
             = byte_at (Server.mapDataPacket m)
                       (Z.to_nat offset + (y * Z.to_nat w + x))).
  { intros offset y x Hy Hx Hoff.
    assert (Hyx : Z.of_nat y * w + Z.of_nat x < w * h) by nia.
    assert (Hy0 : 0 <= Z.of_nat y * w) by nia.
    rewrite (PacketFacts.to_int_small (Z.of_nat y * w))
      by (unfold INT_MIN, INT_MAX; lia).
    rewrite (PacketFacts.to_int_small (offset + Z.of_nat y * w))
      by (unfold INT_MIN, INT_MAX; lia).
    rewrite PacketFacts.to_int_small by (unfold INT_MIN, INT_MAX; lia).
    unfold NetworkClient.byte_at_int.
    destruct (offset + Z.of_nat y * w + Z.of_nat x <? 0) eqn:En; [lia|].
    f_equal. nia. }
  assert (Etiles : tabulate
                     (fun y x => NetworkClient.byte_at_int (Server.mapDataPacket m)
                        (to_int (to_int (5 + to_int (Z.of_nat y * w)) + Z.of_nat x)))
                     (Z.to_nat h) (Z.to_nat w)
                   = map (map TileType_value) (tiles m)).
  { rewrite <- (GridFacts.tabulate_cells TileType_value EMPTY _ _ _ Htiles).
    apply GridFacts.tabulate_ext. intros y x Hy Hx.
    rewrite Hidx by (assumption || lia).
    destruct (GridFacts.grid_get_rectangular _ _ y x _ Htiles Hy Hx) as [t Ht].
    rewrite Ht. cbn [default]. change (Z.to_nat 5) with 5%nat.
    apply mapData_tile_byte; assumption. }
  assert (Ecoins : tabulate
                     (fun y x => NetworkClient.byte_at_int (Server.mapDataPacket m)
                        (to_int (to_int (5 + w * h + to_int (Z.of_nat y * w))
                                 + Z.of_nat x)))
                     (Z.to_nat h) (Z.to_nat w)
                   = map (map CoinState_value) (coinStates m)).
  { rewrite <- (GridFacts.tabulate_cells CoinState_value AVAILABLE _ _ _ Hcoins).
    apply GridFacts.tabulate_ext. intros y x Hy Hx.
    rewrite Hidx by (assumption || lia).
    destruct (GridFacts.grid_get_rectangular _ _ y x _ Hcoins Hy Hx) as [cs Hcs].
    rewrite Hcs. cbn [default].
    replace (Z.to_nat (5 + w * h)) with (5 + Z.to_nat h * Z.to_nat w)%nat by nia.
    apply mapData_coin_byte; assumption. }
  rewrite Etiles, Ecoins. reflexivity.
Qed.

Lemma rectangular_map {A B : Type} (v : A -> B) (h w : nat) (g : list (list A)) :
  rectangular h w g -> rectangular h w (map (map v) g).
Proof.
  intros [Hh Hw]. split; [rewrite length_map; exact Hh|].
  apply Forall_lookup_2. intros y row Hrow. rewrite list_lookup_fmap in Hrow.
  destruct (g !! y) as [row0|] eqn:E; [|discriminate]. cbn in Hrow.
  inversion Hrow. rewrite length_map. exact (Forall_lookup_1 _ _ _ _ Hw E).
Qed.

Lemma map_map_same {A : Type} (g : list (list A)) :
  map (map (fun a : A => a)) g = g.
Proof.
  induction g as [|row g IH]; [reflexivity|].
  cbn [map]. rewrite IH. f_equal. apply map_id.
Qed.

(** The store takes over the coin states of a received map. *)
Lemma updateMap_raw_view (m : GameMap) (d : GameData.t) :
  well_formed m ->
  GameData.m_coinStates d = [] ->
  GameData.updateMap (raw_view m) d
  = GameData.mkGameData (raw_view m) (map (map CoinState_value) (coinStates m))
                        (GameData.m_players d) (GameData.m_localPlayerId d)
                        (GameData.m_gameOver d) (GameData.m_winnerId d).
Proof.
  intros (Hw & Hh & Hsize & Htiles & Hcoins) Ed.
  unfold GameData.updateMap. cbn [raw_view GameData.c_height GameData.c_width
                                   GameData.c_coinStates].
  rewrite !PacketFacts.to_size_t_small
    by (change (2 ^ 64) with 18446744073709551616; lia).
  rewrite Ed, GridFacts.resize_nil. f_equal.
  pose proof (rectangular_map CoinState_value _ _ _ Hcoins) as Hraw.
  set (raw := map (map CoinState_value) (coinStates m)) in *.
  assert (Hfill : Grid.fill_grid
                    (fun y x => default 0 (Server.grid_get y x raw))
                    (Z.to_nat (height m)) (Z.to_nat (width m))
                    (replicate (Z.to_nat (height m))
                               (replicate (Z.to_nat (width m))
                                          (CoinState_value AVAILABLE)))
                  = raw).
  { rewrite GridFacts.fill_grid_rectangular by apply GridFacts.rectangular_replicate.
    rewrite (GridFacts.tabulate_cells (fun z : Z => z) 0 _ _ _ Hraw).
    apply map_map_same. }
  destruct raw as [|row rows].
  - destruct Hraw as [Hlen _]. cbn in Hlen. rewrite <- Hlen. reflexivity.
  - exact Hfill.
Qed.

(** MAP_DATA round trip: a client that holds no map yet decodes the
    packet [sendMapData] builds for a well-formed server map into that
    map, cell by cell, and its display store takes over the coin
    states. *)
Theorem map_data_round_trip (m : GameMap) (c : NetworkClient.State) :
  well_formed m ->
  GameData.c_tiles (NetworkClient.m_map c) = [] ->
  GameData.c_coinStates (NetworkClient.m_map c) = [] ->
  let packet := Server.mapDataPacket m in
  let c' := NetworkClient.handleMapData packet (Z.of_nat (length packet)) c in
  NetworkClient.m_map c' = raw_view m
  /\ NetworkClient.m_localPlayerId c' = NetworkClient.m_localPlayerId c
  /\ NetworkClient.m_players c' = NetworkClient.m_players c
  /\ (NetworkClient.m_display c = None -> NetworkClient.m_display c' = None)
  /\ (forall display : GameDisplay.State,
         NetworkClient.m_display c = Some display ->
         GameData.m_coinStates (GameDisplay.m_gameData display) = [] ->
         exists display',
           NetworkClient.m_display c' = Some display'
           /\ GameData.m_map (GameDisplay.m_gameData display') = raw_view m
           /\ GameData.m_coinStates (GameDisplay.m_gameData display')
              = map (map CoinState_value) (coinStates m)
           /\ GameDisplay.played display' = GameDisplay.played display).
Proof.
  intros Hwf Et Ec packet c'. unfold c', packet.
  rewrite handleMapData_mapDataPacket by assumption.
  unfold NetworkClient.on_display. cbn [NetworkClient.m_map NetworkClient.m_localPlayerId
    NetworkClient.m_players NetworkClient.m_display].
  repeat split.
  - intros ->. reflexivity.
  - intros display -> Ed. cbn [option_map]. eexists. split; [reflexivity|].
    unfold GameDisplay.updateMap, GameDisplay.with_gameData.
    cbn [GameDisplay.m_gameData GameDisplay.played].
    rewrite updateMap_raw_view by assumption.
    cbn [GameData.m_map GameData.m_coinStates]. repeat split.
Qed.

Lemma well_formed_one_row : well_formed Samples.one_row_map.
Proof.
  unfold well_formed, rectangular, INT_MAX. cbn.
  repeat split; try lia; repeat constructor.
Qed.

Lemma map_data_round_trip_witness :
  NetworkClient.m_map
    (NetworkClient.handleMapData
       (Server.mapDataPacket Samples.one_row_map)
       (Z.of_nat (length (Server.mapDataPacket Samples.one_row_map)))
       NetworkClient.initial)
  = raw_view Samples.one_row_map.
Proof.
  exact (proj1 (map_data_round_trip
                  Samples.one_row_map NetworkClient.initial
                  well_formed_one_row eq_refl eq_refl)).
Defined.

End MapDataFacts.

(** * The packets of the server are framed by the client *)

Module ServerStreamFacts.

Import MachineInt Protocol.

Import Client Frames Layout ServerStream.

Lemma framed_of_size (p : list byte) :
  size_of p = Z.of_nat (length p) -> p <> [] -> framed p.
Proof.
  intros Hs Hne. split; [exact Hne|]. intros more.
  rewrite StreamFacts.size_of_app; [exact Hs|].
  rewrite Hs. destruct p; [congruence | discriminate].
Qed.

Lemma size_of_mapDataPacket (m : GameMap) :
  well_formed m ->
  size_of (Server.mapDataPacket m) = Z.of_nat (length (Server.mapDataPacket m)).
Proof.
  intros (Hw & Hh & Hsize & _). unfold size_of, getPacketSize.
  rewrite PacketFacts.length_mapDataPacket by lia.
  rewrite MapDataFacts.mapData_width, MapDataFacts.mapData_height by assumption.
  replace (nth 0 (Server.mapDataPacket m) x00) with x03
    by (rewrite PacketFacts.mapDataPacket_eq; reflexivity).
  change (PacketType_of_byte x03) with (Some MAP_DATA). cbn match.
  set (w := width m) in *. set (h := height m) in *.
  assert (Harea : 0 <= w * h) by nia. unfold INT_MAX in Hsize.
  rewrite (PacketFacts.to_int_small (w * h)) by (unfold INT_MIN, INT_MAX; lia).
  rewrite (PacketFacts.to_int_small (w * h * 2)) by (unfold INT_MIN, INT_MAX; lia).
  rewrite PacketFacts.to_int_small by (unfold INT_MIN, INT_MAX; lia).
  rewrite PacketFacts.to_size_t_small
    by (change (2 ^ 64) with 18446744073709551616; lia).
  destruct (5 + 2 * (w * h) <? 1) eqn:E1; [lia|].
  destruct (5 + 2 * (w * h) <? 5) eqn:E5; [lia|].
  unfold sized. destruct (5 + w * h * 2 <=? 5 + 2 * (w * h)) eqn:E; lia.
Qed.

Lemma size_of_gameStatePacket (players : list (Z * Player)) :
  Z.of_nat (length players) <= 255 ->
  size_of (Broadcaster.gameStatePacket players)
  = Z.of_nat (length (Broadcaster.gameStatePacket players)).
Proof.
  intros Hn. unfold size_of, getPacketSize.
  rewrite WireFacts.length_gameStatePacket.
  rewrite WireFacts.gameStatePacket_eq. cbn [nth].
  change (PacketType_of_byte x06) with (Some GAME_STATE_UPDATE). cbn match.
  unfold byte_at. cbn [nth]. rewrite WireFacts.Z_of_byte_of_Z by lia.
  rewrite PacketFacts.to_size_t_small
    by (change (2 ^ 64) with 18446744073709551616; lia).
  destruct (2 + Z.of_nat (length players) * 10 <? 1) eqn:E1; [lia|].
  destruct (2 + Z.of_nat (length players) * 10 <? 2) eqn:E2; [lia|].
  unfold sized. rewrite Z.leb_refl. reflexivity.
Qed.

(** Every packet the server builds is framed whole by the client. *)
Lemma server_packet_framed (p : list byte) : server_packet p -> framed p.
Proof.
  intros [s playerId|m Hm|players|players Hn|players playerId x y cs|playerId|w].
  - apply framed_of_size; [reflexivity | discriminate].
  - apply framed_of_size; [apply size_of_mapDataPacket; exact Hm|].
    rewrite PacketFacts.mapDataPacket_eq. discriminate.
  - apply framed_of_size; [reflexivity | discriminate].
  - apply framed_of_size; [apply size_of_gameStatePacket; exact Hn|].
    rewrite WireFacts.gameStatePacket_eq. discriminate.
  - apply framed_of_size; [reflexivity | discriminate].
  - apply framed_of_size; [reflexivity | discriminate].
  - apply framed_of_size; [reflexivity | discriminate].
Qed.

(** A stream of server packets that reaches the client in two pieces,
    split anywhere, is cut back into exactly those packets, and nothing
    is left in the buffer. *)
Theorem server_stream_is_cut_back
        (packets : list (list byte)) (first second : list byte) :
  Forall server_packet packets ->
  first ++ second = concat packets ->
  fst (onReceive [] first)
    ++ fst (onReceive (snd (onReceive [] first)) second)
  = packets
  /\ snd (onReceive (snd (onReceive [] first)) second) = []
  /\ onReceive [] (concat packets) = (packets, []).
Proof.
  intros Hall Hsplit.
  assert (Hwhole : onReceive [] (concat packets) = (packets, [])).
  { rewrite StreamFacts.onReceive_cut. cbn [app].
    rewrite <- (app_nil_r (concat packets)) at 2.
    apply StreamFacts.cut_framed.
    - eapply List.Forall_impl; [|exact Hall]. apply server_packet_framed.
    - rewrite app_nil_r. lia.
    - left. reflexivity. }
  pose proof (StreamFacts.onReceive_app [] first second) as Htwo.
  rewrite Hsplit, Hwhole in Htwo. injection Htwo as Hp Hr.
  split; [symmetry; exact Hp | split; [symmetry; exact Hr | exact Hwhole]].
Qed.

Lemma server_stream_is_cut_back_witness :
  fst (onReceive [] [x0a; x01])
    ++ fst (onReceive (snd (onReceive [] [x0a; x01])) [x01; x09; x02])
  = ClientSamples.two_packets.
Proof.
  assert (Hp : Forall server_packet ClientSamples.two_packets).
  { constructor; [apply sp_over|].
    constructor; [apply sp_death | constructor]. }
  exact (proj1 (server_stream_is_cut_back
                  ClientSamples.two_packets [x0a; x01] [x01; x09; x02]
                  Hp eq_refl)).
Defined.

End ServerStreamFacts.

(** * Single packets through their handlers *)

Module HandlerFacts.

Import MachineInt Protocol.

Import Client Layout.

Lemma mod_256_small (z : Z) : 0 <= z <= 255 -> z mod 256 = z.
Proof. intros H. apply Z.mod_small. lia. Qed.

Lemma gameOverPacket_eq (winnerId : Z) :
  Broadcaster.gameOverPacket winnerId
  = [x0a; byte_of_Z (if 0 <? winnerId then 1 else 0);
     byte_of_Z (if 0 <? winnerId then winnerId else 0)].
Proof. reflexivity. Qed.

(** GAME_OVER round trip: a client shown the packet [broadcastGameOver]
    builds hands its display the winner the server announced, reduced to
    the byte that carries it, and -1 when the server announced none (an
    id that is not positive); the store of the display then holds the
    game as over with that winner and the jetpack loop is stopped. *)
Theorem game_over_round_trip (winnerId : Z) (c : NetworkClient.State) :
  let packet := Broadcaster.gameOverPacket winnerId in
  let announced := if 0 <? winnerId then winnerId mod 256 else -1 in
  let c' := NetworkClient.processPacket packet (Z.of_nat (length packet)) c in
  c' = NetworkClient.on_display (GameDisplay.handleGameOver announced) c
  /\ (forall display : GameDisplay.State,
         NetworkClient.m_display c = Some display ->
         exists display',
           NetworkClient.m_display c' = Some display'
           /\ GameData.m_gameOver (GameDisplay.m_gameData display') = true
           /\ GameData.m_winnerId (GameDisplay.m_gameData display') = announced
           /\ GameDisplay.played display'
              = GameDisplay.played display ++ [GameDisplay.StopJetpackLoop])
  /\ (1 <= winnerId <= 255 -> announced = winnerId).
Proof.
  cbv zeta.
  assert (E : NetworkClient.processPacket
                (Broadcaster.gameOverPacket winnerId)
                (Z.of_nat (length (Broadcaster.gameOverPacket winnerId))) c
              = NetworkClient.on_display
                  (GameDisplay.handleGameOver
                     (if 0 <? winnerId then winnerId mod 256 else -1)) c).
  { rewrite gameOverPacket_eq.
    unfold NetworkClient.processPacket, NetworkClient.handleGameOver, byte_at.
    cbn [length nth].
    change (Z.of_nat 3 <? 1) with false. change (Z.of_nat 3 <? 3) with false.
    change (PacketType_of_byte x0a) with (Some GAME_OVER_PACKET).
    cbv iota beta. rewrite !PacketFacts.Z_of_byte_of_Z_mod.
    destruct (0 <? winnerId); reflexivity. }
  rewrite E. split; [reflexivity|]. split.
  - intros display Hd. unfold NetworkClient.on_display.
    cbn [NetworkClient.m_display]. rewrite Hd. cbn [option_map].
    eexists. split; [reflexivity|]. repeat split.
  - intros Hw. destruct (0 <? winnerId) eqn:Ew; [|lia].
    apply mod_256_small. lia.
Qed.

Lemma connectResponsePacket_eq (s : Server.State) (playerId : Z) :
  Server.connectResponsePacket s playerId
  = [x02; byte_of_Z playerId;
     byte_of_Z (Z.of_nat (length (Server.m_players s)))].
Proof. reflexivity. Qed.

Lemma handleConnectResponse_packet (s : Server.State) (playerId : Z)
      (c : NetworkClient.State) :
  NetworkClient.processPacket
    (Server.connectResponsePacket s playerId)
    (Z.of_nat (length (Server.connectResponsePacket s playerId))) c
  = NetworkClient.mkClient (playerId mod 256) (NetworkClient.m_map c)
                           (NetworkClient.m_players c) true
                           (NetworkClient.m_display c).
Proof.
  rewrite connectResponsePacket_eq.
  unfold NetworkClient.processPacket, NetworkClient.handleConnectResponse, byte_at.
  cbn [length nth].
  change (Z.of_nat 3 <? 1) with false. change (Z.of_nat 3 <? 3) with false.
  change (PacketType_of_byte x02) with (Some CONNECT_RESPONSE).
  cbv iota beta. rewrite PacketFacts.Z_of_byte_of_Z_mod. reflexivity.
Qed.

Lemma gameStartPacket_eq (players : list (Z * Player)) :
  Broadcaster.gameStartPacket players
  = [x04; byte_of_Z (Z.of_nat (length players)); byte_of_Z 0].
Proof. reflexivity. Qed.

Lemma handleGameStart_packet (players : list (Z * Player))
      (c : NetworkClient.State) :
  NetworkClient.processPacket
    (Broadcaster.gameStartPacket players)
    (Z.of_nat (length (Broadcaster.gameStartPacket players))) c
  = NetworkClient.on_display
      (GameDisplay.updateGameState
         (NetworkClient.startingPlayers (Z.of_nat (length players) mod 256)))
      (NetworkClient.mkClient
         (NetworkClient.m_localPlayerId c) (NetworkClient.m_map c)
         (NetworkClient.startingPlayers (Z.of_nat (length players) mod 256))
         (NetworkClient.m_running c) (NetworkClient.m_display c)).
Proof.
  rewrite gameStartPacket_eq.
  unfold NetworkClient.processPacket, NetworkClient.handleGameStart, byte_at.
  cbn [length nth].
  change (Z.of_nat 3 <? 1) with false. change (Z.of_nat 3 <? 3) with false.
  change (PacketType_of_byte x04) with (Some GAME_START).
  cbv iota beta. rewrite PacketFacts.Z_of_byte_of_Z_mod. reflexivity.
Qed.

Lemma playerDeathPacket_eq (playerId : Z) :
  Broadcaster.playerDeathPacket playerId = [x09; byte_of_Z playerId].
Proof. reflexivity. Qed.

Lemma handlePlayerDeath_packet (playerId : Z) (c : NetworkClient.State) :
  NetworkClient.processPacket
    (Broadcaster.playerDeathPacket playerId)
    (Z.of_nat (length (Broadcaster.playerDeathPacket playerId))) c
  = NetworkClient.on_display
      (GameDisplay.handlePlayerDeath (playerId mod 256)) c.
Proof.
  rewrite playerDeathPacket_eq.
  unfold NetworkClient.processPacket, NetworkClient.handlePlayerDeath, byte_at.
  cbn [length nth].
  change (Z.of_nat 2 <? 1) with false. change (Z.of_nat 2 <? 2) with false.
  change (PacketType_of_byte x09) with (Some PLAYER_DEATH).
  cbv iota beta. rewrite PacketFacts.Z_of_byte_of_Z_mod. reflexivity.
Qed.

Lemma coinCollectedPacket_eq (players : list (Z * Player))
      (playerId x y coinState : Z) :
  exists score : Z,
    Broadcaster.coinCollectedPacket players playerId x y coinState
    = [x08; byte_of_Z playerId; byte_of_Z x; byte_of_Z y; byte_of_Z score;
       byte_of_Z coinState].
Proof. eexists. reflexivity. Qed.

Lemma handleCoinCollected_packet (players : list (Z * Player))
      (playerId x y coinState : Z) (c : NetworkClient.State) :
  NetworkClient.processPacket
    (Broadcaster.coinCollectedPacket players playerId x y coinState)
    (Z.of_nat (length (Broadcaster.coinCollectedPacket players playerId x y
                                                       coinState))) c
  = NetworkClient.on_display
      (GameDisplay.handleCoinCollected (playerId mod 256) (x mod 256)
                                       (y mod 256) (coinState mod 256)) c.
Proof.
  destruct (coinCollectedPacket_eq players playerId x y coinState) as [score ->].
  unfold NetworkClient.processPacket, NetworkClient.handleCoinCollected, byte_at.
  cbn [length nth].
  change (Z.of_nat 6 <? 1) with false. change (Z.of_nat 6 <? 6) with false.
  change (PacketType_of_byte x08) with (Some COIN_COLLECTED).
  cbv iota beta. rewrite !PacketFacts.Z_of_byte_of_Z_mod. reflexivity.
Qed.

End HandlerFacts.

(** * The network loop over several reads *)

Module LoopFacts.

Import MachineInt Protocol.

Import Client Frames.

Lemma on_display_running (f : GameDisplay.State -> GameDisplay.State)
      (c : NetworkClient.State) :
  NetworkClient.m_running (NetworkClient.on_display f c)
  = NetworkClient.m_running c.
Proof. reflexivity. Qed.

(** No handler stops the loop. *)
Lemma processPacket_running (data : list byte) (length : Z)
      (c : NetworkClient.State) :
  NetworkClient.m_running c = true ->
  NetworkClient.m_running (NetworkClient.processPacket data length c) = true.
Proof.
  intros H. unfold NetworkClient.processPacket.
  destruct (length <? 1); [exact H|].
  destruct (PacketType_of_byte (nth 0 data x00)) as [[]|]; try exact H.
  - unfold NetworkClient.handleConnectResponse.
    destruct (length <? 3); [exact H | reflexivity].
  - unfold NetworkClient.handleMapData.
    destruct (length <? 5); [exact H|].
    cbv zeta. destruct (length <? _); [exact H|].
    rewrite on_display_running. exact H.
  - unfold NetworkClient.handleGameStart.
    destruct (length <? 3); [exact H|].
    cbv zeta. rewrite on_display_running. exact H.
  - unfold NetworkClient.handleGameStateUpdate.
    destruct (length <? 2); [exact H|].
    destruct (length <? _); [exact H|].
    cbv zeta. rewrite on_display_running. exact H.
  - unfold NetworkClient.handleCoinCollected.
    destruct (length <? 6); [exact H|].
    cbv zeta. rewrite on_display_running. exact H.
  - unfold NetworkClient.handlePlayerDeath.
    destruct (length <? 2); [exact H|].
    rewrite on_display_running. exact H.
  - unfold NetworkClient.handleGameOver.
    destruct (length <? 3); [exact H|].
    cbv zeta. rewrite on_display_running. exact H.
Qed.

Lemma fold_processPacket_running (packets : list (list byte)) :
  forall c : NetworkClient.State,
    NetworkClient.m_running c = true ->
    NetworkClient.m_running
      (fold_left (fun c p => NetworkClient.processPacket
                               p (Z.of_nat (length p)) c) packets c)
    = true.
Proof.
  induction packets as [|p rest IH]; intros c H; [exact H|].
  cbn [fold_left]. apply IH. apply processPacket_running. exact H.
Qed.

Lemma receive_eq (accumulated received : list byte) (c : NetworkClient.State) :
  NetworkClient.receive accumulated received c
  = (fold_left (fun c p => NetworkClient.processPacket
                             p (Z.of_nat (length p)) c)
               (fst (onReceive accumulated received)) c,
     snd (onReceive accumulated received)).
Proof.
  unfold NetworkClient.receive.
  destruct (onReceive accumulated received). reflexivity.
Qed.

(** One [recv] of [first ++ second] against two. *)
Lemma receive_app (accumulated first second : list byte)
      (c : NetworkClient.State) :
  NetworkClient.receive accumulated (first ++ second) c
  = NetworkClient.receive
      (snd (NetworkClient.receive accumulated first c)) second
      (fst (NetworkClient.receive accumulated first c)).
Proof.
  rewrite !receive_eq. cbn [fst snd].
  rewrite StreamFacts.onReceive_app. cbn [fst snd].
  rewrite fold_left_app. reflexivity.
Qed.

(** A buffer with no whole packet at its front is handed back. *)
Lemma receive_stalled (accumulated : list byte) (c : NetworkClient.State) :
  accumulated = [] \/ size_of accumulated = 0 ->
  NetworkClient.receive accumulated [] c = (c, accumulated).
Proof.
  intros H. rewrite receive_eq, StreamFacts.onReceive_cut, app_nil_r.
  destruct H as [-> | H].
  - reflexivity.
  - rewrite StreamFacts.cut_stop by exact H. reflexivity.
Qed.

Lemma receive_retains_stalled (accumulated received : list byte)
      (c : NetworkClient.State) :
  let retained := snd (NetworkClient.receive accumulated received c) in
  retained = [] \/ size_of retained = 0.
Proof.
  cbv zeta. rewrite receive_eq. cbn [snd].
  rewrite StreamFacts.onReceive_cut.
  apply StreamFacts.cut_complete. lia.
Qed.

Lemma receive_running (accumulated received : list byte)
      (c : NetworkClient.State) :
  NetworkClient.m_running c = true ->
  NetworkClient.m_running (fst (NetworkClient.receive accumulated received c))
  = true.
Proof.
  intros H. rewrite receive_eq. cbn [fst].
  apply fold_processPacket_running. exact H.
Qed.

(** The loop over several reads against one read of all the bytes. *)
Lemma networkLoop_concat (reads : list (list byte)) :
  forall (accumulated : list byte) (c : NetworkClient.State),
    NetworkClient.m_running c = true ->
    accumulated = [] \/ size_of accumulated = 0 ->
    NetworkClient.networkLoop reads accumulated c
    = NetworkClient.receive accumulated (concat reads) c.
Proof.
  induction reads as [|received rest IH]; intros accumulated c Hrun Hacc.
  - cbn [NetworkClient.networkLoop concat].
    symmetry. apply receive_stalled. exact Hacc.
  - cbn [NetworkClient.networkLoop concat]. rewrite Hrun.
    destruct received as [|b received'].
    + cbn [app]. apply IH; assumption.
    + set (received := b :: received').
      rewrite receive_app.
      pose proof (receive_retains_stalled accumulated received c) as Hst.
      pose proof (receive_running accumulated received c Hrun) as Hr.
      cbv zeta in Hst.
      destruct (NetworkClient.receive accumulated received c) as [c' retained].
      cbn [fst snd] in *. apply IH; assumption.
Qed.

(** The client the network loop leaves depends on the bytes the server
    sent, not on how [recv] cut them up: whatever the reads, the loop
    ends in the state, and with the bytes retained, of a single read of
    all the bytes, and it is still running. *)
Theorem network_loop_ignores_chunking
        (reads : list (list byte)) (accumulated : list byte)
        (c : NetworkClient.State) :
  NetworkClient.m_running c = true ->
  accumulated = [] \/ size_of accumulated = 0 ->
  NetworkClient.networkLoop reads accumulated c
  = NetworkClient.receive accumulated (concat reads) c
  /\ NetworkClient.m_running
       (fst (NetworkClient.networkLoop reads accumulated c)) = true
  /\ (forall reads' : list (list byte),
         concat reads' = concat reads ->
         NetworkClient.networkLoop reads' accumulated c
         = NetworkClient.networkLoop reads accumulated c).
Proof.
  intros Hrun Hacc. split; [apply networkLoop_concat; assumption|]. split.
  - rewrite networkLoop_concat by assumption.
    apply receive_running. exact Hrun.
  - intros reads' Heq. rewrite !networkLoop_concat by assumption.
    rewrite Heq. reflexivity.
Qed.

Lemma network_loop_ignores_chunking_witness :
  NetworkClient.networkLoop ClientSamples.handshake_reads []
                            NetworkClient.initial
  = NetworkClient.receive [] (concat ClientSamples.handshake_reads)
                          NetworkClient.initial.
Proof.
  exact (proj1 (network_loop_ignores_chunking
                  ClientSamples.handshake_reads [] NetworkClient.initial
                  eq_refl (or_introl eq_refl))).
Defined.

End LoopFacts.

(** * The handshake *)

Module HandshakeFacts.

Import MachineInt Protocol.

Import Server Layout Wire.

Lemma emplace_fresh (key : Z) (p : Player) (players : list (Z * Player)) :
  existsb (fun sp => fst sp =? key) players = false ->
  emplace key p players = (key, p) :: players.
Proof. intros H. unfold emplace. rewrite H. reflexivity. Qed.

(** The sends of [checkGameStart]. *)
Lemma checkGameStart_sent (s : State) :
  sent (checkGameStart s)
  = sent s
    ++ (if (match m_gameState s with WAITING_FOR_PLAYERS => true | _ => false end)
           && (MIN_PLAYERS <=? Z.of_nat (length (m_players s)))
        then Broadcaster.broadcastGameStart (m_players (checkGameStart s))
             ++ Broadcaster.broadcastGameState (m_players (checkGameStart s))
        else []).
Proof.
  unfold checkGameStart.
  destruct (m_gameState s); cbn [andb]; try (rewrite app_nil_r; reflexivity).
  destruct (MIN_PLAYERS <=? Z.of_nat (length (m_players s)));
    [|rewrite app_nil_r; reflexivity].
  cbn [sent do_send with_players with_gameState m_players].
  rewrite <- app_assoc. reflexivity.
Qed.

Lemma checkGameStart_keys (s : State) :
  map fst (m_players (checkGameStart s)) = map fst (m_players s).
Proof.
  unfold checkGameStart. destruct (m_gameState s); try reflexivity.
  destruct (MIN_PLAYERS <=? Z.of_nat (length (m_players s))); [|reflexivity].
  cbn [m_players do_send with_players]. rewrite map_map. reflexivity.
Qed.

Lemma checkGameStart_map (s : State) : m_map (checkGameStart s) = m_map s.
Proof.
  unfold checkGameStart. destruct (m_gameState s); try reflexivity.
  destruct (MIN_PLAYERS <=? Z.of_nat (length (m_players s))); reflexivity.
Qed.

Lemma broadcastToAll_keys (players : list (Z * Player)) (bytes : list byte) :
  Broadcaster.broadcastToAll players bytes
  = map (fun k => (k, bytes)) (map fst players).
Proof. unfold Broadcaster.broadcastToAll. rewrite map_map. reflexivity. Qed.

(** A broadcast does not reach a socket that is not in the table. *)
Lemma filter_broadcast_absent (sock : Z) (bytes : list byte) (keys : list Z) :
  existsb (fun k => k =? sock) keys = false ->
  filter (fun send : Broadcaster.Send => fst send =? sock)
         (map (fun k => (k, bytes)) keys)
  = [].
Proof.
  induction keys as [|k keys IH]; intros Hfresh; [reflexivity|].
  cbn [existsb] in Hfresh. apply orb_false_iff in Hfresh.
  destruct Hfresh as [Hk Hfresh].
  cbn [map]. rewrite filter_cons. cbn [fst]. rewrite Hk.
  rewrite decide_False by (intros []). apply IH. exact Hfresh.
Qed.

(** A broadcast reaches the socket entered last, which the table
    iterates first, once. *)
Lemma filter_broadcast_last (sock : Z) (bytes : list byte) (keys : list Z) :
  existsb (fun k => k =? sock) keys = false ->
  filter (fun send : Broadcaster.Send => fst send =? sock)
         (map (fun k => (k, bytes)) (sock :: keys))
  = [(sock, bytes)].
Proof.
  intros Hfresh. cbn [map]. rewrite filter_cons. cbn [fst].
  rewrite Z.eqb_refl, decide_True by exact I.
  rewrite filter_broadcast_absent by exact Hfresh. reflexivity.
Qed.

Lemma existsb_keys (sock : Z) (players : list (Z * Player)) :
  existsb (fun k => k =? sock) (map fst players)
  = existsb (fun sp => fst sp =? sock) players.
Proof.
  induction players as [|sp players IH]; [reflexivity|].
  cbn [map existsb]. rewrite IH. reflexivity.
Qed.

(** [acceptNewClient] for a descriptor that is new to the table. *)
Lemma acceptNewClient_fresh (clientSocket : Z) (s : State) :
  0 <= clientSocket ->
  existsb (fun sp => fst sp =? clientSocket) (m_players s) = false ->
  let newPlayerId := to_int (Z.of_nat (length (m_players s)) + 1) in
  let players :=
    (clientSocket, newPlayer clientSocket newPlayerId) :: m_players s in
  acceptNewClient clientSocket s
  = checkGameStart
      (mkState (m_map s) (m_serverSocket s) (m_pollfds s ++ [clientSocket])
               players (m_gameState s) (closed s)
               ((sent s
                 ++ [(clientSocket,
                      [x02; byte_of_Z newPlayerId;
                       byte_of_Z (Z.of_nat (length players))])])
                ++ [(clientSocket, mapDataPacket (m_map s))])).
Proof.
  intros Hc Hfresh. cbv zeta. unfold acceptNewClient.
  destruct (clientSocket <? 0) eqn:E; [lia|].
  cbn [with_pollfds m_players m_pollfds]. unfold with_players at 1.
  cbn [m_players m_map m_serverSocket m_pollfds m_gameState closed sent].
  rewrite emplace_fresh by exact Hfresh.
  reflexivity.
Qed.

Lemma checkGameStart_players (s : State) :
  m_players (checkGameStart s)
  = if (match m_gameState s with WAITING_FOR_PLAYERS => true | _ => false end)
       && (MIN_PLAYERS <=? Z.of_nat (length (m_players s)))
    then map (fun sp => (fst sp, spawn (m_map s) (snd sp))) (m_players s)
    else m_players s.
Proof.
  unfold checkGameStart. destruct (m_gameState s); cbn [andb]; try reflexivity.
  destruct (MIN_PLAYERS <=? Z.of_nat (length (m_players s))); reflexivity.
Qed.

Lemma processPacket_mapData (m : GameMap) (c : NetworkClient.State) :
  NetworkClient.processPacket
    (mapDataPacket m) (Z.of_nat (length (mapDataPacket m))) c
  = NetworkClient.handleMapData
      (mapDataPacket m) (Z.of_nat (length (mapDataPacket m))) c.
Proof.
  unfold NetworkClient.processPacket.
  assert (Htag : nth 0 (mapDataPacket m) x00 = x03)
    by (rewrite PacketFacts.mapDataPacket_eq; reflexivity).
  assert (Hlen : (1 <= length (mapDataPacket m))%nat)
    by (rewrite PacketFacts.mapDataPacket_eq; cbn [app length]; lia).
  rewrite Htag. destruct (Z.of_nat (length (mapDataPacket m)) <? 1) eqn:E; [lia|].
  reflexivity.
Qed.

(** A GAME_STATE_UPDATE packet changes neither the id nor the map of
    the client. *)
Lemma handleGameStateUpdate_keeps (data : list byte) (length : Z)
      (c : NetworkClient.State) :
  NetworkClient.m_localPlayerId (NetworkClient.handleGameStateUpdate data length c)
  = NetworkClient.m_localPlayerId c
  /\ NetworkClient.m_map (NetworkClient.handleGameStateUpdate data length c)
     = NetworkClient.m_map c
  /\ NetworkClient.m_running (NetworkClient.handleGameStateUpdate data length c)
     = NetworkClient.m_running c.
Proof.
  unfold NetworkClient.handleGameStateUpdate.
  destruct (length <? 2); [repeat split|].
  destruct (length <? _); repeat split.
Qed.

Lemma processPacket_gameState (players : list (Z * Player))
      (c : NetworkClient.State) :
  NetworkClient.processPacket
    (Broadcaster.gameStatePacket players)
    (Z.of_nat (length (Broadcaster.gameStatePacket players))) c
  = NetworkClient.handleGameStateUpdate
      (Broadcaster.gameStatePacket players)
      (Z.of_nat (length (Broadcaster.gameStatePacket players))) c.
Proof.
  unfold NetworkClient.processPacket.
  assert (Htag : nth 0 (Broadcaster.gameStatePacket players) x00 = x06)
    by (rewrite WireFacts.gameStatePacket_eq; reflexivity).
  assert (Hlen : (1 <= length (Broadcaster.gameStatePacket players))%nat)
    by (rewrite WireFacts.gameStatePacket_eq; cbn [length]; lia).
  rewrite Htag.
  destruct (Z.of_nat (length (Broadcaster.gameStatePacket players)) <? 1) eqn:E;
    [lia|].
  reflexivity.
Qed.

Lemma bytes_to_app (sock : Z) (a b : list Broadcaster.Send) :
  bytes_to sock (a ++ b) = bytes_to sock a ++ bytes_to sock b.
Proof. unfold bytes_to. rewrite list.filter_app, map_app, concat_app. reflexivity. Qed.

Lemma bytes_to_broadcast_last (sock : Z) (bytes : list byte)
      (players : list (Z * Player)) (p : Player) (f : Z * Player -> Z * Player) :
  (forall sp, fst (f sp) = fst sp) ->
  existsb (fun sp => fst sp =? sock) players = false ->
  bytes_to sock (Broadcaster.broadcastToAll (map f ((sock, p) :: players)) bytes)
  = bytes.
Proof.
  intros Hf Hfresh. unfold bytes_to. rewrite broadcastToAll_keys.
  rewrite (map_map f fst).
  rewrite (map_ext (fun sp => fst (f sp)) fst Hf).
  change (map (fun k => (k, bytes)) (map fst ((sock, p) :: players)))
    with (map (fun k => (k, bytes)) (sock :: map fst players)).
  rewrite filter_broadcast_last by (rewrite existsb_keys; exact Hfresh).
  cbn. apply app_nil_r.
Qed.

(** The handshake, the bytes read at once. *)
Lemma handshake_one_read (s : State) (clientSocket : Z) :
  0 <= clientSocket ->
  existsb (fun sp => fst sp =? clientSocket) (m_players s) = false ->
  well_formed (m_map s) ->
  Z.of_nat (length (m_players s)) < 255 ->
  let s' := acceptNewClient clientSocket s in
  let stream := bytes_to clientSocket (sent_by_accept clientSocket s) in
  let result := NetworkClient.receive [] stream NetworkClient.initial in
  snd result = []
  /\ NetworkClient.m_localPlayerId (fst result)
     = Z.of_nat (length (m_players s)) + 1
  /\ (exists p : Player,
         In (clientSocket, p) (m_players s')
         /\ m_id p = NetworkClient.m_localPlayerId (fst result))
  /\ NetworkClient.m_map (fst result) = raw_view (m_map s)
  /\ NetworkClient.m_running (fst result) = true.
Proof.
  intros Hc Hfresh Hwf Hn. cbv zeta. unfold sent_by_accept.
  rewrite (acceptNewClient_fresh clientSocket s Hc Hfresh). cbv zeta.
  assert (Eid : to_int (Z.of_nat (length (m_players s)) + 1)
                = Z.of_nat (length (m_players s)) + 1)
    by (apply PacketFacts.to_int_small; unfold INT_MIN, INT_MAX; lia).
  rewrite Eid.
  set (newPlayerId := Z.of_nat (length (m_players s)) + 1).
  set (players :=
         (clientSocket, newPlayer clientSocket newPlayerId) :: m_players s).
  set (cr := [x02; byte_of_Z newPlayerId; byte_of_Z (Z.of_nat (length players))]).
  set (s4 := mkState _ _ _ _ _ _ _).
  set (starts := (match m_gameState s4 with WAITING_FOR_PLAYERS => true | _ => false end)
                 && (MIN_PLAYERS <=? Z.of_nat (length (m_players s4)))).
  set (players' := map (fun sp => (fst sp, spawn (m_map s) (snd sp))) players).
  assert (Hlen : Z.of_nat (length players) = newPlayerId).
  { unfold players, newPlayerId. cbn [length]. lia. }
  (* the packets that reach the client *)
  set (packets := [cr; mapDataPacket (m_map s)]
                    ++ (if starts
                        then [Broadcaster.gameStartPacket players';
                              Broadcaster.gameStatePacket players']
                        else [])).
  assert (Estream : bytes_to clientSocket
                      (drop (length (sent s)) (sent (checkGameStart s4)))
                    = concat packets).
  { rewrite checkGameStart_sent. fold starts.
    unfold s4 at 1. cbn [sent]. rewrite <- !app_assoc, drop_app_length.
    rewrite !bytes_to_app. unfold packets. rewrite concat_app.
    cbn [concat app]. rewrite app_nil_r.
    unfold bytes_to at 1 2. rewrite !filter_cons. cbn [fst].
    rewrite Z.eqb_refl, !decide_True by exact I.
    rewrite !filter_nil. cbn [map snd concat]. rewrite !app_nil_r.
    rewrite <- app_assoc. f_equal. f_equal.
    rewrite checkGameStart_players. fold starts.
    destruct starts; [|reflexivity].
    unfold Broadcaster.broadcastGameStart, Broadcaster.broadcastGameState.
    rewrite bytes_to_app.
    change (m_players s4) with players. change (m_map s4) with (m_map s).
    fold players'. unfold players', players.
    rewrite !bytes_to_broadcast_last by (reflexivity || exact Hfresh).
    cbn [concat]. rewrite app_nil_r. reflexivity. }
  rewrite Estream.
  assert (Hpk : Forall ServerStream.server_packet packets).
  { unfold packets. apply Forall_app. split.
    - constructor.
      + change cr with (connectResponsePacket (with_players players s) newPlayerId).
        constructor.
      + constructor; [constructor; exact Hwf | constructor].
    - destruct starts; [|constructor].
      constructor; [constructor|]. constructor; [|constructor].
      constructor. unfold players'. rewrite length_map. lia. }
  assert (Hcut : Client.onReceive [] (concat packets) = (packets, [])).
  { rewrite StreamFacts.onReceive_cut. cbn [app].
    rewrite <- (app_nil_r (concat packets)) at 2.
    apply StreamFacts.cut_framed.
    - eapply List.Forall_impl; [|exact Hpk].
      apply ServerStreamFacts.server_packet_framed.
    - rewrite app_nil_r. lia.
    - left. reflexivity. }
  unfold NetworkClient.receive. rewrite Hcut. cbn [fst snd].
  (* the client after the first two packets *)
  set (c2 := NetworkClient.mkClient newPlayerId (raw_view (m_map s)) [] true None).
  assert (E2 : fold_left (fun c p => NetworkClient.processPacket
                                       p (Z.of_nat (length p)) c)
                         [cr; mapDataPacket (m_map s)] NetworkClient.initial
               = c2).
  { cbn [fold_left].
    change cr with (connectResponsePacket (with_players players s) newPlayerId).
    rewrite HandlerFacts.handleConnectResponse_packet.
    rewrite processPacket_mapData.
    rewrite MapDataFacts.handleMapData_mapDataPacket by (exact Hwf || reflexivity).
    unfold c2, newPlayerId. cbn. rewrite HandlerFacts.mod_256_small by lia.
    reflexivity. }
  unfold packets. rewrite fold_left_app, E2.
  assert (Hrest : forall c : NetworkClient.State,
             let c' := fold_left (fun c p => NetworkClient.processPacket
                                               p (Z.of_nat (length p)) c)
                         (if starts
                          then [Broadcaster.gameStartPacket players';
                                Broadcaster.gameStatePacket players']
                          else []) c in
             NetworkClient.m_localPlayerId c' = NetworkClient.m_localPlayerId c
             /\ NetworkClient.m_map c' = NetworkClient.m_map c
             /\ NetworkClient.m_running c' = NetworkClient.m_running c).
  { intros c. destruct starts; [|repeat split].
    cbn [fold_left]. rewrite HandlerFacts.handleGameStart_packet.
    rewrite processPacket_gameState.
    match goal with
    | |- context [NetworkClient.handleGameStateUpdate ?d ?l ?c0] =>
        destruct (handleGameStateUpdate_keeps d l c0) as (-> & -> & ->)
    end.
    unfold NetworkClient.on_display. repeat split. }
  destruct (Hrest c2) as (Hid & Hmap & Hrun).
  rewrite Hid, Hmap, Hrun. unfold c2.
  cbn [NetworkClient.m_localPlayerId NetworkClient.m_map NetworkClient.m_running].
  split; [reflexivity|]. split; [reflexivity|]. split; [|split; reflexivity].
  rewrite checkGameStart_players. fold starts.
  destruct starts.
  - exists (spawn (m_map s) (newPlayer clientSocket newPlayerId)).
    split; [|reflexivity].
    change (m_players s4) with players. change (m_map s4) with (m_map s).
    unfold players. cbn [map]. left. reflexivity.
  - exists (newPlayer clientSocket newPlayerId). split; [|reflexivity].
    change (m_players s4) with players. unfold players.
    left. reflexivity.
Qed.

(** The handshake.  A client new to the table is told the id of its
    table entry, the number of players plus one, and is sent the
    server's map.  Reading the bytes [acceptNewClient] sends to it, the
    start of the match included when the accept starts it and however
    [recv] cuts them up, a client fresh from its constructor holds that
    id and that map, is running, and retains no byte. *)
Theorem handshake (s : State) (clientSocket : Z) (reads : list (list byte)) :
  0 <= clientSocket ->
  existsb (fun sp => fst sp =? clientSocket) (m_players s) = false ->
  well_formed (m_map s) ->
  Z.of_nat (length (m_players s)) < 255 ->
  concat reads = bytes_to clientSocket (sent_by_accept clientSocket s) ->
  let s' := acceptNewClient clientSocket s in
  let result := NetworkClient.networkLoop reads [] NetworkClient.initial in
  snd result = []
  /\ NetworkClient.m_localPlayerId (fst result)
     = Z.of_nat (length (m_players s)) + 1
  /\ (exists p : Player,
         In (clientSocket, p) (m_players s')
         /\ m_id p = NetworkClient.m_localPlayerId (fst result))
  /\ NetworkClient.m_map (fst result) = raw_view (m_map s)
  /\ NetworkClient.m_running (fst result) = true.
Proof.
  intros Hc Hfresh Hwf Hn Hreads. cbv zeta.
  rewrite LoopFacts.networkLoop_concat by (reflexivity || (left; reflexivity)).
  rewrite Hreads.
  exact (handshake_one_read s clientSocket Hc Hfresh Hwf Hn).
Qed.

Lemma handshake_witness :
  NetworkClient.m_localPlayerId
    (fst (NetworkClient.networkLoop ClientSamples.handshake_reads []
                                    NetworkClient.initial))
  = 1.
Proof.
  assert (H0 : 0 <= 4) by lia.
  assert (H3 : Z.of_nat (length (m_players Sessions.fresh)) < 255)
    by (cbn; lia).
  exact (proj1 (proj2 (handshake
                         Sessions.fresh 4 ClientSamples.handshake_reads
                         H0 eq_refl MapDataFacts.well_formed_one_row H3
                         eq_refl))).
Defined.

End HandshakeFacts.

(** * A collected coin on the server and on the clients *)

Module CoinSyncFacts.

Import MachineInt Protocol.

Import Server StoreSpec.

Lemma map_grid_set {A B : Type} (v : A -> B) (y x : nat) (a : A)
      (g : list (list A)) :
  map (map v) (grid_set y x a g) = grid_set y x (v a) (map (map v) g).
Proof.
  unfold grid_set.
  apply (list_fmap_alter (map v) (fun row => <[x := a]> row)
                         (fun row => <[x := v a]> row)).
  apply Forall_lookup_2. intros i row _. apply list_fmap_insert.
Qed.

Lemma collectCoin_size (y x : nat) (c : CoinState) (p : Player) (m : GameMap) :
  width (snd (collectCoin y x c p m)) = width m
  /\ height (snd (collectCoin y x c p m)) = height m.
Proof.
  unfold collectCoin. cbn [snd].
  destruct (CoinState_eqb c AVAILABLE); [split; reflexivity|].
  destruct (CoinState_eqb c COLLECTED_P1 && (m_id p =? 2)); [split; reflexivity|].
  destruct (CoinState_eqb c COLLECTED_P2 && (m_id p =? 1)); split; reflexivity.
Qed.

(** [collide] on a coin the player has not collected. *)
Lemma collide_coin (before after : list (Z * Player)) (sock : Z)
      (player : Player) (m : GameMap) (x y : Z) (c : CoinState) :
  m_state player = PLAYING ->
  cell_of player = (x, y) ->
  in_map m x y = true ->
  grid_get (Z.to_nat y) (Z.to_nat x) (tiles m) = Some COIN ->
  grid_get (Z.to_nat y) (Z.to_nat x) (coinStates m) = Some c ->
  alreadyCollected (m_id player) c = false ->
  let player' := fst (collectCoin (Z.to_nat y) (Z.to_nat x) c player m) in
  let m' := snd (collectCoin (Z.to_nat y) (Z.to_nat x) c player m) in
  collide before after sock player m
  = (player', m',
     Broadcaster.broadcastCoinCollected
       (before ++ (sock, player') :: after) (m_id player) x y
       (CoinState_value (CoinSpec.new_coin (m_id player) c))).
Proof.
  intros Hst Hcell Hin Htile Hcoin Hnot. cbv zeta. unfold collide.
  rewrite Hst. cbn [PlayerState_eqb PlayerState_value Z.eqb negb Pos.eqb].
  rewrite Hcell, Hin, Htile, Hcoin, Hnot.
  pose proof (CoinFacts.collectCoin_coinStates _ _ _ player m Hcoin) as Hcs.
  destruct (collectCoin (Z.to_nat y) (Z.to_nat x) c player m) as [player' m'] eqn:E.
  cbn [fst snd] in *.
  rewrite Hcs.
  rewrite (CoinFacts.grid_get_set_same _ _ _ c) by exact Hcoin.
  cbn [default].
  assert (Hid : m_id player' = m_id player).
  { unfold collectCoin in E. inversion E. reflexivity. }
  rewrite Hid. reflexivity.
Qed.

Lemma alreadyCollected_not_both (playerId : Z) (c : CoinState) :
  playerId = 1 \/ playerId = 2 ->
  alreadyCollected playerId c = false -> c <> COLLECTED_BOTH.
Proof. intros [-> | ->] H ->; discriminate H. Qed.

(** What the store of a display holds after [handleCoinCollected]. *)
Lemma handleCoinCollected_store (playerId x y coinState : Z)
      (display : GameDisplay.State) :
  GameDisplay.m_gameData
    (GameDisplay.handleCoinCollected playerId x y coinState display)
  = GameData.updateCoinStates x y coinState (GameDisplay.m_gameData display).
Proof.
  unfold GameDisplay.handleCoinCollected.
  cbn [GameDisplay.with_gameData GameDisplay.m_gameData].
  destruct (find _ _); [|reflexivity].
  destruct (playerId =? _); reflexivity.
Qed.

(** Coin collection end to end.  When a playing player 1 or 2 collects
    the coin of a cell whose coordinates fit a byte, every packet the
    server broadcasts for it brings a client store that agreed with
    the map before the collection to agree with the map after it: the
    coin state of the cell, and the tile emptied once both players
    have the coin. *)
Theorem coin_collection_keeps_clients_in_step
        (before after : list (Z * Player)) (sock : Z) (player : Player)
        (m : GameMap) (x y : Z) (c : CoinState)
        (client : NetworkClient.State) (display : GameDisplay.State) :
  m_state player = PLAYING ->
  m_id player = 1 \/ m_id player = 2 ->
  cell_of player = (x, y) ->
  in_map m x y = true ->
  x <= 255 -> y <= 255 ->
  grid_get (Z.to_nat y) (Z.to_nat x) (tiles m) = Some COIN ->
  grid_get (Z.to_nat y) (Z.to_nat x) (coinStates m) = Some c ->
  alreadyCollected (m_id player) c = false ->
  NetworkClient.m_display client = Some display ->
  in_step m (GameDisplay.m_gameData display) ->
  let m' := snd (fst (collide before after sock player m)) in
  let sends := snd (collide before after sock player m) in
  map fst sends = map fst before ++ sock :: map fst after
  /\ forall send : Broadcaster.Send,
      In send sends ->
      exists display',
        NetworkClient.m_display
          (NetworkClient.processPacket (snd send)
                                       (Z.of_nat (length (snd send))) client)
        = Some display'
        /\ in_step m' (GameDisplay.m_gameData display')
        /\ GameData.m_players (GameDisplay.m_gameData display')
           = GameData.m_players (GameDisplay.m_gameData display).
Proof.
  intros Hst Hid Hcell Hin Hx Hy Htile Hcoin Hnot Hdisp Hstep. cbv zeta.
  rewrite (collide_coin before after sock player m x y c) by assumption.
  cbv zeta. cbn [fst snd].
  set (result := collectCoin (Z.to_nat y) (Z.to_nat x) c player m).
  set (new := CoinSpec.new_coin (m_id player) c).
  unfold Broadcaster.broadcastCoinCollected.
  split.
  { rewrite HandshakeFacts.broadcastToAll_keys, map_map. cbn [fst].
    rewrite map_id, map_app. reflexivity. }
  intros send Hsend.
  unfold Broadcaster.broadcastToAll in Hsend. apply in_map_iff in Hsend.
  destruct Hsend as [sp [<- _]]. cbn [snd].
  rewrite HandlerFacts.handleCoinCollected_packet.
  unfold NetworkClient.on_display. cbn [NetworkClient.m_display].
  rewrite Hdisp. cbn [option_map]. eexists. split; [reflexivity|].
  rewrite handleCoinCollected_store.
  pose proof (CoinFacts.in_map_nonneg m x y Hin) as [Hx0 Hy0].
  rewrite (HandlerFacts.mod_256_small x), (HandlerFacts.mod_256_small y) by lia.
  assert (Hv : 0 <= CoinState_value new <= 255)
    by apply MapDataFacts.CoinState_value_range.
  rewrite (HandlerFacts.mod_256_small (CoinState_value new)) by exact Hv.
  destruct Hstep as (Hw & Hh & Ht & Hc).
  unfold GameData.updateCoinStates.
  rewrite Hw, Hh. unfold in_map in Hin. rewrite Hin.
  pose proof (collectCoin_size (Z.to_nat y) (Z.to_nat x) c player m) as [Hw' Hh'].
  pose proof (CoinFacts.collectCoin_coinStates _ _ _ player m Hcoin) as Hcs.
  pose proof (CoinFacts.collectCoin_tiles (Z.to_nat y) (Z.to_nat x) c player m) as Hts.
  fold result in Hw', Hh', Hcs, Hts. fold new in Hcs, Hts.
  assert (Hnb : CoinState_eqb c COLLECTED_BOTH = false).
  { pose proof (alreadyCollected_not_both _ _ Hid Hnot). destruct c; try reflexivity.
    congruence. }
  rewrite Hnb in Hts. cbn [negb] in Hts. rewrite andb_true_r in Hts.
  change (CoinState_value new =? CoinState_value COLLECTED_BOTH)
    with (CoinState_eqb new COLLECTED_BOTH).
  split; [|destruct (CoinState_eqb new COLLECTED_BOTH); reflexivity].
  unfold in_step. rewrite Hw', Hh', Hcs, Hts.
  destruct (CoinState_eqb new COLLECTED_BOTH);
    cbn [GameData.m_map GameData.m_coinStates GameData.c_width GameData.c_height
         GameData.c_tiles];
    rewrite ?Hc, ?Ht, ?map_grid_set; repeat split; assumption.
Qed.

Lemma in_step_watching :
  in_step Samples.one_row_map
          (GameDisplay.m_gameData ClientSamples.watching).
Proof. repeat split. Qed.

Lemma coin_collection_keeps_clients_in_step_witness :
  map fst (snd (collide [] [] 4 Samples.player_on_coin Samples.one_row_map))
  = [4].
Proof.
  assert (Hx : 1 <= 255) by lia.
  assert (Hy : 0 <= 255) by lia.
  exact (proj1 (coin_collection_keeps_clients_in_step
                  [] [] 4 Samples.player_on_coin Samples.one_row_map 1 0
                  AVAILABLE ClientSamples.client_watching
                  ClientSamples.watching
                  eq_refl (or_introl eq_refl) eq_refl eq_refl Hx Hy
                  eq_refl eq_refl eq_refl eq_refl in_step_watching)).
Defined.

End CoinSyncFacts.

(** * Client data and disconnection *)

Module TableFacts.

Import MachineInt Protocol.

Import Server TableSpec.

Lemma setJetpacking_same (p : Player) : setJetpacking (m_isJetpacking p) p = p.
Proof. destruct p; reflexivity. Qed.

Lemma Forall2_map_same {A : Type} (R : A -> A -> Prop) (f : A -> A) (l : list A) :
  (forall a, R a (f a)) -> Forall2 R l (map f l).
Proof. intros H. induction l as [|a l IH]; constructor; [apply H | exact IH]. Qed.

Lemma Forall2_same {A : Type} (R : A -> A -> Prop) (l : list A) :
  (forall a, R a a) -> Forall2 R l l.
Proof. intros H. induction l as [|a l IH]; constructor; [apply H | exact IH]. Qed.

(** Whatever bytes arrive from a client, a disconnect request apart,
    the server changes nothing but the jetpack flag of the player of
    that client: the map, the state of the match, the descriptors and
    the other players are as before, and nothing is sent or closed. *)
Theorem client_data_is_confined (clientSocket : Z) (bytes : list byte) (s : State) :
  PacketType_of_byte (nth 0 bytes x00) <> Some PLAYER_DISCONNECT ->
  let s' := processPacket clientSocket bytes s in
  m_map s' = m_map s /\ m_gameState s' = m_gameState s
  /\ m_pollfds s' = m_pollfds s /\ m_serverSocket s' = m_serverSocket s
  /\ closed s' = closed s /\ sent s' = sent s
  /\ Forall2 (fun sp sp' : Z * Player =>
                fst sp' = fst sp
                /\ same_but_jetpack (snd sp) (snd sp')
                /\ (fst sp <> clientSocket -> sp' = sp)
                /\ (PlayerState_eqb (m_state (snd sp)) PLAYING = false -> sp' = sp))
             (m_players s) (m_players s').
Proof.
  intros Htag. cbv zeta.
  assert (Hsame : Forall2 (fun sp sp' : Z * Player =>
                fst sp' = fst sp
                /\ same_but_jetpack (snd sp) (snd sp')
                /\ (fst sp <> clientSocket -> sp' = sp)
                /\ (PlayerState_eqb (m_state (snd sp)) PLAYING = false -> sp' = sp))
             (m_players s) (m_players s)).
  { apply Forall2_same. intros sp. repeat split.
    unfold same_but_jetpack. symmetry. apply setJetpacking_same. }
  unfold processPacket. destruct bytes as [|tag rest]; [repeat split; exact Hsame|].
  cbn [nth] in Htag.
  destruct (PacketType_of_byte tag) as [[]|]; try (repeat split; exact Hsame);
    [|congruence].
  unfold handlePlayerInput.
  destruct (Z.of_nat (length (tag :: rest)) <? 2); [repeat split; exact Hsame|].
  cbn [with_players m_map m_gameState m_pollfds m_serverSocket closed sent m_players].
  repeat split. apply Forall2_map_same. intros [k p]. cbn [fst snd].
  destruct (k =? clientSocket) eqn:Ek; cbn [andb];
    [destruct (PlayerState_eqb (m_state p) PLAYING) eqn:Es|];
    cbn [fst snd]; repeat split;
    try (intros; lia); try discriminate;
    unfold same_but_jetpack; destruct p; reflexivity.
Qed.

Lemma playerInputPacket_eq (jetpackActive : bool) :
  NetworkClient.playerInputPacket jetpackActive
  = [x05; if jetpackActive then x01 else x00].
Proof. destruct jetpackActive; reflexivity. Qed.

(** PLAYER_INPUT round trip: the packet [sendPlayerInput] builds sets
    the jetpack flag of the sender's player, when that player is
    playing, to the flag the client sent, and changes nothing else. *)
Theorem player_input_round_trip (clientSocket : Z) (jetpackActive : bool)
        (s : State) :
  processPacket clientSocket (NetworkClient.playerInputPacket jetpackActive) s
  = with_players
      (map (fun sp => if (fst sp =? clientSocket)
                         && PlayerState_eqb (m_state (snd sp)) PLAYING
                      then (fst sp, setJetpacking jetpackActive (snd sp))
                      else sp)
           (m_players s)) s
  /\ (forall (before after : list (Z * Player)) (p : Player),
         m_players s = before ++ (clientSocket, p) :: after ->
         m_state p = PLAYING ->
         exists before' after',
           m_players (processPacket clientSocket
                        (NetworkClient.playerInputPacket jetpackActive) s)
           = before' ++ (clientSocket, setJetpacking jetpackActive p) :: after'
           /\ length before' = length before).
Proof.
  assert (E : processPacket clientSocket
                (NetworkClient.playerInputPacket jetpackActive) s
              = with_players
                  (map (fun sp => if (fst sp =? clientSocket)
                                     && PlayerState_eqb (m_state (snd sp)) PLAYING
                                  then (fst sp, setJetpacking jetpackActive (snd sp))
                                  else sp)
                       (m_players s)) s).
  { rewrite playerInputPacket_eq. destruct jetpackActive; reflexivity. }
  split; [exact E|].
  intros before after p Hp Hst. rewrite E. cbn [with_players m_players].
  rewrite Hp, map_app. cbn [map fst snd]. rewrite Z.eqb_refl, Hst.
  cbn [PlayerState_eqb PlayerState_value Z.eqb Pos.eqb andb].
  eexists _, _. split; [reflexivity|]. apply length_map.
Qed.

Lemma remove_first_None (fd : Z) (fds : list Z) :
  remove_first fd fds = None <-> ~ In fd fds.
Proof.
  induction fds as [|f fds IH]; cbn [remove_first In]; [tauto|].
  destruct (f =? fd) eqn:E.
  - split; [discriminate|]. intros H. exfalso. apply H. left. lia.
  - destruct (remove_first fd fds) eqn:Er.
    + split; [discriminate|]. intros H. exfalso.
      assert (~ In fd fds) by tauto. apply IH in H0. discriminate.
    + split; [|reflexivity]. intros _ [Hf|Hin]; [lia|].
      destruct IH as [IH _]. exact (IH eq_refl Hin).
Qed.

Lemma remove_first_Some (fd : Z) (fds fds' : list Z) :
  remove_first fd fds = Some fds' ->
  exists pre post,
    fds = pre ++ fd :: post /\ ~ In fd pre /\ fds' = pre ++ post.
Proof.
  revert fds'. induction fds as [|f fds IH]; intros fds'; cbn [remove_first];
    [discriminate|].
  destruct (f =? fd) eqn:E.
  - intros H. inversion H; subst. exists [], fds'. cbn.
    repeat split; [f_equal; lia | tauto].
  - destruct (remove_first fd fds) as [rest|] eqn:Er; [|discriminate].
    intros H. inversion H; subst.
    destruct (IH rest eq_refl) as (pre & post & -> & Hpre & ->).
    exists (f :: pre), post. cbn. repeat split.
    intros [Hf|Hin]; [lia | exact (Hpre Hin)].
Qed.

Lemma erase_keys (key : Z) (players : list (Z * Player)) :
  map fst (erase key players)
  = filter (fun k => negb (k =? key)) (map fst players).
Proof.
  unfold erase. induction players as [|[k p] players IH]; [reflexivity|].
  cbn [map fst]. rewrite !filter_cons. cbn [fst].
  destruct (negb (k =? key)); cbn [Is_true].
  - rewrite !decide_True by exact I. cbn [map fst]. rewrite IH. reflexivity.
  - rewrite !decide_False by (intros []). exact IH.
Qed.

Lemma filter_absent (key : Z) (keys : list Z) :
  ~ In key keys -> filter (fun k => negb (k =? key)) keys = keys.
Proof.
  induction keys as [|k keys IH]; intros H; [reflexivity|].
  rewrite filter_cons. destruct (k =? key) eqn:E.
  - exfalso. apply H. left. lia.
  - cbn. rewrite decide_True by exact I. f_equal. apply IH.
    intros Hin. apply H. right. exact Hin.
Qed.

Lemma filter_once (key : Z) (pre post : list Z) :
  ~ In key pre -> ~ In key post ->
  filter (fun k => negb (k =? key)) (pre ++ key :: post) = pre ++ post.
Proof.
  intros Hpre Hpost. rewrite list.filter_app, filter_cons.
  rewrite Z.eqb_refl. cbn. rewrite decide_False by (intros []).
  rewrite !filter_absent by assumption. reflexivity.
Qed.

Lemma In_erase (key : Z) (players : list (Z * Player)) (sp : Z * Player) :
  In sp (erase key players) <-> In sp players /\ fst sp <> key.
Proof.
  unfold erase. rewrite <- !list_elem_of_In, list_elem_of_filter.
  destruct (fst sp =? key) eqn:E; cbn; split; intros [H1 H2]; split;
    try assumption; try exact I; try lia; try contradiction.
Qed.

Lemma existsb_In (fd : Z) (fds : list Z) :
  existsb (fun f => f =? fd) fds = true <-> In fd fds.
Proof.
  rewrite existsb_exists. split.
  - intros [f [Hin Hf]]. apply Z.eqb_eq in Hf. subst. exact Hin.
  - intros Hin. exists fd. split; [exact Hin | apply Z.eqb_refl].
Qed.

(** [handleClientDisconnect] as one state. *)
Lemma handleClientDisconnect_eq (clientSocket : Z) (s : State) :
  let players := erase clientSocket (m_players s) in
  let over :=
    (match m_gameState s with IN_PROGRESS => true | _ => false end)
    && (count_state PLAYING players <? MIN_PLAYERS) in
  handleClientDisconnect clientSocket s
  = mkState (m_map s) (m_serverSocket s)
            (default (m_pollfds s) (remove_first clientSocket (m_pollfds s)))
            players
            (if over then GAME_OVER else m_gameState s)
            (closed s ++ match remove_first clientSocket (m_pollfds s) with
                         | Some _ => [clientSocket]
                         | None => []
                         end)
            (sent s ++ if over then Broadcaster.broadcastGameOver players (-1)
                       else []).
Proof.
  cbv zeta. unfold handleClientDisconnect. destruct s as [m srv fds ps g cl sn].
  cbn [with_players m_pollfds m_gameState m_players m_map m_serverSocket closed sent].
  destruct (remove_first clientSocket fds); destruct g;
    cbn [with_pollfds do_close with_gameState do_send with_players m_pollfds
         m_gameState m_players m_map m_serverSocket closed sent andb default];
    rewrite ?app_nil_r; try reflexivity;
    destruct (count_state PLAYING _ <? MIN_PLAYERS);
    cbn [with_pollfds do_close with_gameState do_send with_players m_pollfds
         m_gameState m_players m_map m_serverSocket closed sent];
    rewrite ?app_nil_r; reflexivity.
Qed.

(** A disconnect removes the entries of that socket from the table and
    leaves every other entry as it was; the socket is closed once if it
    was polled and not at all otherwise; the match is declared over,
    with "no winner" sent to those who remain, exactly when it was in
    progress and fewer than two of them are playing.  The map is not
    touched and the game is not reset. *)
Theorem disconnect_removes_the_client (clientSocket : Z) (s : State) :
  let s' := handleClientDisconnect clientSocket s in
  let over :=
    (match m_gameState s with IN_PROGRESS => true | _ => false end)
    && (count_state PLAYING (erase clientSocket (m_players s)) <? MIN_PLAYERS) in
  let polled := existsb (fun fd => fd =? clientSocket) (m_pollfds s) in
  (forall sp, In sp (m_players s') <-> In sp (m_players s) /\ fst sp <> clientSocket)
  /\ closed s' = closed s ++ (if polled then [clientSocket] else [])
  /\ length (m_pollfds s')
     = (length (m_pollfds s) - (if polled then 1 else 0))%nat
  /\ m_map s' = m_map s
  /\ m_gameState s' = (if over then GAME_OVER else m_gameState s)
  /\ sent s'
     = sent s ++ (if over
                  then map (fun sp => (fst sp, [x0a; x00; x00])) (m_players s')
                  else []).
Proof.
  cbv zeta. rewrite (handleClientDisconnect_eq clientSocket s). cbv zeta.
  cbn [m_players m_pollfds m_map m_gameState closed sent].
  split; [intros sp; apply In_erase|].
  assert (Hfds : match remove_first clientSocket (m_pollfds s) with
                 | Some fds' =>
                     existsb (fun fd => fd =? clientSocket) (m_pollfds s) = true
                     /\ S (length fds') = length (m_pollfds s)
                 | None => existsb (fun fd => fd =? clientSocket) (m_pollfds s) = false
                 end).
  { destruct (remove_first clientSocket (m_pollfds s)) as [fds'|] eqn:Er.
    - apply remove_first_Some in Er. destruct Er as (pre & post & E & _ & ->).
      split.
      + apply existsb_In. rewrite E. apply in_or_app. right. left. reflexivity.
      + rewrite E, !length_app. cbn [length]. lia.
    - apply remove_first_None in Er. apply not_true_is_false.
      intros H. apply existsb_In in H. contradiction. }
  destruct (remove_first clientSocket (m_pollfds s)) as [fds'|];
    [destruct Hfds as [-> Hlen] | rewrite Hfds]; cbn [default];
    (split; [reflexivity|]); (split; [unfold id; lia|]); repeat split.
Qed.

Lemma client_data_is_confined_witness :
  sent (processPacket 4 [x05; x01] Sessions.fresh) = sent Sessions.fresh.
Proof.
  assert (H : PacketType_of_byte (nth 0 [x05; x01] x00)
              <> Some PLAYER_DISCONNECT)
    by (cbn; discriminate).
  exact (proj1 (proj2 (proj2 (proj2 (proj2 (proj2
           (client_data_is_confined 4 [x05; x01] Sessions.fresh H))))))).
Defined.

End TableFacts.

(** * Collisions *)

Module CollisionFacts.

Import MachineInt Protocol.

Import Server TickSpec.

Lemma collided_refl (p : Player) : collided p p.
Proof. unfold collided. repeat split; auto. Qed.

Lemma coin_le_refl (c : CoinState) : coin_le c c.
Proof. left. reflexivity. Qed.

Lemma coin_le_trans (a b c : CoinState) : coin_le a b -> coin_le b c -> coin_le a c.
Proof.
  unfold coin_le. intros [H1|[H1|H1]] [H2|[H2|H2]]; subst; auto; discriminate.
Qed.

Lemma coin_le_new (playerId : Z) (c : CoinState) :
  coin_le c (CoinSpec.new_coin playerId c).
Proof.
  unfold coin_le, CoinSpec.new_coin.
  destruct c; cbn; auto; destruct (playerId =? 2); destruct (playerId =? 1); auto.
Qed.

Lemma advances_refl (m : GameMap) : advances m m.
Proof.
  unfold advances. repeat split; [|intros; left; assumption].
  intros y x c H. exists c. split; [exact H | apply coin_le_refl].
Qed.

Lemma advances_trans (a b c : GameMap) : advances a b -> advances b c -> advances a c.
Proof.
  intros (Hw1 & Hh1 & Hc1 & Ht1) (Hw2 & Hh2 & Hc2 & Ht2).
  unfold advances. repeat split; try congruence.
  - intros y x c0 H. destruct (Hc1 y x c0 H) as [c1 [H1 L1]].
    destruct (Hc2 y x c1 H1) as [c2 [H2 L2]].
    exists c2. split; [exact H2 | eapply coin_le_trans; eassumption].
  - intros y x t H. destruct (Ht1 y x t H) as [H1|[-> H1]].
    + exact (Ht2 y x t H1).
    + right. split; [reflexivity|].
      destruct (Ht2 y x EMPTY H1) as [H2|[Habs _]]; [exact H2 | discriminate].
Qed.

(** Looking up a grid after one assignment. *)
Lemma grid_get_set (A : Type) (y x y' x' : nat) (v old : A) (g : list (list A)) :
  grid_get y x g = Some old ->
  grid_get y' x' (grid_set y x v g)
  = if decide ((y', x') = (y, x)) then Some v else grid_get y' x' g.
Proof.
  intros Hold. destruct (decide ((y', x') = (y, x))) as [E|E].
  - inversion E; subst. eapply CoinFacts.grid_get_set_same. exact Hold.
  - apply CoinFacts.grid_get_set_other. exact E.
Qed.

(** One collection advances the map. *)
Lemma collectCoin_advances (y x : nat) (c : CoinState) (p : Player) (m : GameMap) :
  grid_get y x (tiles m) = Some COIN ->
  grid_get y x (coinStates m) = Some c ->
  advances m (snd (collectCoin y x c p m)).
Proof.
  intros Htile Hcoin.
  pose proof (CoinSyncFacts.collectCoin_size y x c p m) as [Hw Hh].
  pose proof (CoinFacts.collectCoin_coinStates y x c p m Hcoin) as Hcs.
  pose proof (CoinFacts.collectCoin_tiles y x c p m) as Hts.
  unfold advances. rewrite Hw, Hh, Hcs, Hts. repeat split.
  - intros y' x' c0 H. rewrite (grid_get_set _ _ _ _ _ _ c) by exact Hcoin.
    destruct (decide ((y', x') = (y, x))) as [E|E].
    + inversion E; subst. rewrite Hcoin in H. inversion H; subst.
      eexists. split; [reflexivity | apply coin_le_new].
    + exists c0. split; [exact H | apply coin_le_refl].
  - intros y' x' t H.
    destruct (CoinState_eqb _ COLLECTED_BOTH && negb (CoinState_eqb c COLLECTED_BOTH));
      [|left; exact H].
    rewrite (grid_get_set _ _ _ _ _ _ COIN) by exact Htile.
    destruct (decide ((y', x') = (y, x))) as [E|E]; [|left; exact H].
    inversion E; subst. rewrite Htile in H. inversion H; subst.
    right. split; reflexivity.
Qed.

(** The three outcomes of the body of the loop of [checkCollisions]. *)
Lemma collide_cases (before after : list (Z * Player)) (sock : Z)
      (player : Player) (m : GameMap) :
  collide before after sock player m = (player, m, [])
  \/ (PlayerState_eqb (m_state player) PLAYING = true
      /\ in_map m (fst (cell_of player)) (snd (cell_of player)) = true
      /\ grid_get (Z.to_nat (snd (cell_of player))) (Z.to_nat (fst (cell_of player)))
                  (tiles m) = Some ELECTRICSQUARE
      /\ collide before after sock player m
         = (setState DEAD player, m,
            Broadcaster.broadcastPlayerDeath
              (before ++ (sock, setState DEAD player) :: after) (m_id player)))
  \/ (PlayerState_eqb (m_state player) PLAYING = true
      /\ in_map m (fst (cell_of player)) (snd (cell_of player)) = true
      /\ exists c,
          grid_get (Z.to_nat (snd (cell_of player))) (Z.to_nat (fst (cell_of player)))
                   (tiles m) = Some COIN
          /\ grid_get (Z.to_nat (snd (cell_of player)))
                      (Z.to_nat (fst (cell_of player))) (coinStates m) = Some c
          /\ alreadyCollected (m_id player) c = false
          /\ fst (collide before after sock player m)
             = collectCoin (Z.to_nat (snd (cell_of player)))
                           (Z.to_nat (fst (cell_of player))) c player m).
Proof.
  unfold collide.
  destruct (PlayerState_eqb (m_state player) PLAYING) eqn:Es; cbn [negb];
    [|left; reflexivity].
  destruct (cell_of player) as [cx cy] eqn:Ec. cbn [fst snd].
  destruct (in_map m cx cy) eqn:Ein; [|left; reflexivity].
  destruct (grid_get (Z.to_nat cy) (Z.to_nat cx) (tiles m)) as [[]|] eqn:Et;
    try (left; reflexivity).
  - destruct (grid_get (Z.to_nat cy) (Z.to_nat cx) (coinStates m)) as [c|] eqn:Ecs;
      [|left; reflexivity].
    destruct (alreadyCollected (m_id player) c) eqn:Ea; [left; reflexivity|].
    right. right. split; [reflexivity|]. split; [reflexivity|].
    exists c. repeat split; assumption.
  - right. left. repeat split; reflexivity.
Qed.

Lemma collectCoin_player (y x : nat) (c : CoinState) (p : Player) (m : GameMap) :
  fst (collectCoin y x c p m) = setScore (to_int (m_score p + 1)) p.
Proof. reflexivity. Qed.

(** One run of the body changes the player as [collided] allows and
    advances the map. *)
Lemma collide_step (before after : list (Z * Player)) (sock : Z)
      (player : Player) (m : GameMap) :
  collided player (fst (fst (collide before after sock player m)))
  /\ advances m (snd (fst (collide before after sock player m))).
Proof.
  destruct (collide_cases before after sock player m)
    as [E|[(Es & _ & _ & E)|(Es & _ & c & Ht & Hc & _ & E)]].
  - rewrite E. cbn [fst snd]. split; [apply collided_refl | apply advances_refl].
  - rewrite E. cbn [fst snd]. split; [|apply advances_refl].
    unfold collided. destruct player; cbn in *.
    repeat split; auto. intros Hn. congruence.
  - rewrite E. split; [|apply collectCoin_advances; assumption].
    rewrite collectCoin_player. unfold collided. destruct player; cbn in *.
    repeat split; auto. intros Hn. congruence.
Qed.

(** The loop of [checkCollisions]. *)
Lemma checkCollisions_loop_spec (todo : list (Z * Player)) :
  forall (before : list (Z * Player)) (m : GameMap) (out : list Broadcaster.Send),
  exists done,
    fst (fst (checkCollisions_loop before todo m out)) = before ++ done
    /\ Forall2 (fun sp sp' => fst sp' = fst sp /\ collided (snd sp) (snd sp'))
               todo done
    /\ advances m (snd (fst (checkCollisions_loop before todo m out))).
Proof.
  induction todo as [|[sock player] todo IH]; intros before m out.
  - exists []. cbn [checkCollisions_loop fst snd]. rewrite app_nil_r.
    split; [reflexivity|]. split; [constructor | apply advances_refl].
  - cbn [checkCollisions_loop].
    pose proof (collide_step before todo sock player m) as [Hp Hm].
    destruct (collide before todo sock player m) as [[player' m'] sends].
    cbn [fst snd] in Hp, Hm.
    destruct (IH (before ++ [(sock, player')]) m' (out ++ sends))
      as (done & E & Hall & Hadv).
    exists ((sock, player') :: done). split; [|split].
    + rewrite E, <- app_assoc. reflexivity.
    + constructor; [split; [reflexivity | exact Hp] | exact Hall].
    + eapply advances_trans; eassumption.
Qed.

(** Collisions never move a player and never change who is in the
    table: entry by entry the socket, the id, the position, the
    velocity and the jetpack flag are kept, the state changes at most
    to DEAD and the score by at most one, and a player that is not
    playing is left as it is.  The map keeps its size; its coins only
    gain collectors and its tiles only change from COIN to EMPTY. *)
Theorem collisions_keep_the_table (s : State) :
  let s' := checkCollisions s in
  Forall2 (fun sp sp' => fst sp' = fst sp /\ collided (snd sp) (snd sp'))
          (m_players s) (m_players s')
  /\ advances (m_map s) (m_map s')
  /\ m_gameState s' = m_gameState s
  /\ m_pollfds s' = m_pollfds s
  /\ closed s' = closed s.
Proof.
  cbv zeta. unfold checkCollisions.
  destruct (checkCollisions_loop_spec (m_players s) [] (m_map s) [])
    as (done & E & Hall & Hadv).
  destruct (checkCollisions_loop [] (m_players s) (m_map s) []) as [[ps m'] out].
  cbn [fst snd app] in E, Hadv. subst ps.
  cbn [do_send with_map with_players m_players m_map m_gameState m_pollfds closed].
  split; [exact Hall|]. split; [exact Hadv|]. repeat split.
Qed.

End CollisionFacts.

(** * The descriptors polled *)

Module InvariantFacts.

Import MachineInt Protocol.

Import Server TableSpec.

Lemma Forall2_keys (R : Player -> Player -> Prop) (l l' : list (Z * Player)) :
  Forall2 (fun sp sp' => fst sp' = fst sp /\ R (snd sp) (snd sp')) l l' ->
  map fst l' = map fst l.
Proof.
  induction 1 as [|sp sp' l l' [Hk _] _ IH]; [reflexivity|].
  cbn [map]. rewrite Hk, IH. reflexivity.
Qed.

Lemma checkCollisions_keys (s : State) :
  map fst (m_players (checkCollisions s)) = map fst (m_players s)
  /\ m_pollfds (checkCollisions s) = m_pollfds s
  /\ m_serverSocket (checkCollisions s) = m_serverSocket s.
Proof.
  unfold checkCollisions.
  destruct (CollisionFacts.checkCollisions_loop_spec (m_players s) [] (m_map s) [])
    as (done & E & Hall & _).
  destruct (checkCollisions_loop [] (m_players s) (m_map s) []) as [[ps m'] out].
  cbn [fst snd app] in E. subst ps.
  cbn [do_send with_map with_players m_players m_pollfds m_serverSocket].
  split; [|split; reflexivity].
  eapply Forall2_keys. exact Hall.
Qed.

(** [resetGame] and [checkGameEnd] leave the descriptors consistent. *)
Lemma checkGameEnd_consistent (file : MapFile) (s s' : State) :
  consistent s -> checkGameEnd file s = Some s' ->
  consistent s' /\ m_serverSocket s' = m_serverSocket s.
Proof.
  intros Hc. unfold checkGameEnd.
  destruct (end_condition (m_players s)); [|intros H; inversion H; subst; auto].
  unfold resetGame.
  cbn [do_close do_send with_gameState with_players with_pollfds m_map m_players
       m_serverSocket].
  destruct (loadMap file (m_map s)) as [[] m']; [|discriminate].
  intros H. inversion H; subst. unfold consistent.
  cbn [with_gameState with_map m_pollfds m_serverSocket m_players map].
  split; [|reflexivity]. exists [].
  split; [reflexivity|]. split; [constructor | apply NoDup_singleton].
Qed.

(** A change of the players that keeps the sockets keeps the
    descriptors consistent. *)
Lemma consistent_same_keys (s s' : State) :
  consistent s ->
  m_pollfds s' = m_pollfds s ->
  m_serverSocket s' = m_serverSocket s ->
  map fst (m_players s') = map fst (m_players s) ->
  consistent s'.
Proof.
  intros (clients & Hfds & Hperm & Hnd) Hp Hs Hk.
  exists clients. rewrite Hp, Hs, Hk. auto.
Qed.

(** A tick leaves the descriptors consistent. *)
Lemma updateGameState_consistent (file : MapFile) (s s' : State) :
  consistent s -> updateGameState file s = Some s' ->
  consistent s' /\ m_serverSocket s' = m_serverSocket s.
Proof.
  intros Hc. unfold updateGameState.
  destruct (m_gameState s); try solve [intros H; inversion H; subst; auto].
  destruct (_ && _).
  - intros H. inversion H; subst. clear H.
    split; [|reflexivity].
    apply (consistent_same_keys s); [exact Hc | reflexivity | reflexivity |].
    cbn [do_send with_players m_players]. rewrite map_map. reflexivity.
  - intros H.
    pose proof (checkCollisions_keys (updatePlayers s)) as (Hk & Hp & Hs).
    assert (HX : consistent
                   (do_send (Broadcaster.broadcastGameState
                               (m_players (checkCollisions (updatePlayers s))))
                            (checkCollisions (updatePlayers s)))).
    { apply (consistent_same_keys s); [exact Hc | | |].
      - cbn [do_send m_pollfds]. rewrite Hp. reflexivity.
      - cbn [do_send m_serverSocket]. rewrite Hs. reflexivity.
      - cbn [do_send m_players]. rewrite Hk. unfold updatePlayers.
        cbn [with_players m_players]. rewrite map_map. reflexivity. }
    destruct (checkGameEnd_consistent file _ s' HX H) as [Hc' Hs'].
    split; [exact Hc'|]. rewrite Hs'. cbn [do_send m_serverSocket].
    rewrite Hs. reflexivity.
Qed.

Lemma remove_first_head_other (fd srv : Z) (keys : list Z) :
  srv <> fd ->
  remove_first fd (srv :: keys)
  = option_map (cons srv) (remove_first fd keys).
Proof.
  intros H. cbn [remove_first]. destruct (srv =? fd) eqn:E; [lia|].
  destruct (remove_first fd keys); reflexivity.
Qed.

(** Among descriptors without repetition, removing the first
    occurrence removes every occurrence. *)
Lemma remove_first_filter (fd : Z) (fds : list Z) :
  NoDup fds ->
  default fds (remove_first fd fds)
  = filter (fun k => negb (k =? fd)) fds.
Proof.
  intros Hnd. destruct (remove_first fd fds) as [rest|] eqn:Er.
  - apply TableFacts.remove_first_Some in Er.
    destruct Er as (pre & post & -> & Hpre & ->). cbn [default].
    apply list.NoDup_app in Hnd. destruct Hnd as (_ & _ & Hn2).
    apply list.NoDup_cons in Hn2. destruct Hn2 as [Hpost _].
    rewrite TableFacts.filter_once
      by (exact Hpre || (rewrite <- list_elem_of_In; exact Hpost)).
    reflexivity.
  - apply TableFacts.remove_first_None in Er. cbn [default].
    rewrite TableFacts.filter_absent by exact Er. reflexivity.
Qed.

(** A disconnect of a client descriptor leaves the descriptors
    consistent. *)
Lemma handleClientDisconnect_consistent (clientSocket : Z) (s : State) :
  consistent s -> clientSocket <> m_serverSocket s ->
  consistent (handleClientDisconnect clientSocket s)
  /\ m_serverSocket (handleClientDisconnect clientSocket s) = m_serverSocket s.
Proof.
  intros (clients & Hfds & Hperm & Hnd) Hne.
  rewrite TableFacts.handleClientDisconnect_eq. cbv zeta.
  unfold consistent. cbn [m_pollfds m_serverSocket m_players].
  split; [|reflexivity].
  rewrite Hfds in *. rewrite remove_first_head_other by congruence.
  apply list.NoDup_cons in Hnd. destruct Hnd as [Hsrv Hclients].
  assert (E : default (m_serverSocket s :: clients)
                       (option_map (cons (m_serverSocket s))
                                   (remove_first clientSocket clients))
              = m_serverSocket s
                  :: filter (fun k => negb (k =? clientSocket)) clients).
  { rewrite <- (remove_first_filter clientSocket clients Hclients).
    destruct (remove_first clientSocket clients); reflexivity. }
  rewrite E.
  exists (filter (fun k => negb (k =? clientSocket)) clients).
  split; [reflexivity|]. split.
  - rewrite TableFacts.erase_keys. apply filter_Permutation. exact Hperm.
  - apply list.NoDup_cons. split.
    + intros Hin. apply list_elem_of_filter in Hin. apply Hsrv, Hin.
    + apply list.NoDup_filter. exact Hclients.
Qed.

Lemma processPacket_consistent (clientSocket : Z) (bytes : list byte) (s : State) :
  consistent s -> clientSocket <> m_serverSocket s ->
  consistent (processPacket clientSocket bytes s)
  /\ m_serverSocket (processPacket clientSocket bytes s) = m_serverSocket s.
Proof.
  intros Hc Hne. unfold processPacket.
  destruct bytes as [|tag rest]; [auto|].
  destruct (PacketType_of_byte tag) as [[]|]; auto.
  - unfold handlePlayerInput. destruct (_ <? 2); [auto|].
    split; [|reflexivity].
    apply (consistent_same_keys s); [exact Hc | reflexivity | reflexivity |].
    cbn [with_players m_players]. rewrite map_map.
    apply map_ext. intros sp. destruct (_ && _); reflexivity.
  - apply handleClientDisconnect_consistent; assumption.
Qed.

Lemma acceptNewClient_consistent (clientSocket : Z) (s : State) :
  consistent s ->
  clientSocket < 0 \/ clientSocket ∉ m_pollfds s ->
  consistent (acceptNewClient clientSocket s)
  /\ m_serverSocket (acceptNewClient clientSocket s) = m_serverSocket s.
Proof.
  intros Hcons Hc.
  destruct (Z_lt_ge_dec clientSocket 0) as [Hneg|Hpos].
  { unfold acceptNewClient. destruct (clientSocket <? 0) eqn:E; [|lia].
    split; [exact Hcons | reflexivity]. }
  destruct Hcons as (clients & Hfds & Hperm & Hnd).
  destruct Hc as [Hc|Hc]; [lia|].
  assert (Hfresh : existsb (fun sp => fst sp =? clientSocket) (m_players s) = false).
  { rewrite <- HandshakeFacts.existsb_keys. apply not_true_is_false. intros H.
    apply TableFacts.existsb_In in H. apply Hc. rewrite Hfds.
    apply elem_of_cons. right. rewrite Hperm. apply list_elem_of_In. exact H. }
  rewrite HandshakeFacts.acceptNewClient_fresh by (lia || exact Hfresh). cbv zeta.
  set (s4 := mkState _ _ _ _ _ _ _).
  unfold consistent.
  rewrite HandshakeFacts.checkGameStart_keys.
  assert (Hp : m_pollfds (checkGameStart s4) = m_pollfds s4).
  { unfold checkGameStart. destruct (m_gameState s4); try reflexivity.
    destruct (_ <=? _); reflexivity. }
  assert (Hs : m_serverSocket (checkGameStart s4) = m_serverSocket s4).
  { unfold checkGameStart. destruct (m_gameState s4); try reflexivity.
    destruct (_ <=? _); reflexivity. }
  rewrite Hp, Hs. unfold s4. cbn [m_pollfds m_serverSocket m_players].
  split; [|reflexivity].
  exists (clients ++ [clientSocket]). rewrite Hfds. cbn [map fst].
  split; [reflexivity|]. split.
  - rewrite <- Permutation_cons_append. constructor. exact Hperm.
  - rewrite <- Hfds. apply list.NoDup_app.
    split; [exact Hnd|]. split; [|apply NoDup_singleton].
    intros k Hk Hk'. apply list_elem_of_singleton in Hk'. subst. contradiction.
Qed.

Lemma step_consistent (file : MapFile) (s s' : State) (e : Event) :
  consistent s -> plausible s e -> step file s e = Some s' ->
  consistent s' /\ m_serverSocket s' = m_serverSocket s.
Proof.
  intros Hc Hp. destruct e as [c|c r|fd|]; cbn [step plausible] in *.
  - intros H. inversion H; subst. apply acceptNewClient_consistent; assumption.
  - intros H. inversion H; subst. unfold handleClientData.
    destruct r as [[|b buffer]| |]; auto.
    + apply handleClientDisconnect_consistent; assumption.
    + apply processPacket_consistent; assumption.
    + apply handleClientDisconnect_consistent; assumption.
  - destruct (fd =? m_serverSocket s) eqn:E; intros H; inversion H; subst; auto.
    apply handleClientDisconnect_consistent; [assumption | lia].
  - apply updateGameState_consistent. exact Hc.
Qed.

(** From the construction of the server on, and through every session
    of plausible events, the descriptors polled are the listener
    followed by the sockets of the players in the table, each socket
    once: no player goes unpolled and no descriptor outlives its
    player; the listener is never replaced. *)
Theorem descriptors_follow_the_table
        (file : MapFile) (serverSocket : Z) (events : list Event)
        (s0 s : State) :
  init file serverSocket = Some s0 ->
  all_plausible file s0 events ->
  run file s0 events = Some s ->
  exists clients : list Z,
    m_pollfds s = serverSocket :: clients
    /\ Permutation clients (map fst (m_players s))
    /\ NoDup (m_pollfds s)
    /\ m_serverSocket s = serverSocket.
Proof.
  intros Hinit.
  assert (H0 : consistent s0 /\ m_serverSocket s0 = serverSocket).
  { unfold init in Hinit. destruct (loadMap file empty_map) as [[] m]; [|discriminate].
    inversion Hinit; subst. split; [|reflexivity]. exists []. cbn.
    split; [reflexivity|]. split; [constructor | apply NoDup_singleton]. }
  clear Hinit. revert s0 H0.
  induction events as [|e events IH]; intros s0 [Hc Hs] Hpl Hrun.
  - cbn in Hrun. inversion Hrun; subst.
    destruct Hc as (clients & Hfds & Hperm & Hnd).
    exists clients. auto.
  - cbn [run all_plausible] in *. destruct Hpl as [Hp Hrest].
    destruct (step file s0 e) as [s1|] eqn:Estep; [|discriminate].
    destruct (step_consistent file s0 s1 e Hc Hp Estep) as [Hc1 Hs1].
    apply (IH s1); [split; [exact Hc1 | congruence] | exact Hrest | exact Hrun].
Qed.

(** Two connections in a row are plausible on a new server. *)
Lemma plausible_two_clients :
  all_plausible Sessions.coin_file Sessions.fresh [Accept 4; Accept 5].
Proof.
  split.
  - right. cbn. intros H. apply list_elem_of_singleton in H. discriminate H.
  - destruct (step Sessions.coin_file Sessions.fresh (Accept 4)) as [s1|] eqn:E1;
      [|exact I].
    assert (Hfds : m_pollfds s1 = [3; 4]).
    { apply (f_equal (option_map m_pollfds)) in E1. vm_compute in E1.
      injection E1 as E1. symmetry. exact E1. }
    split.
    + change (5 < 0 \/ 5 ∉ m_pollfds s1). right. rewrite Hfds. intros H.
      apply elem_of_cons in H. destruct H as [H|H]; [discriminate H|].
      apply list_elem_of_singleton in H. discriminate H.
    + destruct (step Sessions.coin_file s1 (Accept 5)); exact I.
Qed.

Lemma descriptors_follow_the_table_witness :
  exists s : State,
    run Sessions.coin_file Sessions.fresh [Accept 4; Accept 5] = Some s
    /\ exists clients : list Z,
        m_pollfds s = 3 :: clients
        /\ Permutation clients (map fst (m_players s))
        /\ NoDup (m_pollfds s)
        /\ m_serverSocket s = 3.
Proof.
  destruct (run Sessions.coin_file Sessions.fresh [Accept 4; Accept 5])
    as [s|] eqn:Hrun.
  - exists s. split; [reflexivity|].
    exact (descriptors_follow_the_table
             Sessions.coin_file 3 [Accept 4; Accept 5]
             Sessions.fresh s eq_refl plausible_two_clients Hrun).
  - vm_compute in Hrun. discriminate Hrun.
Defined.

End InvariantFacts.
(** * A tick of a player *)

Module TickFacts.

Import MachineInt Protocol.

Import Server Physics.

Lemma not_le_le (x y : F32.float) :
  F32.is_nan x = false -> F32.is_nan y = false ->
  F32.le x y = false -> F32.le y x = true.
Proof.
  unfold F32.le, SFleb. intros Hx Hy.
  rewrite (F32Facts.compare_antisym x y).
  float_cases x as mx ex; float_cases y as my ey;
    try discriminate; cbn [SFcompare option_map CompOpp]; try reflexivity;
    try discriminate;
    destruct (ex ?= ey); cbn [CompOpp]; try reflexivity; try discriminate;
    destruct (Pos.compare_cont Eq mx my); cbn [CompOpp];
    try reflexivity; discriminate.
Qed.

Lemma nonneg_not_nan (b : F32.float) : F32.nonneg b = true -> F32.is_nan b = false.
Proof. float_cases b as m e; try discriminate; reflexivity. Qed.

Lemma nonneg_zero_le (b : F32.float) :
  F32.nonneg b = true -> F32.le F32.zero b = true.
Proof. float_cases b as m e; try discriminate; reflexivity. Qed.

(** Where [checkBounds] leaves a player. *)
Lemma checkBounds_inside (p : Player) (m : GameMap) :
  1 <= height m ->
  let y' := pos_y (m_position (checkBounds p m)) in
  F32.is_nan y' = false ->
  F32.le F32.zero y' = true /\ F32.le y' (floor_bound m) = true.
Proof.
  intros Hh. cbv zeta.
  pose proof (PhysicsFacts.floor_bound_nonneg m Hh) as Hfb.
  unfold checkBounds.
  destruct (F32.lt (pos_y (m_position p)) F32.zero) eqn:Elt.
  - cbn. intros _. split; [reflexivity | apply nonneg_zero_le; exact Hfb].
  - destruct (F32.ge (pos_y (m_position p)) (floor_bound m)) eqn:Ege.
    + cbn. intros _. split; [apply nonneg_zero_le; exact Hfb|].
      apply (F32Facts.nonneg_ge_refl _ Hfb).
    + intros Hnan. split.
      * apply F32Facts.not_lt_le; [exact Hnan | reflexivity | exact Elt].
      * apply not_le_le; [apply nonneg_not_nan; exact Hfb | exact Hnan | exact Ege].
Qed.

(** A tick keeps a playing player between the ceiling and the floor:
    on a map of height at least 1, unless its vertical position has
    become NaN, the player ends the step of [updatePlayers] with
    [0 <= y] and [y <= height - 1], and with a vertical velocity that
    is zero, NaN or within the velocity limit. *)
Theorem tick_keeps_players_inside (m : GameMap) (p : Player) :
  1 <= height m ->
  PlayerState_eqb (m_state p) PLAYING = true ->
  let p' := updatePlayer m p in
  F32.is_nan (pos_y (m_position p')) = false ->
  F32.le F32.zero (pos_y (m_position p')) = true
  /\ F32.le (pos_y (m_position p')) (floor_bound m) = true
  /\ (m_velocityY p' = F32.zero
      \/ F32.is_nan (m_velocityY p') = true
      \/ (F32.le (F32.opp MAX_VELOCITY) (m_velocityY p') = true
          /\ F32.le (m_velocityY p') MAX_VELOCITY = true)).
Proof.
  intros Hh Hst. cbv zeta. unfold updatePlayer. rewrite Hst. cbn [negb].
  set (q := checkBounds (applyPhysics p) m).
  assert (Hpos : forall st, m_position (setState st q) = m_position q)
    by (intros st; destruct q; reflexivity).
  assert (Hvel : forall st, m_velocityY (setState st q) = m_velocityY q)
    by (intros st; destruct q; reflexivity).
  assert (Hq : F32.is_nan (pos_y (m_position q)) = false ->
               F32.le F32.zero (pos_y (m_position q)) = true
               /\ F32.le (pos_y (m_position q)) (floor_bound m) = true)
    by (apply (checkBounds_inside (applyPhysics p) m Hh)).
  assert (Hv : m_velocityY q = F32.zero
               \/ F32.is_nan (m_velocityY q) = true
               \/ (F32.le (F32.opp MAX_VELOCITY) (m_velocityY q) = true
                   /\ F32.le (m_velocityY q) MAX_VELOCITY = true)).
  { unfold q, checkBounds.
    destruct (F32.lt _ F32.zero); [left; reflexivity|].
    destruct (F32.ge _ _); [left; reflexivity|].
    unfold applyPhysics. cbn [m_velocityY setPosition setVelocityY].
    match goal with
    | |- context [clamp ?v _ _] =>
        destruct (F32.is_nan v) eqn:Env;
        [|right; right; apply PhysicsFacts.clamp_in_range; exact Env]
    end.
    right. left.
    match goal with
    | |- context [clamp ?v _ _] => destruct v; try discriminate; reflexivity
    end. }
  destruct (F32.ge (pos_x (m_position q)) (F32.of_int (width m)));
    rewrite ?Hpos, ?Hvel; intros Hnan; destruct (Hq Hnan) as [H0 H1];
    repeat split; assumption.
Qed.

Lemma tick_keeps_players_inside_witness :
  F32.le F32.zero
         (pos_y (m_position
                   (updatePlayer Samples.one_row_map Samples.player_on_coin)))
  = true.
Proof.
  assert (Hh : 1 <= height Samples.one_row_map) by (cbn; lia).
  exact (proj1 (tick_keeps_players_inside
                  Samples.one_row_map Samples.player_on_coin
                  Hh eq_refl eq_refl)).
Defined.

End TickFacts.

(** * Start and end of a match *)

Module MatchFacts.

Import MachineInt Protocol.

Import Server Physics.

(** A player is moved by a tick only while it is playing; a playing
    player advances by the horizontal speed, keeps its socket, id, score
    and jetpack flag, and becomes FINISHED exactly when the advanced
    [x] has reached the width of the map. *)
Theorem updatePlayer_finishes (m : GameMap) (p : Player) :
  let p' := updatePlayer m p in
  (PlayerState_eqb (m_state p) PLAYING = false -> p' = p)
  /\ (PlayerState_eqb (m_state p) PLAYING = true ->
      pos_x (m_position p') = F32.add (pos_x (m_position p)) HORIZONTAL_SPEED
      /\ m_state p'
         = (if F32.ge (F32.add (pos_x (m_position p)) HORIZONTAL_SPEED)
                      (F32.of_int (width m))
            then FINISHED else m_state p)
      /\ m_clientSocket p' = m_clientSocket p
      /\ m_id p' = m_id p
      /\ m_score p' = m_score p
      /\ m_isJetpacking p' = m_isJetpacking p).
Proof.
  cbv zeta. unfold updatePlayer. split; intros Hst; rewrite Hst; cbn [negb];
    [reflexivity|].
  assert (Hx : pos_x (m_position (checkBounds (applyPhysics p) m))
               = F32.add (pos_x (m_position p)) HORIZONTAL_SPEED).
  { unfold checkBounds.
    destruct (F32.lt _ F32.zero); [reflexivity|].
    destruct (F32.ge _ (floor_bound m)); reflexivity. }
  assert (Hkeep : m_state (checkBounds (applyPhysics p) m) = m_state p
                  /\ m_clientSocket (checkBounds (applyPhysics p) m) = m_clientSocket p
                  /\ m_id (checkBounds (applyPhysics p) m) = m_id p
                  /\ m_score (checkBounds (applyPhysics p) m) = m_score p
                  /\ m_isJetpacking (checkBounds (applyPhysics p) m)
                     = m_isJetpacking p).
  { unfold checkBounds.
    destruct (F32.lt _ F32.zero); [repeat split|].
    destruct (F32.ge _ (floor_bound m)); repeat split. }
  destruct Hkeep as (Hs & Hsock & Hid & Hsc & Hj).
  rewrite Hx.
  destruct (F32.ge (F32.add (pos_x (m_position p)) HORIZONTAL_SPEED)
                   (F32.of_int (width m)));
    cbn [setState m_position m_state m_clientSocket m_id m_score m_isJetpacking];
    rewrite ?Hx; repeat split; assumption.
Qed.

Lemma scan_player_fold (players : list (Z * Player)) : forall acc : EndScan,
  fold_left scan_player players acc
  = mkEndScan
      (allFinished acc
       && negb (existsb (fun sp => PlayerState_eqb (m_state (snd sp)) PLAYING)
                        players))
      (anyDead acc
       || existsb (fun sp => negb (PlayerState_eqb (m_state (snd sp)) PLAYING)
                             && negb (PlayerState_eqb (m_state (snd sp)) FINISHED)
                             && PlayerState_eqb (m_state (snd sp)) DEAD)
                  players)
      (activePlayersCount acc
       + count_state PLAYING players
       + Z.of_nat (length (filter
                    (fun sp => negb (PlayerState_eqb (m_state (snd sp)) PLAYING)
                               && PlayerState_eqb (m_state (snd sp)) FINISHED)
                    players))).
Proof.
  induction players as [|sp players IH]; intros acc.
  - destruct acc as [a d n]. unfold count_state.
    cbn [fold_left existsb allFinished anyDead activePlayersCount negb].
    rewrite !filter_nil, andb_true_r, orb_false_r. cbn [length].
    f_equal. lia.
  - cbn [fold_left]. rewrite IH. unfold scan_player, count_state.
    cbn [existsb]. rewrite !filter_cons.
    destruct (PlayerState_eqb (m_state (snd sp)) PLAYING) eqn:E1;
      [|destruct (PlayerState_eqb (m_state (snd sp)) FINISHED) eqn:E2;
        [|destruct (PlayerState_eqb (m_state (snd sp)) DEAD) eqn:E3]];
      cbn [allFinished anyDead activePlayersCount negb andb orb Is_true];
      rewrite ?decide_True by exact I; rewrite ?decide_False by (intros []);
      cbn [length]; rewrite ?andb_false_r, ?andb_true_r, ?orb_true_r, ?orb_false_r;
      f_equal; cbn [negb andb Is_true];
      rewrite ?decide_True by exact I; rewrite ?decide_False by (intros []);
      cbn [length]; try lia; try reflexivity.
Qed.

Lemma state_not_two (st : PlayerState) (a b : PlayerState) :
  PlayerState_value a <> PlayerState_value b ->
  PlayerState_eqb st b = true -> PlayerState_eqb st a = false.
Proof. unfold PlayerState_eqb. intros Hab Hb. lia. Qed.

(** The first loop of [checkGameEnd] in closed form. *)
Lemma scan_players_eq (players : list (Z * Player)) :
  scan_players players
  = mkEndScan
      (negb (existsb (fun sp => PlayerState_eqb (m_state (snd sp)) PLAYING) players))
      (existsb (fun sp => PlayerState_eqb (m_state (snd sp)) DEAD) players)
      (count_state PLAYING players + count_state FINISHED players).
Proof.
  unfold scan_players. rewrite scan_player_fold.
  cbn [allFinished anyDead activePlayersCount andb orb]. f_equal.
  - apply GridFacts.existsb_pointwise. intros sp.
    destruct (PlayerState_eqb (m_state (snd sp)) DEAD) eqn:E;
      [|rewrite andb_false_r; reflexivity].
    rewrite (state_not_two _ PLAYING DEAD) by (discriminate || exact E).
    rewrite (state_not_two _ FINISHED DEAD) by (discriminate || exact E).
    reflexivity.
  - unfold count_state. rewrite Z.add_0_l. f_equal. f_equal. f_equal.
    apply list_filter_iff. intros sp.
    destruct (PlayerState_eqb (m_state (snd sp)) FINISHED) eqn:E;
      [|rewrite andb_false_r; reflexivity].
    rewrite (state_not_two _ PLAYING FINISHED) by (discriminate || exact E).
    reflexivity.
Qed.

(** When a match ends.  [checkGameEnd] fires exactly when a player is
    dead, or nobody is playing and somebody has finished, or the table
    has at least two players of which fewer than two are playing or
    have finished; in particular it never ends a match in which all of
    two or more players are playing. *)
Theorem end_of_match (players : list (Z * Player)) :
  let playing := count_state PLAYING players in
  let finished := count_state FINISHED players in
  let dead := count_state DEAD players in
  end_condition players
  = (0 <? dead)
    || ((playing =? 0) && (0 <? finished))
    || ((playing + finished <? 2) && (2 <=? Z.of_nat (length players)))
  /\ (playing = Z.of_nat (length players) -> 2 <= playing ->
      end_condition players = false).
Proof.
  cbv zeta.
  assert (Hex : forall st,
             existsb (fun sp => PlayerState_eqb (m_state (snd sp)) st) players
             = (0 <? count_state st players)).
  { intros st. unfold count_state.
    induction players as [|sp players IH]; [reflexivity|].
    cbn [existsb]. rewrite filter_cons.
    destruct (PlayerState_eqb (m_state (snd sp)) st); cbn [orb Is_true].
    - rewrite decide_True by exact I. cbn [length]. symmetry. apply Z.ltb_lt. lia.
    - rewrite decide_False by (intros []). exact IH. }
  assert (Hnn : forall st, 0 <= count_state st players)
    by (intros st; unfold count_state; lia).
  assert (Hle : count_state PLAYING players + count_state FINISHED players
                + count_state DEAD players <= Z.of_nat (length players)).
  { unfold count_state. clear Hex Hnn.
    induction players as [|sp players IH]; [cbn; lia|].
    rewrite !filter_cons. cbn [length].
    set (nP := length (filter (fun sp => PlayerState_eqb (m_state (snd sp)) PLAYING)
                              players)) in *.
    set (nF := length (filter (fun sp => PlayerState_eqb (m_state (snd sp)) FINISHED)
                              players)) in *.
    set (nD := length (filter (fun sp => PlayerState_eqb (m_state (snd sp)) DEAD)
                              players)) in *.
    destruct (PlayerState_eqb (m_state (snd sp)) PLAYING) eqn:E1;
      destruct (PlayerState_eqb (m_state (snd sp)) FINISHED) eqn:E2;
      destruct (PlayerState_eqb (m_state (snd sp)) DEAD) eqn:E3;
      unfold PlayerState_eqb in E1, E2, E3; cbn in E1, E2, E3; try lia;
      cbn [Is_true]; repeat case_decide; try tauto;
      cbn [length]; fold nP nF nD; lia. }
  assert (E : end_condition players
              = (0 <? count_state DEAD players)
                || ((count_state PLAYING players =? 0)
                    && (0 <? count_state FINISHED players))
                || ((count_state PLAYING players + count_state FINISHED players <? 2)
                    && (2 <=? Z.of_nat (length players)))).
  { unfold end_condition. rewrite scan_players_eq.
    cbn [allFinished anyDead activePlayersCount]. rewrite !Hex. unfold MIN_PLAYERS.
    pose proof (Hnn PLAYING). pose proof (Hnn FINISHED).
    destruct (0 <? count_state DEAD players) eqn:Ed;
      destruct (0 <? count_state PLAYING players) eqn:Ep;
      destruct (count_state PLAYING players =? 0) eqn:Ep0; try lia;
      destruct (0 <? count_state FINISHED players) eqn:Ef;
      destruct (0 <? count_state PLAYING players + count_state FINISHED players) eqn:Es;
      try lia;
      destruct (count_state PLAYING players + count_state FINISHED players <? 2);
      destruct (2 <=? Z.of_nat (length players)); reflexivity. }
  split; [exact E|].
  intros Hall H2. rewrite E.
  pose proof (Hnn FINISHED). pose proof (Hnn DEAD).
  destruct (0 <? count_state DEAD players) eqn:Ed; [lia|].
  destruct (count_state PLAYING players =? 0) eqn:Ep0; [lia|].
  destruct (count_state PLAYING players + count_state FINISHED players <? 2) eqn:Es;
    [lia | reflexivity].
Qed.

Lemma spawn_state (m : GameMap) (p : Player) : m_state (spawn m p) = READY.
Proof. reflexivity. Qed.

Lemma promote_spawn (m : GameMap) (p : Player) :
  promote (spawn m p) = setState PLAYING (spawn m p).
Proof. reflexivity. Qed.

(** The start of a match.  While the server waits, nothing starts with
    fewer than two players in the table.  With two or more, the match
    is in progress, every player is READY at x = 1 and y = height - 2,
    and every player is sent GAME_START and then the first
    GAME_STATE_UPDATE.  The first tick
    after that only promotes the players to PLAYING and broadcasts the
    state: nobody moves, nothing is collected and the match cannot
    end on it. *)
Theorem match_start (file : MapFile) (s : State) :
  m_gameState s = WAITING_FOR_PLAYERS ->
  let s1 := checkGameStart s in
  let ready := map (fun sp => (fst sp, spawn (m_map s) (snd sp))) (m_players s) in
  let playing := map (fun sp => (fst sp, setState PLAYING (snd sp))) ready in
  (Z.of_nat (length (m_players s)) < 2 -> s1 = s)
  /\ (2 <= Z.of_nat (length (m_players s)) ->
      m_gameState s1 = IN_PROGRESS
      /\ m_players s1 = ready
      /\ Forall (fun sp =>
                   m_state (snd sp) = READY
                   /\ m_position (snd sp)
                      = mkPosition F32.one
                                   (F32.sub (F32.of_int (height (m_map s))) F32.two))
                ready
      /\ sent s1
         = sent s
           ++ map (fun sp => (fst sp, Broadcaster.gameStartPacket ready)) ready
           ++ map (fun sp => (fst sp, Broadcaster.gameStatePacket ready)) ready
      /\ updateGameState file s1
         = Some (mkState (m_map s) (m_serverSocket s) (m_pollfds s) playing
                         IN_PROGRESS (closed s)
                         (sent s1
                          ++ map (fun sp => (fst sp,
                                             Broadcaster.gameStatePacket playing))
                                 playing))).
Proof.
  intros Hw. cbv zeta. destruct s as [m srv fds ps g cl sn].
  cbn [m_gameState] in Hw. subst g.
  unfold checkGameStart, MIN_PLAYERS.
  cbn [m_gameState m_players m_map m_serverSocket m_pollfds closed sent].
  split.
  - intros Hlt. destruct (2 <=? Z.of_nat (length ps)) eqn:E; [lia|].
    reflexivity.
  - intros Hge. destruct (2 <=? Z.of_nat (length ps)) eqn:E; [|lia].
    set (ready := map (fun sp => (fst sp, spawn m (snd sp))) ps).
    cbn [with_players with_gameState do_send m_players m_gameState m_map
         m_serverSocket m_pollfds closed sent].
    fold ready.
    split; [reflexivity|]. split; [reflexivity|]. split.
    { unfold ready. apply Forall_forall. intros sp Hin.
      apply in_map_iff in Hin. destruct Hin as [sp0 [<- _]]. split; reflexivity. }
    split.
    { unfold Broadcaster.broadcastGameStart, Broadcaster.broadcastGameState,
        Broadcaster.broadcastToAll. rewrite <- app_assoc. reflexivity. }
    unfold updateGameState.
    cbn [do_send with_players with_gameState m_gameState m_players m_map
         m_serverSocket m_pollfds closed sent].
    assert (Hplaying : existsb (fun sp => PlayerState_eqb (m_state (snd sp)) PLAYING)
                               ready = false).
    { unfold ready. clear. induction ps as [|sp l IH]; [reflexivity|].
      cbn [map existsb snd]. rewrite IH. reflexivity. }
    assert (Hready : forallb (fun sp => PlayerState_eqb (m_state (snd sp)) PLAYING
                                       || PlayerState_eqb (m_state (snd sp)) READY)
                             ready = true).
    { unfold ready. clear. induction ps as [|sp l IH]; [reflexivity|].
      cbn [map forallb snd]. rewrite IH. reflexivity. }
    rewrite Hplaying, Hready. cbn [andb negb].
    cbn [with_players do_send m_players m_map m_serverSocket m_pollfds m_gameState
         closed sent].
    assert (Hprom : map (fun sp => (fst sp, promote (snd sp))) ready
                    = map (fun sp => (fst sp, setState PLAYING (snd sp))) ready).
    { unfold ready. rewrite !map_map. apply map_ext. intros sp. reflexivity. }
    rewrite Hprom.
    unfold Broadcaster.broadcastGameStart, Broadcaster.broadcastGameState,
      Broadcaster.broadcastToAll.
    unfold do_send, with_players, with_gameState.
    cbn [m_gameState m_players m_map m_serverSocket m_pollfds closed sent].
    rewrite <- !app_assoc. reflexivity.
Qed.

Lemma match_start_witness :
  m_gameState (checkGameStart ClientSamples.two_waiting) = IN_PROGRESS.
Proof.
  assert (Hn : 2 <= Z.of_nat (length (m_players ClientSamples.two_waiting)))
    by (cbn; lia).
  exact (proj1 (proj2 (match_start
                         None ClientSamples.two_waiting eq_refl) Hn)).
Defined.

End MatchFacts.

(** * The roster of a client *)

Module RosterFacts.

Import MachineInt Protocol.

Import Client.

Lemma applyUpdate_keeps (u : PlayerUpdate) (p : Player) :
  m_id (applyUpdate u p) = m_id p
  /\ m_clientSocket (applyUpdate u p) = m_clientSocket p
  /\ m_velocityY (applyUpdate u p) = m_velocityY p.
Proof. destruct p; repeat split. Qed.

Lemma updateFirst_spec (u : PlayerUpdate) (players : list Player) :
  match updateFirst u players with
  | Some players' =>
      existsb (fun p => m_id p =? u_id u) players = true
      /\ map m_id players' = map m_id players
      /\ map m_clientSocket players' = map m_clientSocket players
  | None => existsb (fun p => m_id p =? u_id u) players = false
  end.
Proof.
  induction players as [|p players IH]; [reflexivity|].
  cbn [updateFirst existsb]. destruct (m_id p =? u_id u) eqn:E; cbn [orb].
  - split; [reflexivity|]. cbn [map].
    destruct (applyUpdate_keeps u p) as (-> & -> & _). split; reflexivity.
  - destruct (updateFirst u players) as [players'|].
    + destruct IH as (Hex & Hids & Hsocks). cbn [map]. rewrite Hids, Hsocks.
      repeat split. exact Hex.
    + exact IH.
Qed.

(** One update keeps the players known, in order, and adds at most one,
    with an id that was not known and no socket. *)
Lemma storeUpdate_roster (players : list Player) (u : PlayerUpdate) :
  exists added : list Z,
    map m_id (storeUpdate players u) = map m_id players ++ added
    /\ map m_clientSocket (storeUpdate players u)
       = map m_clientSocket players ++ map (fun _ => -1) added
    /\ Forall (fun id => ~ In id (map m_id players)) added.
Proof.
  unfold storeUpdate. pose proof (updateFirst_spec u players) as H.
  destruct (updateFirst u players) as [players'|].
  - destruct H as (_ & Hids & Hsocks). exists []. rewrite Hids, Hsocks, !app_nil_r.
    repeat split. constructor.
  - exists [u_id u]. rewrite !map_app. cbn [map].
    destruct (applyUpdate_keeps u (newPlayer (-1) (u_id u))) as (-> & -> & _).
    repeat split. constructor; [|constructor].
    intros Hin. apply in_map_iff in Hin. destruct Hin as [p [Hp Hin]].
    assert (Hex : existsb (fun p => m_id p =? u_id u) players = true).
    { apply existsb_exists. exists p. split; [exact Hin | lia]. }
    congruence.
Qed.

Lemma stateUpdateLoop_roster (data : list byte) (n : nat) :
  forall (i : nat) (players : list Player),
  exists added : list Z,
    map m_id (stateUpdateLoop data i n players) = map m_id players ++ added
    /\ map m_clientSocket (stateUpdateLoop data i n players)
       = map m_clientSocket players ++ map (fun _ => -1) added
    /\ Forall (fun id => ~ In id (map m_id players)) added
    /\ (length added <= n)%nat.
Proof.
  induction n as [|n IH]; intros i players.
  - exists []. cbn [stateUpdateLoop map]. rewrite !app_nil_r.
    repeat split; [constructor | cbn; lia].
  - cbn [stateUpdateLoop].
    destruct (storeUpdate_roster players (readPlayerUpdate data (2 + i * 10)))
      as (a1 & E1 & S1 & F1).
    destruct (IH (S i) (storeUpdate players (readPlayerUpdate data (2 + i * 10))))
      as (a2 & E2 & S2 & F2 & L2).
    exists (a1 ++ a2). rewrite E2, S2, E1, S1, map_app, <- !app_assoc.
    repeat split.
    + apply Forall_app. split; [exact F1|].
      eapply List.Forall_impl; [|exact F2]. cbv beta. intros id Hid Hin.
      apply Hid. rewrite E1. apply in_or_app. left. exact Hin.
    + assert (L1 : (length a1 <= 1)%nat).
      { pose proof (f_equal (@length Z) E1) as HL. rewrite length_app, !length_map in HL.
        unfold storeUpdate in HL.
        pose proof (updateFirst_spec (readPlayerUpdate data (2 + i * 10)) players) as Hs.
        destruct (updateFirst _ players) as [players'|].
        - destruct Hs as (_ & Hids & _).
          apply (f_equal (@length Z)) in Hids. rewrite !length_map in Hids. lia.
        - rewrite length_app in HL. cbn in HL. lia. }
      rewrite length_app. lia.
Qed.

(** The roster of the client.  GAME_START replaces whatever players the
    client held by the ids 1 to n, all playing, n being the count byte
    of the packet.  A GAME_STATE_UPDATE never removes, duplicates or
    reorders the players held: it keeps their ids and sockets and
    appends, without socket, only players whose id was not held, at
    most as many as the count byte announces; data too short for its
    count changes nothing. *)
Theorem client_roster (data : list byte) (length : Z)
        (players : list Player) (table : list (Z * Player))
        (c : NetworkClient.State) :
  (exists added : list Z,
      map m_id (handleGameStateUpdate data length players)
      = map m_id players ++ added
      /\ map m_clientSocket (handleGameStateUpdate data length players)
         = map m_clientSocket players ++ map (fun _ => -1) added
      /\ Forall (fun id => ~ In id (map m_id players)) added
      /\ Z.of_nat (List.length added) <= byte_at data 1)
  /\ (length < 2 + byte_at data 1 * 10 ->
      handleGameStateUpdate data length players = players)
  /\ (let c' := NetworkClient.processPacket
                  (Broadcaster.gameStartPacket table)
                  (Z.of_nat (List.length (Broadcaster.gameStartPacket table))) c in
      map m_id (NetworkClient.m_players c')
      = map Z.of_nat (seq 1 (Z.to_nat (Z.of_nat (List.length table) mod 256)))
      /\ Forall (fun p => m_state p = PLAYING /\ m_clientSocket p = -1)
                (NetworkClient.m_players c')).
Proof.
  assert (Hb : 0 <= byte_at data 1 <= 255).
  { unfold byte_at, Z_of_byte.
    pose proof (Byte.to_N_bounded (nth 1 data x00)). lia. }
  assert (Hsz : to_size_t (2 + byte_at data 1 * 10) = 2 + byte_at data 1 * 10).
  { apply PacketFacts.to_size_t_small.
    change (2 ^ 64) with 18446744073709551616. lia. }
  split; [|split].
  - unfold handleGameStateUpdate.
    destruct (length <? 2);
      [exists []; rewrite !app_nil_r; repeat split; [constructor | cbn; lia]|].
    destruct (length <? _);
      [exists []; rewrite !app_nil_r; repeat split; [constructor | cbn; lia]|].
    destruct (stateUpdateLoop_roster data (Z.to_nat (byte_at data 1)) 0 players)
      as (added & E & S & F & L).
    exists added. repeat split; try assumption. lia.
  - intros Hshort. unfold handleGameStateUpdate.
    destruct (length <? 2); [reflexivity|]. rewrite Hsz.
    destruct (length <? 2 + byte_at data 1 * 10) eqn:E; [reflexivity | lia].
  - cbv zeta. rewrite HandlerFacts.handleGameStart_packet.
    unfold NetworkClient.on_display. cbn [NetworkClient.m_players].
    unfold NetworkClient.startingPlayers. split.
    + rewrite map_map. apply map_ext. intros i. reflexivity.
    + apply Forall_forall. intros p Hin. apply in_map_iff in Hin.
      destruct Hin as [i [<- _]]. split; reflexivity.
Qed.

End RosterFacts.

(** * Death *)

Module DeathFacts.

Import MachineInt Protocol.

Import Server.

Lemma existsb_app_mid {A : Type} (f : A -> bool) (l1 l2 : list A) (a : A) :
  f a = true -> existsb f (l1 ++ a :: l2) = true.
Proof.
  intros H. rewrite existsb_app. cbn [existsb]. rewrite H.
  rewrite orb_true_l. apply orb_true_r.
Qed.

(** An electric square kills.  A playing player whose cell holds an
    electric square becomes DEAD, the map being left as it is; every
    player of the table, the dead one included, is sent PLAYER_DEATH
    with the id; the table then meets the end condition; and a client
    that processes the packet marks
    the first player it holds with that id as DEAD, playing the zapper
    sound when the id is its own. *)
Theorem electric_square_kills
        (before after : list (Z * Player)) (sock : Z) (player : Player)
        (m : GameMap) (client : NetworkClient.State) (display : GameDisplay.State) :
  PlayerState_eqb (m_state player) PLAYING = true ->
  in_map m (fst (cell_of player)) (snd (cell_of player)) = true ->
  grid_get (Z.to_nat (snd (cell_of player))) (Z.to_nat (fst (cell_of player)))
           (tiles m) = Some ELECTRICSQUARE ->
  0 <= m_id player <= 255 ->
  NetworkClient.m_display client = Some display ->
  let table := before ++ (sock, setState DEAD player) :: after in
  let packet := [x09; byte_of_Z (m_id player)] in
  collide before after sock player m
  = (setState DEAD player, m, map (fun sp => (fst sp, packet)) table)
  /\ end_condition table = true
  /\ exists display',
      NetworkClient.m_display
        (NetworkClient.processPacket packet (Z.of_nat (length packet)) client)
      = Some display'
      /\ GameData.m_players (GameDisplay.m_gameData display')
         = GameData.setFirstState (m_id player) DEAD
             (GameData.m_players (GameDisplay.m_gameData display))
      /\ GameDisplay.played display'
         = GameDisplay.played display
           ++ (if m_id player
                  =? GameData.m_localPlayerId (GameDisplay.m_gameData display)
               then [GameDisplay.Zapper] else []).
Proof.
  intros Hst Hin Htile Hid Hdisp. cbv zeta. split; [|split].
  - destruct (CollisionFacts.collide_cases before after sock player m)
      as [E|[(_ & _ & _ & E)|(_ & _ & c & Ht & _)]].
    + exfalso. unfold collide in E. rewrite Hst in E. cbn [negb] in E.
      destruct (cell_of player) as [cx cy]. cbn [fst snd] in *.
      rewrite Hin, Htile in E. injection E as _ Hs.
      unfold Broadcaster.broadcastPlayerDeath, Broadcaster.broadcastToAll in Hs.
      apply (f_equal (@length Broadcaster.Send)) in Hs.
      rewrite length_map, length_app in Hs. cbn [length] in Hs. lia.
    + exact E.
    + rewrite Htile in Ht. discriminate.
  - unfold end_condition. rewrite MatchFacts.scan_players_eq.
    cbn [allFinished anyDead activePlayersCount].
    rewrite (existsb_app_mid
               (fun sp : Z * Player => PlayerState_eqb (m_state (snd sp)) DEAD)
               before after (sock, setState DEAD player))
      by reflexivity.
    rewrite orb_true_r. reflexivity.
  - change [x09; byte_of_Z (m_id player)]
      with (Broadcaster.playerDeathPacket (m_id player)).
    rewrite HandlerFacts.handlePlayerDeath_packet.
    rewrite HandlerFacts.mod_256_small by exact Hid.
    unfold NetworkClient.on_display. cbn [NetworkClient.m_display].
    rewrite Hdisp. cbn [option_map]. eexists. split; [reflexivity|].
    unfold GameDisplay.handlePlayerDeath.
    cbn [GameDisplay.with_gameData GameDisplay.m_gameData GameData.updatePlayerState
         GameData.m_localPlayerId].
    destruct (m_id player =? _); cbn; rewrite ?app_nil_r; split; reflexivity.
Qed.

Lemma electric_square_kills_witness :
  end_condition [(4, setState DEAD Samples.player_on_coin)] = true.
Proof.
  assert (Hid : 0 <= m_id Samples.player_on_coin <= 255) by (cbn; lia).
  exact (proj1 (proj2 (electric_square_kills
                         [] [] 4 Samples.player_on_coin ClientSamples.zap_map
                         ClientSamples.client_watching ClientSamples.watching
                         eq_refl eq_refl eq_refl Hid eq_refl))).
Defined.

End DeathFacts.

(** * The reset at the end of a match *)

Module ResetFacts.

Import MachineInt Protocol.

Import Server MapFileSpec.

(** The end of a match.  When the end condition holds, [checkGameEnd]
    sends GAME_OVER with the winner to every player, then closes every
    player socket in table order, empties the table, polls the listener
    alone and waits for players again; reloading a uniform file of the
    width the map has restores every tile to what the file describes.
    When the condition does not hold nothing changes, and when the file
    can no longer be loaded the reset throws. *)
Theorem end_of_match_resets (content : list string) (s : State) :
  uniform (lines_of content) ->
  Forall (fun row => length row
                     = String.length (default EmptyString
                                              (head (lines_of content))))
         (tiles (m_map s)) ->
  (end_condition (m_players s) = false ->
   forall file, checkGameEnd file s = Some s)
  /\ (end_condition (m_players s) = true ->
      checkGameEnd None s = None
      /\ exists s',
          checkGameEnd (Some content) s = Some s'
          /\ sent s'
             = sent s
               ++ map (fun sp => (fst sp,
                                  Broadcaster.gameOverPacket
                                    (winnerOf (m_players s))))
                      (m_players s)
          /\ closed s' = closed s ++ map fst (m_players s)
          /\ m_players s' = []
          /\ m_pollfds s' = [m_serverSocket s]
          /\ m_gameState s' = WAITING_FOR_PLAYERS
          /\ tiles (m_map s') = tiles_of (lines_of content)
          /\ width (m_map s')
             = Z.of_nat (String.length (default EmptyString
                                                (head (lines_of content))))
          /\ height (m_map s') = Z.of_nat (length (lines_of content))).
Proof.
  intros Hu Hrows. split.
  - intros Hend file. unfold checkGameEnd. rewrite Hend. reflexivity.
  - intros Hend. unfold checkGameEnd. rewrite Hend. unfold resetGame.
    unfold do_close, do_send, with_players, with_pollfds, with_gameState, with_map.
    cbn [m_map m_serverSocket m_pollfds m_players m_gameState closed sent].
    split; [reflexivity|].
    rewrite (MapFacts.loadMap_uniform content (m_map s) Hu)
      by (eapply List.Forall_impl; [|exact Hrows]; cbv beta; intros row Hr; lia).
    eexists. split; [reflexivity|].
    cbn [m_map m_serverSocket m_pollfds m_players m_gameState closed sent
         tiles width height].
    repeat split.
Qed.

Lemma end_of_match_resets_witness :
  checkGameEnd None ClientSamples.one_dead = None.
Proof.
  assert (Hrows : Forall (fun row : list TileType =>
                            length row
                            = String.length
                                (default EmptyString
                                         (head (lines_of ["_c"%string]))))
                         (tiles (m_map ClientSamples.one_dead))).
  { repeat constructor. }
  exact (proj1 (proj2 (end_of_match_resets
                         ["_c"%string] ClientSamples.one_dead
                         MapFacts.uniform_one_line Hrows)
                      eq_refl)).
Defined.

End ResetFacts.

